(** * jirascript: the JIRA dashboard widget

  A shallow embedding of [jira-dashboard.js] and of its refactored
  sibling, followed by the properties of the parser, the grouper and the
  overlay that the specification states.

  The script exists in three variants that share most of their text:
  - [Original]: the first script of [jira-dashboard.js] (sortable,
    grouped by assignee);
  - [Refactored]: the self-contained rewrite (grouped by assignee);
  - [Sprint]: the second script of [jira-dashboard.js] (grouped by
    sprint, then by assignee).

  Text is modelled by [string]: the bytes of its UTF-8 encoding.  The
  searches of the scripts are for ASCII words and characters, which
  stand for themselves in that encoding; white space and the change of
  case are followed outside of ASCII as far as the scripts can tell, and
  the one computation that counts characters, the initials of a name,
  is embedded for ASCII names.  The XML text itself is not modelled: the
  parser is embedded from the DOM that [DOMParser] hands to it. *)

From Stdlib Require Import String Ascii List Arith Bool Lia.
From stdpp Require Import base option list strings gmap fin_maps pretty.

Import ListNotations.
Local Open Scope string_scope.
Local Open Scope list_scope.

(** ** JavaScript string primitives *)

Module Str.

(** A string is truthy when it is not empty. *)
Definition truthy (s : string) : bool :=
  match s with EmptyString => false | String _ _ => true end.

(** [a || d] where [a] is a possibly undefined string and [d] a string. *)
Definition or_else (a : option string) (d : string) : string :=
  match a with
  | Some s => if truthy s then s else d
  | None => d
  end.

(** [a || undefined]. *)
Definition or_undefined (a : option string) : option string :=
  match a with
  | Some s => if truthy s then Some s else None
  | None => None
  end.

(** [a || b] where both sides may be undefined. *)
Definition or_opt (a b : option string) : option string :=
  match or_undefined a with
  | Some s => Some s
  | None => b
  end.

Definition lower (c : ascii) : ascii :=
  let n := nat_of_ascii c in
  if ((65 <=? n) && (n <=? 90))%nat then ascii_of_nat (n + 32) else c.

(** The two characters outside of ASCII whose lower case holds an ASCII
    letter, by their bytes: the Kelvin sign U+212A, which becomes [k],
    and the capital I with a dot U+0130, which becomes [i] followed by
    the combining dot U+0307. *)
Definition isKelvin (c1 c2 c3 : ascii) : bool :=
  ((nat_of_ascii c1 =? 226) && (nat_of_ascii c2 =? 132) && (nat_of_ascii c3 =? 170))%nat.

Definition isDottedI (c1 c2 : ascii) : bool :=
  ((nat_of_ascii c1 =? 196) && (nat_of_ascii c2 =? 176))%nat.

Definition combiningDot : string :=
  String (ascii_of_nat 204) (String (ascii_of_nat 135) EmptyString).

(** [s] starts with one of them. *)
Definition dottedHead (s : string) : bool :=
  match s with
  | String c1 (String c2 _) => isDottedI c1 c2
  | _ => false
  end.

Definition kelvinHead (s : string) : bool :=
  match s with
  | String c1 (String c2 (String c3 _)) => isKelvin c1 c2 c3
  | _ => false
  end.

(** [s.toLowerCase()], as far as ASCII goes: the letters [A] to [Z] and
    the two characters above are lower-cased.  The other letters have a
    lower case outside of ASCII and are left as they are: the result has
    the ASCII characters of [s.toLowerCase()], between the same other
    characters up to their case, and the scripts only search it for
    ASCII words. *)
Fixpoint toLowerCase (s : string) : string :=
  match s with
  | EmptyString => EmptyString
  | String c1 s1 =>
      match s1 with
      | String c2 s2 =>
          if isDottedI c1 c2 then String "i" (combiningDot +:+ toLowerCase s2)
          else match s2 with
               | String c3 s3 =>
                   if isKelvin c1 c2 c3 then String "k" (toLowerCase s3)
                   else String (lower c1) (toLowerCase s1)
               | EmptyString => String (lower c1) (toLowerCase s1)
               end
      | EmptyString => String (lower c1) EmptyString
      end
  end.

(** [startsWith p s]: [p] occurs in [s] at position 0. *)
Fixpoint startsWith (p s : string) : bool :=
  match p, s with
  | EmptyString, _ => true
  | String _ _, EmptyString => false
  | String a p', String b s' => Ascii.eqb a b && startsWith p' s'
  end.

(** [c] is one of the characters of [s]. *)
Fixpoint occurs (c : ascii) (s : string) : bool :=
  match s with
  | EmptyString => false
  | String d s' => Ascii.eqb d c || occurs c s'
  end.

(** [s.includes(p)]. *)
Fixpoint includes (p s : string) : bool :=
  startsWith p s ||
  match s with
  | EmptyString => false
  | String _ s' => includes p s'
  end.

(** [s.replace(/p/g, r)] for a literal, non-empty pattern [p] and a
    replacement [r] without [$]: the matches are found from left to
    right and do not overlap.  [skip] counts the characters of the
    current match that are still to be consumed. *)
Fixpoint replaceFrom (p r : string) (skip : nat) (s : string) : string :=
  match s with
  | EmptyString => EmptyString
  | String c s' =>
      match skip with
      | S k => replaceFrom p r k s'
      | O =>
          if startsWith p s
          then r +:+ replaceFrom p r (String.length p - 1) s'
          else String c (replaceFrom p r 0 s')
      end
  end.

Definition replaceAll (p r s : string) : string := replaceFrom p r 0 s.

(** The white space of [trim] and of [\s]: the characters of the
    productions WhiteSpace and LineTerminator, by their bytes.  Of one
    byte: TAB, LF, VT, FF, CR and space. *)
Definition isSpace (c : ascii) : bool :=
  let n := nat_of_ascii c in
  (((9 <=? n) && (n <=? 13)) || (n =? 32))%nat.

(** Of two bytes: the no-break space U+00A0. *)
Definition isSpace2 (c1 c2 : ascii) : bool :=
  ((nat_of_ascii c1 =? 194) && (nat_of_ascii c2 =? 160))%nat.

(** Of three bytes: U+1680, U+2000 to U+200A, U+2028, U+2029, U+202F,
    U+205F, U+3000 and the byte order mark U+FEFF. *)
Definition isSpace3 (c1 c2 c3 : ascii) : bool :=
  let n1 := nat_of_ascii c1 in
  let n2 := nat_of_ascii c2 in
  let n3 := nat_of_ascii c3 in
  (((n1 =? 225) && (n2 =? 154) && (n3 =? 128))
   || ((n1 =? 226) && (n2 =? 128)
       && (((128 <=? n3) && (n3 <=? 138)) || (n3 =? 168) || (n3 =? 169) || (n3 =? 175)))
   || ((n1 =? 226) && (n2 =? 129) && (n3 =? 159))
   || ((n1 =? 227) && (n2 =? 128) && (n3 =? 128))
   || ((n1 =? 239) && (n2 =? 187) && (n3 =? 191)))%nat.

(** The number of bytes of the white space character that [s] starts
    with, [0] when it starts with none. *)
Definition spaceLen (s : string) : nat :=
  match s with
  | String c1 s1 =>
      if isSpace c1 then 1
      else match s1 with
           | String c2 s2 =>
               if isSpace2 c1 c2 then 2
               else match s2 with
                    | String c3 _ => if isSpace3 c1 c2 c3 then 3 else 0
                    | EmptyString => 0
                    end
           | EmptyString => 0
           end
  | EmptyString => 0
  end.

(** [s.trimStart()], also [s.replace(/^\s*/, '')]. *)
Fixpoint trimStart (s : string) : string :=
  match s with
  | EmptyString => EmptyString
  | String c1 s1 =>
      if isSpace c1 then trimStart s1
      else match s1 with
           | String c2 s2 =>
               if isSpace2 c1 c2 then trimStart s2
               else match s2 with
                    | String c3 s3 => if isSpace3 c1 c2 c3 then trimStart s3 else s
                    | EmptyString => s
                    end
           | EmptyString => s
           end
  end.

(** [s] is made of white space, if of anything. *)
Definition blank (s : string) : bool :=
  match trimStart s with
  | EmptyString => true
  | String _ _ => false
  end.

(** [s.trimEnd()]: [s] without the white space it ends with.  A byte
    inside a character starts no white space, so the text is cut where a
    character starts. *)
Fixpoint trimEnd (s : string) : string :=
  match s with
  | EmptyString => EmptyString
  | String c s' => if blank (String c s') then EmptyString else String c (trimEnd s')
  end.

(** [s.trim()]. *)
Definition trim (s : string) : string := trimEnd (trimStart s).

(** [s.split(':')[0]]: the text before the first colon, all of [s] when
    it has none. *)
Fixpoint beforeColon (s : string) : string :=
  match s with
  | EmptyString => EmptyString
  | String c s' =>
      if Ascii.eqb c ":" then EmptyString else String c (beforeColon s')
  end.

(** The text after the first colon, when there is one. *)
Fixpoint afterColon (s : string) : option string :=
  match s with
  | EmptyString => None
  | String c s' => if Ascii.eqb c ":" then Some s' else afterColon s'
  end.

(** [s.replace(/^[^:]*:\s*/, '')]: drops the text up to the first colon
    and the white space after it; [s] is unchanged without a colon. *)
Definition stripKeyPrefix (s : string) : string :=
  match afterColon s with
  | Some rest => trimStart rest
  | None => s
  end.

(** The double quote character. *)
Definition dquote : string := String (ascii_of_nat 34) EmptyString.

(** The chain of four replacements applied to free text. *)
Definition decodeEntities (s : string) : string :=
  replaceAll "&quot;" dquote
    (replaceAll "&amp;" "&"
       (replaceAll "&gt;" ">"
          (replaceAll "&lt;" "<" s))).

End Str.

(** ** The DOM of the feed *)

Module Dom.

(** An XML node: character data, or an element with its attributes and
    its children in document order. *)
#[local] Set Warnings "-register-all".
Inductive node : Type :=
| Text (data : string)
| Elem (tag : string) (attrs : list (string * string)) (children : list node).

(** [n.textContent]: the character data below [n], concatenated. *)
Fixpoint textContent (n : node) : string :=
  match n with
  | Text data => data
  | Elem _ _ children =>
      (fix all (l : list node) : string :=
         match l with
         | [] => EmptyString
         | c :: l' => textContent c +:+ all l'
         end) children
  end.

(** The nodes strictly below [n], in document order. *)
Fixpoint descendants (n : node) : list node :=
  match n with
  | Text _ => []
  | Elem _ _ children =>
      (fix all (l : list node) : list node :=
         match l with
         | [] => []
         | c :: l' => (c :: descendants c) ++ all l'
         end) children
  end.

Definition hasTag (tag : string) (n : node) : bool :=
  match n with
  | Text _ => false
  | Elem t _ _ => String.eqb t tag
  end.

(** [n.querySelectorAll(tag)] for a type selector. *)
Definition querySelectorAll (tag : string) (n : node) : list node :=
  List.filter (hasTag tag) (descendants n).

(** [n.querySelector(tag)]: the first match, [None] for [null]. *)
Definition querySelector (tag : string) (n : node) : option node :=
  head (querySelectorAll tag n).

(** [n.getAttribute(name)], [None] for [null]. *)
Definition getAttribute (name : string) (n : node) : option string :=
  match n with
  | Text _ => None
  | Elem _ attrs _ =>
      snd <$> List.find (fun a => String.eqb (fst a) name) attrs
  end.

(** [n.querySelector(tag)?.textContent]. *)
Definition text (tag : string) (n : node) : option string :=
  textContent <$> querySelector tag n.

(** Builders for the sample feeds of the examples: an element that holds
    only text, and a document around a list of items. *)
Definition textElement (tag txt : string) : node := Elem tag [] [Text txt].

Definition feedOf (items : list node) : node :=
  Elem "#document" [] [Elem "rss" [] [Elem "channel" [] items]].

End Dom.

(** ** Ticket records *)

Inductive variant : Type := Original | Refactored | Sprint.

Module Comment.
Record t : Type := mk {
  id : option string;
  author : option string;
  created : option string;
  body : string
}.
End Comment.

Module Ticket.
(** [parentKey] is [None] when the property is [undefined]; [sprint] is
    [None] in the variants whose records have no such property. *)
Record t : Type := mk {
  id : string;
  key : string;
  summary : string;
  description : string;
  type : string;
  status : string;
  assignee : string;
  priority : string;
  updated : string;
  created : string;
  parentKey : option string;
  link : string;
  comments : list Comment.t;
  sprint : option string
}.

(** A record for the examples: the given fields, and nothing else but
    the defaults of the parser. *)
Definition sample (key type assignee : string) (parentKey sprint : option string) : t :=
  mk EmptyString key EmptyString EmptyString type "Unknown" assignee "Medium"
     "2024-01-01T00:00:00.000Z" "2024-01-01T00:00:00.000Z" parentKey EmptyString []
     sprint.
End Ticket.

(** ** The parser *)

Module Parser.
Import Str Dom.

(** The comment record built from one [comment] element. *)
Definition parseComment (v : variant) (c : node) : Comment.t :=
  let body := trim (decodeEntities (or_else (Some (textContent c)) EmptyString)) in
  match v with
  | Original =>
      Comment.mk (getAttribute "id" c) (getAttribute "author" c)
                 (getAttribute "created" c) body
  | Refactored | Sprint =>
      Comment.mk
        (or_undefined (getAttribute "id" c))
        (Some (or_else (or_opt (getAttribute "author" c) (getAttribute "username" c))
                       "Unknown"))
        (or_undefined (getAttribute "created" c))
        body
  end.

Definition parseDescription (item : node) : string :=
  match querySelector "description" item with
  | Some el => trim (decodeEntities (or_else (Some (textContent el)) EmptyString))
  | None => EmptyString
  end.

Definition parseComments (v : variant) (item : node) : list Comment.t :=
  match querySelector "comments" item with
  | Some el => List.map (parseComment v) (querySelectorAll "comment" el)
  | None => []
  end.

(** The sprint of an item: the value of the last [customfield] named
    [Sprint] that has one. *)
Definition sprintStep (sprint : string) (cf : node) : string :=
  let name := or_else (text "customfieldname" cf) EmptyString in
  if String.eqb name "Sprint"
  then match or_undefined (text "customfieldvalue" cf) with
       | Some val => val
       | None => sprint
       end
  else sprint.

Definition parseSprint (item : node) : string :=
  fold_left sprintStep (querySelectorAll "customfield" item) "No Sprint".

(** [item.querySelector(tag)?.textContent] is falsy (there is no such
    element below the item, or it has no text), or it is the non-empty
    text [s]. *)
Definition absent (tag : string) (item : node) : Prop :=
  or_undefined (text tag item) = None.

Definition present (tag : string) (item : node) (s : string) : Prop :=
  or_undefined (text tag item) = Some s.

(** The key expression. *)
Definition itemKey (v : variant) (item : node) : string :=
  match v with
  | Original =>
      or_else (or_opt (text "key" item) (beforeColon <$> text "title" item))
              EmptyString
  | Refactored | Sprint =>
      or_else (or_opt (text "key" item)
                      (Some (beforeColon (or_else (text "title" item) EmptyString))))
              EmptyString
  end.

(** The object literal [ticket]; [now] is [new Date().toISOString()]. *)
Definition buildTicket (v : variant) (now : string) (item : node) : Ticket.t :=
  {| Ticket.id := or_else (or_opt (text "guid" item) (text "link" item)) EmptyString;
     Ticket.key := itemKey v item;
     Ticket.summary :=
       or_else (or_opt (text "summary" item) (stripKeyPrefix <$> text "title" item))
               EmptyString;
     Ticket.description := parseDescription item;
     Ticket.type := or_else (text "type" item) "Task";
     Ticket.status := or_else (text "status" item) "Unknown";
     Ticket.assignee :=
       or_else (or_opt (text "assignee" item) (text "reporter" item)) "Unassigned";
     Ticket.priority := or_else (text "priority" item) "Medium";
     Ticket.updated := or_else (or_opt (text "updated" item) (text "pubDate" item)) now;
     Ticket.created := or_else (or_opt (text "created" item) (text "pubDate" item)) now;
     Ticket.parentKey := or_undefined (text "parent" item);
     Ticket.link := or_else (text "link" item) EmptyString;
     Ticket.comments := parseComments v item;
     Ticket.sprint :=
       match v with
       | Sprint => Some (parseSprint item)
       | Original | Refactored => None
       end |}.

(** The body of the [forEach] callback: the ticket pushed for [item],
    if any.  No operation of the body raises, so the [catch] branch is
    never taken. *)
Definition parseItem (v : variant) (now : string) (item : node) : option Ticket.t :=
  let ticket := buildTicket v now item in
  if truthy (Ticket.key ticket) then Some ticket else None.

(** [parseJiraXML], from the document that [DOMParser] returns. *)
Definition parseJiraXML (v : variant) (now : string) (xmlDoc : node) : list Ticket.t :=
  omap (parseItem v now) (querySelectorAll "item" xmlDoc).

End Parser.

(** ** Objects used as dictionaries *)

(** The result of running a piece of the script: it returns, it raises a
    [TypeError], or it [Escapes] the embedding.  The last case stands for
    a run that reads a bucket out of a built-in object reached through
    [Object.prototype] and goes on to write on that built-in (or to fail
    on one of its members), and for a computation on a text or an id
    that the embedding does not follow: what happens is not modelled. *)
Inductive outcome (A : Type) : Type :=
| Done (a : A)
| TypeError
| Escapes.

Arguments Done {A} a.
Arguments TypeError {A}.
Arguments Escapes {A}.

#[export] Instance outcome_bind : MBind outcome :=
  fun A B f m =>
    match m with
    | Done a => f a
    | TypeError => TypeError
    | Escapes => Escapes
    end.

#[export] Instance outcome_ret : MRet outcome := fun A a => Done a.

(** [l.reduce(f, acc)] for a callback that may raise. *)
Fixpoint reduceM {A S : Type} (f : S -> A -> outcome S) (l : list A) (acc : S)
  : outcome S :=
  match l with
  | [] => Done acc
  | x :: l' => acc' ← f acc x; reduceM f l' acc'
  end.

Module Obj.

(** The property names that every object literal inherits from
    [Object.prototype]. *)
Definition prototypeNames : list string :=
  [ "constructor"; "hasOwnProperty"; "isPrototypeOf"; "propertyIsEnumerable";
    "toLocaleString"; "toString"; "valueOf"; "__proto__";
    "__defineGetter__"; "__defineSetter__"; "__lookupGetter__"; "__lookupSetter__" ].

Definition inherited (k : string) : bool := bool_decide (k ∈ prototypeNames).

(** What [o[k]] evaluates to on an object that started as [{}] and whose
    own properties are [o]: an own value, a built-in found on the
    prototype (a function or [Object.prototype] itself, all truthy), or
    [undefined]. *)
Inductive property (V : Type) : Type :=
| Own (v : V)
| Inherited
| Undefined.

Arguments Own {V} v.
Arguments Inherited {V}.
Arguments Undefined {V}.

Definition get {V : Type} (o : gmap string V) (k : string) : property V :=
  match o !! k with
  | Some v => Own v
  | None => if inherited k then Inherited else Undefined
  end.

End Obj.

(** ** The grouper *)

Module Bucket.
(** [{ userStories, tasks, raw }]; the buckets of [Original] have no
    [raw] property, and their [raw] stays empty here. *)
Record t : Type := mk {
  userStories : list Ticket.t;
  tasks : list Ticket.t;
  raw : list Ticket.t
}.

Definition empty : t := mk [] [] [].

(** The tickets shown for the bucket: stories, then tasks. *)
Definition contents (b : t) : list Ticket.t := userStories b ++ tasks b.
End Bucket.

Module Grouper.
Import Str.

(** [(t.type || '').toLowerCase().includes('story')]. *)
Definition isStory (t : Ticket.t) : bool :=
  includes "story" (toLowerCase (or_else (Some (Ticket.type t)) EmptyString)).

(** [(t.type || '').toLowerCase().includes('task')]. *)
Definition isTask (t : Ticket.t) : bool :=
  includes "task" (toLowerCase (or_else (Some (Ticket.type t)) EmptyString)).

(** The property name under which a ticket is filed. *)
Definition assigneeKey (v : variant) (t : Ticket.t) : string :=
  match v with
  | Original => Ticket.assignee t
  | Refactored | Sprint => or_else (Some (Ticket.assignee t)) "Unassigned"
  end.

Definition sprintKey (t : Ticket.t) : string :=
  or_else (Ticket.sprint t) "No Sprint".

(** The pushes of one round of the reduction. *)
Definition push (v : variant) (t : Ticket.t) (b : Bucket.t) : Bucket.t :=
  let raw' :=
    match v with
    | Original => Bucket.raw b
    | Refactored | Sprint => Bucket.raw b ++ [t]
    end in
  if isStory t
  then Bucket.mk (Bucket.userStories b ++ [t]) (Bucket.tasks b) raw'
  else Bucket.mk (Bucket.userStories b) (Bucket.tasks b ++ [t]) raw'.

(** One round of the reduction over an assignee dictionary.  When the
    name resolves to a built-in, no bucket is created and the push on its
    missing [userStories], [tasks] or [raw] raises. *)
Definition fileByAssignee (v : variant) (acc : gmap string Bucket.t) (t : Ticket.t)
  : outcome (gmap string Bucket.t) :=
  let assignee := assigneeKey v t in
  match Obj.get acc assignee with
  | Obj.Undefined => Done (<[assignee := push v t Bucket.empty]> acc)
  | Obj.Own b => Done (<[assignee := push v t b]> acc)
  | Obj.Inherited => TypeError
  end.

(** [groupTicketsByAssignee] of [Original] and [Refactored]. *)
Definition groupTicketsByAssignee (v : variant) (tickets : list Ticket.t)
  : outcome (gmap string Bucket.t) :=
  reduceM (fileByAssignee v) tickets ∅.

(** One round of [groupTicketsBySprintAndAssignee]. *)
Definition fileBySprint (acc : gmap string (gmap string Bucket.t)) (t : Ticket.t)
  : outcome (gmap string (gmap string Bucket.t)) :=
  let sprint := sprintKey t in
  assignees ← match Obj.get acc sprint with
              | Obj.Undefined => Done ∅
              | Obj.Own a => Done a
              | Obj.Inherited => Escapes
              end;
  assignees' ← fileByAssignee Sprint assignees t;
  Done (<[sprint := assignees']> acc).

Definition groupTicketsBySprintAndAssignee (tickets : list Ticket.t)
  : outcome (gmap string (gmap string Bucket.t)) :=
  reduceM fileBySprint tickets ∅.

(** The tickets that the values of a dictionary hold, value after value.
    The order in which the keys are listed is not that of [Object.entries];
    the statements that use [gather] are up to permutation. *)
Definition gather {V T : Type} (h : V -> list T) (g : gmap string V) : list T :=
  (map_to_list g).*2 ≫= h.

(** Everything filed in an assignee dictionary. *)
Definition filed (g : gmap string Bucket.t) : list Ticket.t :=
  gather Bucket.contents g.

Definition filedStories (g : gmap string Bucket.t) : list Ticket.t :=
  gather Bucket.userStories g.

Definition filedTasks (g : gmap string Bucket.t) : list Ticket.t :=
  gather Bucket.tasks g.

(** Everything filed in a sprint dictionary. *)
Definition filedInSprints (g : gmap string (gmap string Bucket.t)) : list Ticket.t :=
  gather filed g.

(** The grouping that the specification describes, to compare the
    reductions with: the tickets of one assignee (of one sprint), in list
    order, and the bucket that holds them, the stories apart from the
    other tickets; no bucket without a ticket. *)
Definition ofAssignee (v : variant) (k : string) (tickets : list Ticket.t)
  : list Ticket.t :=
  filter (fun t => assigneeKey v t = k) tickets.

Definition ofSprint (s : string) (tickets : list Ticket.t) : list Ticket.t :=
  filter (fun t => sprintKey t = s) tickets.

Definition bucketOf (v : variant) (mine : list Ticket.t) : option Bucket.t :=
  match mine with
  | [] => None
  | _ :: _ =>
      Some (Bucket.mk (filter (fun t => isStory t) mine)
                      (filter (fun t => ~ isStory t) mine)
                      match v with
                      | Original => []
                      | Refactored | Sprint => mine
                      end)
  end.

(** The reduction that builds [tasksByParent] for one bucket. *)
Definition parentOf (t : Ticket.t) : string :=
  or_else (Ticket.parentKey t) "standalone".

Definition fileByParent (acc : gmap string (list Ticket.t)) (t : Ticket.t)
  : outcome (gmap string (list Ticket.t)) :=
  let parent := parentOf t in
  match Obj.get acc parent with
  | Obj.Undefined => Done (<[parent := [t]]> acc)
  | Obj.Own l => Done (<[parent := l ++ [t]]> acc)
  | Obj.Inherited => TypeError
  end.

Definition tasksByParent (tasks : list Ticket.t) : outcome (gmap string (list Ticket.t)) :=
  reduceM fileByParent tasks ∅.

(** The tasks filed under one parent, in list order, and the property
    that holds them: no property without a task. *)
Definition ofParent (p : string) (tasks : list Ticket.t) : list Ticket.t :=
  filter (fun t => parentOf t = p) tasks.

Definition listOf (mine : list Ticket.t) : option (list Ticket.t) :=
  match mine with
  | [] => None
  | _ :: _ => Some mine
  end.

End Grouper.

(** ** The renderer *)

Module Stats.
(** [groups] is the [assignees] count of [Original] and [Refactored] and
    the [sprints] count of [Sprint]. *)
Record t : Type := mk {
  totalTickets : nat;
  userStories : nat;
  tasks : nat;
  groups : nat
}.
End Stats.

(** [l.map(f)] for a callback that may raise. *)
Fixpoint traverse {A B : Type} (f : A -> outcome B) (l : list A) : outcome (list B) :=
  match l with
  | [] => Done []
  | x :: l' => y ← f x; ys ← traverse f l'; Done (y :: ys)
  end.

Module Render.
Import Str.

(** What an assignee card shows: the two counts of its header, its
    stories, the Related Tasks blocks written under each of them, each
    block with the tasks it lists, and the tasks of the Standalone Tasks
    section ([None] when the section is left out). *)
Record card : Type := mkCard {
  storyCount : nat;
  taskCount : nat;
  stories : list Ticket.t;
  related : list (list (list Ticket.t));
  standalone : option (list Ticket.t)
}.

(** How many times the markup of a story holds its Related Tasks block:
    the original script writes it before the dates of the story and
    once more after them, with the same id. *)
Definition copies (v : variant) : nat :=
  match v with
  | Original => 2
  | Refactored | Sprint => 1
  end.

(** The blocks written for a value of [tasksByParent[story.key]]. *)
Definition blocksOf (v : variant) (tasks : option (list Ticket.t))
  : list (list Ticket.t) :=
  match tasks with
  | Some l => replicate (copies v) l
  | None => []
  end.

(** The uses of [tasksByParent[story.key]]: a truthiness test, then
    [forEach] (or [map]) on the value, which a built-in does not have. *)
Definition relatedTasks (v : variant) (byParent : gmap string (list Ticket.t))
  (story : Ticket.t) : outcome (list (list Ticket.t)) :=
  match Obj.get byParent (Ticket.key story) with
  | Obj.Own l => Done (blocksOf v (Some l))
  | Obj.Undefined => Done (blocksOf v None)
  | Obj.Inherited => TypeError
  end.

(** The markup of one assignee, reduced to the counts it prints and to
    the tickets it lists. *)
Definition renderCard (v : variant) (bucket : Bucket.t) : outcome card :=
  byParent ← Grouper.tasksByParent (Bucket.tasks bucket);
  rel ← traverse (relatedTasks v byParent) (Bucket.userStories bucket);
  Done (mkCard (length (Bucket.userStories bucket)) (length (Bucket.tasks bucket))
          (Bucket.userStories bucket) rel (byParent !! "standalone")).

(** The lists of tasks that a card prints. *)
Definition taskLists (c : card) : list (list Ticket.t) :=
  option_list (standalone c) ++ concat (related c).

Definition renderCards (v : variant) (grouped : gmap string Bucket.t)
  : outcome (list (string * card)) :=
  traverse (fun kb => c ← renderCard v (snd kb); Done (fst kb, c)) (map_to_list grouped).

(** The sprint variant lists the stories of each assignee that has some. *)
Definition sprintCards (grouped : gmap string (gmap string Bucket.t))
  : list (string * list (string * list Ticket.t)) :=
  (fun ka =>
     (fst ka,
      List.filter (fun ks => negb (Nat.eqb (length (snd ks)) 0))
        ((fun kb => (fst kb, Bucket.userStories (snd kb))) <$> map_to_list (snd ka))))
  <$> map_to_list grouped.

Inductive sections : Type :=
| AssigneeCards (cards : list (string * card))
| SprintCards (cards : list (string * list (string * list Ticket.t))).

(** The dashboard markup, reduced to what it is computed from.
    [emptyNotice] is the "No tickets found" block of [Original]. *)
Record view : Type := mkView {
  tickets : list Ticket.t;
  stats : Stats.t;
  emptyNotice : bool;
  body : sections
}.

Definition countStories (tickets : list Ticket.t) : nat :=
  length (filter (fun t => Grouper.isStory t) tickets).

Definition countTasks (tickets : list Ticket.t) : nat :=
  length (filter (fun t => Grouper.isTask t) tickets).

(** [calculateStats] of [Original]. *)
Definition calculateStats (tickets : list Ticket.t) : Stats.t :=
  Stats.mk (length tickets) (countStories tickets) (countTasks tickets)
           (size (list_to_set (Ticket.assignee <$> tickets) : gset string)).

(** The [stats] literal of [Refactored] and [Sprint]. *)
Definition statsOf {V : Type} (tickets : list Ticket.t) (grouped : gmap string V) : Stats.t :=
  Stats.mk (length tickets) (countStories tickets) (countTasks tickets) (size grouped).

(** [renderDashboard] up to the point where the markup is complete;
    [error] is the second argument of [Original]. *)
Definition buildView (v : variant) (tickets : list Ticket.t) (error : option string)
  : outcome view :=
  match v with
  | Original =>
      grouped ← Grouper.groupTicketsByAssignee Original tickets;
      cards ← renderCards Original grouped;
      Done (mkView tickets (calculateStats tickets)
              (Nat.eqb (length tickets) 0 && negb (truthy (or_else error EmptyString)))
              (AssigneeCards cards))
  | Refactored =>
      grouped ← Grouper.groupTicketsByAssignee Refactored tickets;
      cards ← renderCards Refactored grouped;
      Done (mkView tickets (statsOf tickets grouped) false (AssigneeCards cards))
  | Sprint =>
      grouped ← Grouper.groupTicketsBySprintAndAssignee tickets;
      Done (mkView tickets (statsOf tickets grouped) false
              (SprintCards (sprintCards grouped)))
  end.

(** The markup is a string that the script builds by pasting the text
    of the tickets between its own tags and, for the links, between the
    double quotes of an [href]; nothing is escaped.  Between tags, a
    text without [<] starts no tag: pasted, it stays text.  Between
    double quotes, a text without double quote stays in its attribute. *)
Definition textOnly (s : string) : bool := negb (occurs "<" s).

Definition quoteFree (s : string) : bool := negb (occurs (ascii_of_nat 34) s).

(** The texts of a ticket that some script pastes between tags; the
    dates go through [formatDate] and the type is only tested. *)
Definition pasted (t : Ticket.t) : list string :=
  [ Ticket.assignee t; or_else (Ticket.sprint t) EmptyString; Ticket.key t;
    Ticket.status t; Ticket.priority t; Ticket.summary t; Ticket.description t ]
  ++ flat_map (fun c => [or_else (Comment.author c) EmptyString; Comment.body c])
       (Ticket.comments t).

(** A ticket that adds no element and no attribute to the markup. *)
Definition markupFree (t : Ticket.t) : bool :=
  forallb textOnly (pasted t) && quoteFree (Ticket.link t).

(** The calls of [renderDashboard] whose markup parses to the elements
    that the script writes, and to nothing else: the tickets are free of
    markup, and so is the error message that the original script pastes
    between tags as well.  Only for these does a [view] tell what the
    page holds. *)
Definition textual (v : variant) (tickets : list Ticket.t) (error : option string)
  : bool :=
  forallb markupFree tickets
  && match v with
     | Original => textOnly (or_else error EmptyString)
     | Refactored | Sprint => true
     end.

(** The tickets on which no lookup of [renderDashboard] resolves to a
    built-in: the names under which the ticket is filed, and (where the
    cards list tasks) its key, are not inherited ones. *)
Definition plainNames (v : variant) (t : Ticket.t) : bool :=
  negb (Obj.inherited (Grouper.assigneeKey v t))
  && match v with
     | Sprint => negb (Obj.inherited (Grouper.sprintKey t))
     | Original | Refactored =>
         negb (Obj.inherited (Grouper.parentOf t))
         && negb (Obj.inherited (Ticket.key t))
     end.

End Render.

(** ** The page, the console and the network *)

Module Page.

Definition popupId : string := "jira-dashboard-popup".

Inductive content : Type :=
| Loading
| Dashboard (v : Render.view)
| Foreign.

(** A child of [body], with the number of click listeners that the
    script attached to it; the page is the sequence of the children of
    [body].  A child stands for itself and for all that is inside it: an
    overlay holds the sections that the script writes into it (their ids
    start with [assignee-], [story-], [description-], [comments-] or
    [sprint-]), and [remove()] takes them along.  The elements inside a
    child are not listed.  So a page of this model is a page in which the
    id of the overlay is the id of children of [body] only: [Foreign]
    children, which are not the script's, hold no element with that id,
    and a dashboard holds none when its markup was [textual]. *)
Record element : Type := mkElement {
  elemId : string;
  shows : content;
  listeners : nat
}.

Definition hasId (id : string) (e : element) : bool := String.eqb (elemId e) id.

(** [document.getElementById(id)]: the first element with that id. *)
Definition getElementById (id : string) (page : list element) : option element :=
  List.find (hasId id) page.

(** [existing.remove()] for [existing = document.getElementById(id)]. *)
Fixpoint removeFirst (id : string) (page : list element) : list element :=
  match page with
  | [] => []
  | e :: page' => if hasId id e then page' else e :: removeFirst id page'
  end.

(** [document.body.insertAdjacentHTML('beforeend', html)] for markup made
    of one element. *)
Definition insertBeforeEnd (e : element) (page : list element) : list element :=
  page ++ [e].

(** [document.getElementById(id).addEventListener('click', ...)]. *)
Fixpoint addClickListener (id : string) (page : list element) : list element :=
  match page with
  | [] => []
  | e :: page' =>
      if hasId id e
      then mkElement (elemId e) (shows e) (S (listeners e)) :: page'
      else e :: addClickListener id page'
  end.

Definition countId (id : string) (page : list element) : nat :=
  length (List.filter (hasId id) page).

Inductive level : Type := Log | Warn | Error.

(** A console line: its level, its leading text and the message of the
    error object it prints, if any. *)
Record entry : Type := mkEntry {
  entryLevel : level;
  label : string;
  errorMessage : option string
}.

Record world : Type := mkWorld {
  page : list element;
  console : list entry;
  fetchCalls : nat;
  currentData : list Ticket.t
}.

(** A page without elements, before the first request. *)
Definition initial : world := mkWorld [] [] 0 [].

Definition logTo (e : entry) (w : world) : world :=
  mkWorld (page w) (console w ++ [e]) (fetchCalls w) (currentData w).

(** [renderDashboard(tickets, error)].  The markup is complete before the
    page is touched, so a call that raises leaves the page as it was (the
    world of such a call is not kept).  Of [currentData] the world keeps
    the tickets.  The markup is taken to parse to one child of [body],
    the overlay with its sections: this is what it does when the call is
    [Render.textual], and the statements on what the page holds after a
    call carry that hypothesis. *)
Definition renderDashboard (v : variant) (tickets : list Ticket.t)
  (error : option string) (w : world) : outcome world :=
  view ← Render.buildView v tickets error;
  let removed := removeFirst popupId (page w) in
  let inserted := insertBeforeEnd (mkElement popupId (Dashboard view) 0) removed in
  Done (mkWorld (addClickListener popupId inserted) (console w) (fetchCalls w) tickets).

(** The loading overlay: [Original] appends it, the other variants
    ([showLoading]) first remove an overlay that is already there. *)
Definition showLoading (v : variant) (w : world) : world :=
  let before :=
    match v with
    | Original => page w
    | Refactored | Sprint => removeFirst popupId (page w)
    end in
  mkWorld (insertBeforeEnd (mkElement popupId Loading 0) before)
          (console w) (fetchCalls w) (currentData w).

(** What the network does with the one request. *)
Inductive response : Type :=
| NetworkError (message : string)
| Http (status : nat) (statusText : string) (xmlDoc : Dom.node).

(** [response.ok]. *)
Definition ok (status : nat) : bool := ((200 <=? status) && (status <=? 299))%nat.

Definition httpMessage (status : nat) (statusText : string) : string :=
  "HTTP " +:+ pretty status +:+ ": " +:+ statusText.

(** The message of the [TypeError] that a render raises; its text
    depends on the browser. *)
Definition typeErrorMessage : string := "TypeError".

(** How the request of [fetchJiraData] settles: with the parsed tickets,
    or with the message of the error that rejects the promise. *)
Definition settle (v : variant) (now : string) (r : response) : string + list Ticket.t :=
  match r with
  | NetworkError message => inl message
  | Http status statusText xmlDoc =>
      if ok status
      then inr (Parser.parseJiraXML v now xmlDoc)
      else inl (httpMessage status statusText)
  end.

(** [fetchJiraData()]: one request.  [Original] logs the error before it
    rethrows it. *)
Definition fetchJiraData (v : variant) (now : string) (r : response) (w : world)
  : (string + list Ticket.t) * world :=
  let w1 := mkWorld (page w) (console w) (S (fetchCalls w)) (currentData w) in
  match settle v now r, v with
  | inl message, Original =>
      (inl message, logTo (mkEntry Error "Fetch error:" (Some message)) w1)
  | settled, _ => (settled, w1)
  end.

(** The [catch] handler of the promise chain. *)
Definition onRejected (v : variant) (message : string) (w : world) : outcome world :=
  match v with
  | Original =>
      renderDashboard v [] (Some message)
        (logTo (mkEntry Error "Error:" (Some message)) w)
  | Refactored | Sprint =>
      w' ← renderDashboard v [] None w;
      Done (logTo (mkEntry Error EmptyString (Some message)) w')
  end.

(** The [then] handler. *)
Definition onFulfilled (v : variant) (tickets : list Ticket.t) (w : world)
  : outcome world :=
  match v with
  | Original =>
      renderDashboard v tickets None (logTo (mkEntry Log "Parsed tickets:" None) w)
  | Refactored => renderDashboard v tickets None w
  | Sprint =>
      w' ← renderDashboard v tickets None w;
      Done (logTo (mkEntry Log "JIRA Dashboard rendered with" None) w')
  end.

(** The closure of [createJiraDashboard] and its promise chain, up to
    the point where the chain has settled: the loading overlay, the
    request, and [fetchJiraData().then(...).catch(...)].  A [TypeError]
    raised by the [then] handler rejects the promise that [catch]
    handles. *)
Definition run (v : variant) (now : string) (r : response) (w : world) : outcome world :=
  let '(settled, w1) := fetchJiraData v now r (showLoading v w) in
  match settled with
  | inl message => onRejected v message w1
  | inr tickets =>
      match onFulfilled v tickets w1 with
      | Done w2 => Done w2
      | TypeError =>
          onRejected v typeErrorMessage
            match v with
            | Original => logTo (mkEntry Log "Parsed tickets:" None) w1
            | Refactored | Sprint => w1
            end
      | Escapes => Escapes
      end
  end.

(** What [run] pastes into the page is text: the tickets of the feed,
    or the message of the error that the original script shows. *)
Definition pastesText (v : variant) (now : string) (r : response) : bool :=
  match settle v now r with
  | inr tickets => Render.textual v tickets None
  | inl message => Render.textual v [] (Some message)
  end.

(** How a call of [window.createJiraDashboard(config)] ends, and the
    world that the promise chain of its closure leaves once it has
    settled. *)
Inductive completion : Type := Returns | ReferenceError.

Record call : Type := mkCall {
  completes : completion;
  settled : outcome world
}.

(** [window.createJiraDashboard(config)].  The call runs the closure,
    which shows the loading overlay and sends the request; the promise
    chain settles later.  In the original script the closure is followed
    by a call of [showLoadingPopup], which no script defines: once the
    closure has returned, the call of [createJiraDashboard] raises a
    [ReferenceError] that nothing catches, and never reaches the second
    [fetchJiraData()] written after it.  The request of the closure is
    out by then, and its chain settles all the same. *)
Definition createJiraDashboard (v : variant) (now : string) (r : response) (w : world)
  : call :=
  mkCall match v with
         | Original => ReferenceError
         | Refactored | Sprint => Returns
         end
         (run v now r w).

End Page.

(** ** The helpers of the markup *)

Module Helpers.
Import Str.

Definition upper (c : ascii) : ascii :=
  let n := nat_of_ascii c in
  if ((97 <=? n) && (n <=? 122))%nat then ascii_of_nat (n - 32) else c.

(** The ASCII letters of [s] in upper case, the other bytes as they are:
    this is [s.toUpperCase()] when [s] is an ASCII text.  Outside of
    ASCII the upper case of a character can be several characters, and
    the scripts, which upper-case names only, are embedded for ASCII
    names. *)
Fixpoint toUpperCase (s : string) : string :=
  match s with
  | EmptyString => EmptyString
  | String c s' => String (upper c) (toUpperCase s')
  end.

(** [getStatusColor(s)], the same in the three scripts (the argument
    defaults to the empty string outside of the original one). *)
Definition getStatusColor (s : string) : string :=
  let status := toLowerCase s in
  if includes "done" status || includes "closed" status then "#22c55e"
  else if includes "progress" status then "#3b82f6"
  else if includes "todo" status || includes "to do" status then "#f59e0b"
  else if includes "blocked" status then "#ef4444"
  else "#6b7280".

(** [getPriorityColor(p)]; the original script has one test more. *)
Definition getPriorityColor (v : variant) (p : string) : string :=
  let priority := toLowerCase p in
  if includes "highest" priority || includes "critical" priority then "#dc2626"
  else if includes "high" priority then "#ea580c"
  else if includes "medium" priority then "#ca8a04"
  else if includes "low" priority then "#16a34a"
  else match v with
       | Original => if includes "lowest" priority then "#0891b2" else "#6b7280"
       | Refactored | Sprint => "#6b7280"
       end.

(** [s.split(sep)] for a separator of one character. *)
Fixpoint split (sep : ascii) (s : string) : list string :=
  match s with
  | EmptyString => [EmptyString]
  | String c s' =>
      if Ascii.eqb c sep then EmptyString :: split sep s'
      else match split sep s' with
           | [] => [String c EmptyString]
           | word :: words => String c word :: words
           end
  end.

(** [n[0]] as [join] prints it, for an ASCII text: its first character,
    and nothing for [undefined]. *)
Definition first (n : string) : string :=
  match n with
  | EmptyString => EmptyString
  | String c _ => String c EmptyString
  end.

(** [l.join('')]. *)
Definition join (l : list string) : string := fold_right String.append EmptyString l.

(** [s.slice(0, 2)] for an ASCII text, whose characters are its
    bytes. *)
Definition slice2 (s : string) : string :=
  match s with
  | String a (String b _) => String a (String b EmptyString)
  | _ => s
  end.

(** The texts of the ASCII range. *)
Fixpoint isAscii (s : string) : bool :=
  match s with
  | EmptyString => true
  | String c s' => (nat_of_ascii c <? 128)%nat && isAscii s'
  end.

(** [getAssigneeInitials(name)] of the original script:
    [name.split(' ').map(n => n[0]).join('').toUpperCase().slice(0, 2)],
    for an ASCII name.  The initials of another name depend on how its
    characters are counted and upper-cased, and are not embedded. *)
Definition getAssigneeInitials (name : string) : outcome string :=
  if isAscii name
  then Done (slice2 (toUpperCase (join (first <$> split " " name))))
  else Escapes.

(** The initials of the refactored script, which are computed in place:
    [assignee.split(' ').map(x=>x[0]).join('').slice(0,2).toUpperCase()]. *)
Definition assigneeInitials (assignee : string) : outcome string :=
  if isAscii assignee
  then Done (toUpperCase (slice2 (join (first <$> split " " assignee))))
  else Escapes.

End Helpers.

(** ** The sections that fold *)

Module Toggle.
Import Str.

(** An element of the page as [toggleJiraSection] sees it: its id
    ([None] without one), its inline [display], its attributes, its
    text.  The page is the sequence of the elements in document order,
    none of them inside another. *)
Record element : Type := mk {
  id : option string;
  display : string;
  attrs : list (string * string);
  textContent : string
}.

Definition getAttribute (name : string) (e : element) : option string :=
  snd <$> List.find (fun a => String.eqb (fst a) name) (attrs e).

(** [document.getElementById(sectionId)], with the place of the element:
    an empty string is the id of no element. *)
Definition getElementById (sectionId : string) (doc : list element)
  : option (nat * element) :=
  if Str.truthy sectionId
  then list_find (fun e => id e = Some sectionId) doc
  else None.

(** The identifiers that stand for themselves between the quotes of the
    selector [[data-toggle="..."]]: no quote, no backslash, no line
    break and no null character. *)
Definition plain (sectionId : string) : bool :=
  negb (occurs (ascii_of_nat 34) sectionId
        || occurs (ascii_of_nat 92) sectionId
        || occurs (ascii_of_nat 10) sectionId
        || occurs (ascii_of_nat 12) sectionId
        || occurs (ascii_of_nat 13) sectionId
        || occurs (ascii_of_nat 0) sectionId).

(** [document.querySelector(`[data-toggle="${sectionId}"]`)] for a plain
    identifier. *)
Definition queryToggle (sectionId : string) (doc : list element)
  : option (nat * element) :=
  list_find (fun e => getAttribute "data-toggle" e = Some sectionId) doc.

Definition setDisplay (d : string) (e : element) : element :=
  mk (id e) d (attrs e) (textContent e).

Definition setText (t : string) (e : element) : element :=
  mk (id e) (display e) (attrs e) t.

Definition collapsed : string := "▶".
Definition expanded : string := "▼".

(** [el.style.display !== 'none']. *)
Definition isExpanded (e : element) : bool := negb (String.eqb (display e) "none").

(** The text that the button gets. *)
Definition buttonText (v : variant) (button : element) (wasExpanded : bool) : string :=
  match v with
  | Original => if wasExpanded then collapsed else expanded
  | Refactored | Sprint =>
      if wasExpanded
      then or_else (getAttribute "data-collapsed-text" button) collapsed
      else or_else (getAttribute "data-expanded-text" button) expanded
  end.

(** [window.toggleJiraSection(sectionId)].  With an identifier that is
    not plain the selector is another one, or none, and the run leaves
    the embedding. *)
Definition toggleJiraSection (v : variant) (sectionId : string) (doc : list element)
  : outcome (list element) :=
  if plain sectionId
  then match getElementById sectionId doc, queryToggle sectionId doc with
       | Some (i, content), Some (j, button) =>
           let wasExpanded := isExpanded content in
           Done (alter (setText (buttonText v button wasExpanded)) j
                   (alter (setDisplay (if wasExpanded then "none" else "block")) i doc))
       | _, _ => Done doc
       end
  else Escapes.

End Toggle.

(** * Properties *)

(** ** The parser *)

Section ParserFacts.
Import Str Dom Parser.

Lemma or_else_truthy a d s : or_undefined a = Some s -> or_else a d = s.
Proof.
  destruct a as [x|]; simpl; [|discriminate].
  destruct (truthy x); congruence.
Qed.

Lemma or_else_default a d : or_undefined a = None -> or_else a d = d.
Proof.
  destruct a as [x|]; simpl; [|reflexivity].
  destruct (truthy x); [discriminate|reflexivity].
Qed.

Lemma or_undefined_truthy a s : or_undefined a = Some s -> truthy s = true.
Proof.
  destruct a as [x|]; simpl; [|discriminate].
  destruct (truthy x) eqn:E; [|discriminate]. congruence.
Qed.

Lemma truthy_nonempty s : truthy s = true <-> s <> EmptyString.
Proof. destruct s; simpl; split; congruence. Qed.

Lemma truthy_empty s : truthy s = false <-> s = EmptyString.
Proof. destruct s; simpl; split; congruence. Qed.

(** The key expression, case by case; the three scripts agree on it. *)
Lemma itemKey_keyed v item k :
  present "key" item k -> itemKey v item = k.
Proof.
  unfold present. intros Hk. pose proof (or_undefined_truthy _ _ Hk) as Ht.
  unfold itemKey, or_opt. rewrite Hk. destruct v; simpl; rewrite Ht; reflexivity.
Qed.

Lemma itemKey_titled v item :
  absent "key" item ->
  itemKey v item = beforeColon (or_else (text "title" item) EmptyString).
Proof.
  unfold absent. intros Hk. unfold itemKey, or_opt. rewrite Hk.
  destruct (text "title" item) as [T|]; destruct v; simpl; try reflexivity;
    destruct (truthy T) eqn:HT; simpl;
    try (apply truthy_empty in HT; subst T; reflexivity);
    destruct (truthy (beforeColon T)) eqn:HB; try reflexivity;
    apply truthy_empty in HB; congruence.
Qed.

(** The key expression is empty exactly when the [key] element is
    missing or empty and the title has nothing before its first colon. *)
Lemma itemKey_empty_iff v item :
  itemKey v item = EmptyString
  <-> absent "key" item
      /\ beforeColon (or_else (text "title" item) EmptyString) = EmptyString.
Proof.
  destruct (or_undefined (text "key" item)) as [k|] eqn:Hk.
  - rewrite (itemKey_keyed v item k Hk). unfold absent. rewrite Hk.
    apply or_undefined_truthy in Hk. apply truthy_nonempty in Hk.
    split; [contradiction|intros [H _]; discriminate].
  - rewrite (itemKey_titled v item Hk). unfold absent. rewrite Hk. tauto.
Qed.

Lemma buildTicket_key v now item : Ticket.key (buildTicket v now item) = itemKey v item.
Proof. reflexivity. Qed.

Lemma parseItem_Some v now item :
  itemKey v item <> EmptyString -> parseItem v now item = Some (buildTicket v now item).
Proof.
  intros H. unfold parseItem. rewrite buildTicket_key.
  apply truthy_nonempty in H. rewrite H. reflexivity.
Qed.

Lemma parseItem_None v now item :
  itemKey v item = EmptyString -> parseItem v now item = None.
Proof.
  intros H. unfold parseItem. rewrite buildTicket_key, H. reflexivity.
Qed.

(** The parser as a filter followed by a map, for any list of items. *)
Lemma omap_parseItem v now (items : list node) :
  omap (parseItem v now) items
  = buildTicket v now <$> filter (fun it => itemKey v it <> EmptyString) items.
Proof.
  induction items as [|it items IH]; [reflexivity|].
  rewrite filter_cons. cbn [omap list_omap].
  destruct (decide (itemKey v it <> EmptyString)) as [H|H].
  - rewrite (parseItem_Some _ _ _ H). cbn. f_equal. exact IH.
  - rewrite parseItem_None; [exact IH|].
    destruct (decide (itemKey v it = EmptyString)); [assumption|contradiction].
Qed.

Lemma beforeColon_no_colon s : afterColon s = None -> beforeColon s = s.
Proof.
  induction s as [|c s IH]; simpl; [reflexivity|].
  destruct (Ascii.eqb c ":"); [discriminate|]. intros H. f_equal. auto.
Qed.


Lemma beforeColon_colon_first s : beforeColon (String ":" s) = EmptyString.
Proof. reflexivity. Qed.

(** Records with a given key are counted by the items that yield it. *)
Lemma count_records_by_key v now (items : list node) k :
  k <> EmptyString ->
  length (filter (fun t => Ticket.key t = k) (omap (parseItem v now) items))
  = length (filter (fun it => itemKey v it = k) items).
Proof.
  intros Hk. induction items as [|it items IH]; [reflexivity|].
  cbn [omap list_omap]. rewrite (filter_cons _ it).
  destruct (decide (itemKey v it = EmptyString)) as [He|He].
  - rewrite parseItem_None by assumption.
    destruct (decide (itemKey v it = k)); [congruence|exact IH].
  - rewrite parseItem_Some by assumption. rewrite filter_cons.
    change (Ticket.key (buildTicket v now it)) with (itemKey v it).
    destruct (decide (itemKey v it = k)); cbn; [f_equal|]; exact IH.
Qed.

Lemma keys_of_records v now (items : list node) :
  Ticket.key <$> omap (parseItem v now) items
  = filter (fun k => k <> EmptyString) (itemKey v <$> items).
Proof.
  induction items as [|it items IH]; [reflexivity|].
  cbn [omap list_omap fmap list_fmap]. rewrite filter_cons.
  destruct (decide (itemKey v it <> EmptyString)) as [He|He].
  - rewrite parseItem_Some by assumption. cbn [fmap list_fmap].
    rewrite buildTicket_key. f_equal. exact IH.
  - rewrite parseItem_None; [exact IH|].
    destruct (decide (itemKey v it = EmptyString)); [assumption|contradiction].
Qed.

(** C3 (as amended): the parser produces one record per item that yields
    a non-empty key: the keys of the records are the non-empty keys of the
    items, in feed order; the records with a given key are as many as the
    items that yield it; so there is exactly one of them when a single
    item yields that key. *)
Theorem parser_one_record_per_keyed_item v now xmlDoc k :
  k <> EmptyString ->
  let items := querySelectorAll "item" xmlDoc in
  let records := parseJiraXML v now xmlDoc in
  Ticket.key <$> records = filter (fun k' => k' <> EmptyString) (itemKey v <$> items)
  /\ length (filter (fun t => Ticket.key t = k) records)
     = length (filter (fun it => itemKey v it = k) items)
  /\ (length (filter (fun it => itemKey v it = k) items) = 1 ->
      length (filter (fun t => Ticket.key t = k) records) = 1).
Proof.
  intros Hk items records. unfold records, parseJiraXML. fold items.
  pose proof (count_records_by_key v now items k Hk) as Hc.
  split; [apply keys_of_records|]. split; [exact Hc|]. intros H1. congruence.
Qed.

End ParserFacts.

Section ParserClaims.
Import Str Dom Parser.

Lemma parser_one_record_per_keyed_item_witness :
  length (filter (fun t => Ticket.key t = "PROJ-1")
            (parseJiraXML Refactored "2024-01-01T00:00:00.000Z"
               (feedOf [Elem "item" [] [textElement "key" "PROJ-1"];
                        Elem "item" [] [textElement "title" "PROJ-2: second"]]))) = 1.
Proof.
  refine (proj2 (proj2 (parser_one_record_per_keyed_item Refactored
    "2024-01-01T00:00:00.000Z"
    (feedOf [Elem "item" [] [textElement "key" "PROJ-1"];
             Elem "item" [] [textElement "title" "PROJ-2: second"]])
    "PROJ-1" _)) _).
  - discriminate.
  - vm_compute. reflexivity.
Defined.

(** C3 (as stated) fails: two items of one feed that carry the same key
    yield two records with that key. *)
Lemma parser_duplicate_keys_counterexample :
  ~ (forall v now xmlDoc item,
        item ∈ querySelectorAll "item" xmlDoc ->
        itemKey v item <> EmptyString ->
        length (filter (fun t => Ticket.key t = itemKey v item)
                  (parseJiraXML v now xmlDoc)) = 1).
Proof.
  intros H.
  specialize (H Refactored "2024-01-01T00:00:00.000Z"
                (feedOf [Elem "item" [] [textElement "key" "PROJ-1"];
                         Elem "item" [] [textElement "key" "PROJ-1"]])
                (Elem "item" [] [textElement "key" "PROJ-1"])).
  assert (Hin : Elem "item" [] [textElement "key" "PROJ-1"]
                ∈ querySelectorAll "item"
                    (feedOf [Elem "item" [] [textElement "key" "PROJ-1"];
                             Elem "item" [] [textElement "key" "PROJ-1"]])).
  { vm_compute. constructor. }
  specialize (H Hin). vm_compute in H.
  assert (Hne : "PROJ-1" <> EmptyString) by discriminate.
  specialize (H Hne). discriminate H.
Qed.

(** C4 (as stated) fails: an item without a [key] element whose title is
    not empty is left out all the same when the title starts with a
    colon, so the items left out are not only those with neither a [key]
    element nor a title text. *)
Lemma parser_keyless_counterexample :
  ~ (forall v now xmlDoc,
        parseJiraXML v now xmlDoc
        = buildTicket v now
            <$> filter (fun it => ~ (text "key" it = None
                                     /\ or_else (text "title" it) EmptyString = EmptyString))
                  (querySelectorAll "item" xmlDoc)).
Proof.
  intros H.
  specialize (H Refactored "2024-01-01T00:00:00.000Z"
                (feedOf [Elem "item" [] [textElement "summary" "neither key nor title"];
                         Elem "item" [] [textElement "title" ": untitled"]])).
  vm_compute in H. discriminate H.
Qed.

(** C4 (as amended): the parser is a total function of the document (no
    operation of its loop body raises); it returns, in feed order, the
    records of exactly the items whose key expression is not empty, so
    the items without a resolvable key are the ones left out, each of
    them alone.  These are the items whose [key] element is missing or
    empty and whose title has nothing before its first colon; an item
    with neither a [key] element nor a title, or with empty text in
    both, is among them. *)
Theorem parser_skips_keyless_items v now xmlDoc :
  let items := querySelectorAll "item" xmlDoc in
  parseJiraXML v now xmlDoc
  = buildTicket v now <$> filter (fun it => itemKey v it <> EmptyString) items
  /\ length (parseJiraXML v now xmlDoc)
     + length (filter (fun it => itemKey v it = EmptyString) items)
     = length items
  /\ (forall it,
        itemKey v it = EmptyString
        <-> absent "key" it
            /\ beforeColon (or_else (text "title" it) EmptyString) = EmptyString)
  /\ (forall it, absent "key" it ->
                 absent "title" it ->
                 itemKey v it = EmptyString /\ parseItem v now it = None).
Proof.
  intros items. unfold parseJiraXML. fold items.
  split; [apply omap_parseItem|]. split; [|split; [intros it; apply itemKey_empty_iff|]].
  - rewrite omap_parseItem, length_fmap.
    induction items as [|it l IH]; [reflexivity|].
    rewrite !filter_cons.
    destruct (decide (itemKey v it <> EmptyString)) as [H|H];
      destruct (decide (itemKey v it = EmptyString)) as [H'|H']; cbn [length];
      try contradiction; lia.
  - intros it Hk Ht.
    assert (itemKey v it = EmptyString) as He.
    { rewrite itemKey_titled by assumption.
      rewrite (or_else_default _ _ Ht). reflexivity. }
    split; [exact He|apply parseItem_None; exact He].
Qed.

Lemma parser_skips_keyless_items_witness :
  itemKey Original (Elem "item" [] [textElement "summary" "no key, no title"])
  = EmptyString
  /\ parseItem Original "2024-01-01T00:00:00.000Z"
       (Elem "item" [] [textElement "summary" "no key, no title"]) = None.
Proof.
  refine (proj2 (proj2 (proj2 (parser_skips_keyless_items Original
    "2024-01-01T00:00:00.000Z"
    (feedOf [Elem "item" [] [textElement "summary" "no key, no title"]]))))
    (Elem "item" [] [textElement "summary" "no key, no title"]) _ _);
    reflexivity.
Defined.

(** A feed with a keyless item between two keyed ones. *)
Example parser_skips_keyless_items_example :
  Ticket.key <$> parseJiraXML Original "2024-01-01T00:00:00.000Z"
    (feedOf [Elem "item" [] [textElement "key" "PROJ-1"];
             Elem "item" [] [textElement "summary" "no key, no title"];
             Elem "item" [] [textElement "title" "PROJ-3: third"]])
  = ["PROJ-1"; "PROJ-3"].
Proof. vm_compute. reflexivity. Qed.

(** C9 (as stated) fails: an item without a [key] element whose title is
    not empty but starts with a colon is dropped. *)
Lemma parser_colon_title_counterexample :
  ~ (forall v now item T,
        text "key" item = None ->
        text "title" item = Some T ->
        T <> EmptyString ->
        exists t, parseItem v now item = Some t /\ Ticket.key t = beforeColon T).
Proof.
  intros H.
  destruct (H Refactored "2024-01-01T00:00:00.000Z"
              (Elem "item" [] [textElement "title" ": untitled"]) ": untitled")
    as (t & Ht & _); try reflexivity; try discriminate.
Qed.

(** C9 (as amended): an item whose [key] element is missing or empty and
    whose title is [T] is kept exactly when the text of [T] before its
    first colon is not empty, and that text is then its key (all of [T]
    when [T] has no colon); in general an item is dropped exactly when
    its key expression is empty. *)
Theorem parser_title_fallback v now item T :
  absent "key" item ->
  text "title" item = Some T ->
  (beforeColon T <> EmptyString ->
     parseItem v now item = Some (buildTicket v now item)
     /\ Ticket.key (buildTicket v now item) = beforeColon T)
  /\ (beforeColon T = EmptyString -> parseItem v now item = None)
  /\ (afterColon T = None -> beforeColon T = T)
  /\ (forall it, parseItem v now it = None <-> itemKey v it = EmptyString).
Proof.
  intros Hk Ht.
  assert (Hkey : itemKey v item = beforeColon T).
  { rewrite itemKey_titled by assumption. rewrite Ht.
    destruct T as [|c T]; reflexivity. }
  repeat split.
  - apply parseItem_Some. congruence.
  - rewrite buildTicket_key. exact Hkey.
  - intros H. apply parseItem_None. congruence.
  - apply beforeColon_no_colon.
  - unfold parseItem. rewrite buildTicket_key.
    destruct (truthy (itemKey v it)) eqn:E; [discriminate|].
    intros _. apply truthy_empty. exact E.
  - apply parseItem_None.
Qed.

Lemma parser_title_fallback_witness :
  parseItem Original "2024-01-01T00:00:00.000Z"
    (Elem "item" [] [textElement "title" "PROJ-7: fix the feed"])
  = Some (buildTicket Original "2024-01-01T00:00:00.000Z"
            (Elem "item" [] [textElement "title" "PROJ-7: fix the feed"]))
  /\ Ticket.key (buildTicket Original "2024-01-01T00:00:00.000Z"
                   (Elem "item" [] [textElement "title" "PROJ-7: fix the feed"]))
     = "PROJ-7".
Proof.
  refine (proj1 (parser_title_fallback Original "2024-01-01T00:00:00.000Z"
    (Elem "item" [] [textElement "title" "PROJ-7: fix the feed"])
    "PROJ-7: fix the feed" _ _) _).
  - reflexivity.
  - reflexivity.
  - vm_compute. discriminate.
Defined.

(** C6 (as stated) fails: without an [assignee] element the assignee is
    the reporter when there is one, and without a [parent] element the
    parent key is [undefined], not a string. *)
Lemma ticket_defaults_counterexample :
  ~ (forall v now item,
        (text "assignee" item = None ->
         Ticket.assignee (buildTicket v now item) = "Unassigned")
        /\ (text "parent" item = None ->
            exists s, Ticket.parentKey (buildTicket v now item) = Some s)).
Proof.
  intros H.
  destruct (H Refactored "2024-01-01T00:00:00.000Z"
              (Elem "item" [] [textElement "key" "PROJ-1"; textElement "reporter" "Bob"]))
    as [Ha Hp].
  specialize (Ha eq_refl). vm_compute in Ha. discriminate Ha.
Qed.

(** C6 (as amended): in the record built for an item, a field whose
    element is missing or empty gets: ["Unknown"] for the status,
    ["Medium"] for the priority, ["Task"] for the type; for the assignee
    the text of the reporter, and ["Unassigned"] without one; for the id
    the text of the link, and the empty string without one; for the
    summary the title without its key prefix, and the empty string
    without a title; the empty string for the description and the link;
    for each of the two dates the publication date, and the current time
    without one; and no parent key at all.  A field whose element has a
    text takes that text. *)
Theorem ticket_field_defaults v now item :
  let t := buildTicket v now item in
  (absent "status" item -> Ticket.status t = "Unknown")
  /\ (absent "priority" item -> Ticket.priority t = "Medium")
  /\ (absent "type" item -> Ticket.type t = "Task")
  /\ (absent "assignee" item -> absent "reporter" item ->
      Ticket.assignee t = "Unassigned")
  /\ (forall r, absent "assignee" item -> present "reporter" item r ->
      Ticket.assignee t = r)
  /\ (absent "guid" item -> absent "link" item -> Ticket.id t = EmptyString)
  /\ (absent "summary" item -> absent "title" item ->
      Ticket.summary t = EmptyString)
  /\ (querySelector "description" item = None -> Ticket.description t = EmptyString)
  /\ (absent "link" item -> Ticket.link t = EmptyString)
  /\ (absent "created" item -> absent "pubDate" item -> Ticket.created t = now)
  /\ (absent "updated" item -> absent "pubDate" item -> Ticket.updated t = now)
  /\ (forall d, absent "created" item -> present "pubDate" item d ->
      Ticket.created t = d)
  /\ (absent "parent" item -> Ticket.parentKey t = None)
  /\ (forall d, absent "updated" item -> present "pubDate" item d ->
      Ticket.updated t = d)
  /\ (forall l, absent "guid" item -> present "link" item l -> Ticket.id t = l)
  /\ (forall T, absent "summary" item -> text "title" item = Some T ->
      Ticket.summary t = stripKeyPrefix T)
  /\ (forall s, present "status" item s -> Ticket.status t = s)
  /\ (forall s, present "priority" item s -> Ticket.priority t = s)
  /\ (forall s, present "type" item s -> Ticket.type t = s)
  /\ (forall s, present "assignee" item s -> Ticket.assignee t = s)
  /\ (forall s, present "guid" item s -> Ticket.id t = s)
  /\ (forall s, present "summary" item s -> Ticket.summary t = s)
  /\ (forall s, present "link" item s -> Ticket.link t = s)
  /\ (forall s, present "created" item s -> Ticket.created t = s)
  /\ (forall s, present "updated" item s -> Ticket.updated t = s)
  /\ (forall s, present "parent" item s -> Ticket.parentKey t = Some s)
  /\ (absent "description" item -> Ticket.description t = EmptyString).
Proof.
  cbn zeta. unfold absent, present, buildTicket, or_opt, parseDescription; cbn [Ticket.status
    Ticket.priority Ticket.type Ticket.assignee Ticket.id Ticket.summary
    Ticket.description Ticket.link Ticket.created Ticket.updated Ticket.parentKey].
  repeat split.
  - intros H. apply or_else_default. exact H.
  - intros H. apply or_else_default. exact H.
  - intros H. apply or_else_default. exact H.
  - intros H1 H2. rewrite H1. apply or_else_default. exact H2.
  - intros r H1 H2. rewrite H1. apply or_else_truthy. exact H2.
  - intros H1 H2. rewrite H1. apply or_else_default. exact H2.
  - intros H1 H2. rewrite H1.
    destruct (text "title" item) as [[|c T]|]; simpl in *; congruence.
  - intros H. rewrite H. reflexivity.
  - intros H. apply or_else_default. exact H.
  - intros H1 H2. rewrite H1. apply or_else_default. exact H2.
  - intros H1 H2. rewrite H1. apply or_else_default. exact H2.
  - intros d H1 H2. rewrite H1. apply or_else_truthy. exact H2.
  - intros H. exact H.
  - intros d H1 H2. rewrite H1. apply or_else_truthy. exact H2.
  - intros l H1 H2. rewrite H1. apply or_else_truthy. exact H2.
  - intros T H1 H2. rewrite H1, H2. cbn [fmap option_fmap option_map].
    destruct (stripKeyPrefix T); reflexivity.
  - intros s H. apply or_else_truthy. exact H.
  - intros s H. apply or_else_truthy. exact H.
  - intros s H. apply or_else_truthy. exact H.
  - intros s H. rewrite H. cbn [or_else]. rewrite (or_undefined_truthy _ _ H). reflexivity.
  - intros s H. rewrite H. cbn [or_else]. rewrite (or_undefined_truthy _ _ H). reflexivity.
  - intros s H. rewrite H. cbn [or_else]. rewrite (or_undefined_truthy _ _ H). reflexivity.
  - intros s H. apply or_else_truthy. exact H.
  - intros s H. rewrite H. cbn [or_else]. rewrite (or_undefined_truthy _ _ H). reflexivity.
  - intros s H. rewrite H. cbn [or_else]. rewrite (or_undefined_truthy _ _ H). reflexivity.
  - intros s H. exact H.
  - unfold text. destruct (querySelector "description" item) as [el|]; [|reflexivity].
    cbn [fmap option_fmap option_map or_undefined or_else].
    destruct (textContent el) as [|c T]; [reflexivity|].
    cbn. discriminate.
Qed.

Lemma ticket_field_defaults_witness :
  Ticket.status (buildTicket Sprint "2024-01-01T00:00:00.000Z"
                   (Elem "item" [] [textElement "key" "PROJ-1"])) = "Unknown".
Proof.
  refine (proj1 (ticket_field_defaults Sprint "2024-01-01T00:00:00.000Z"
                   (Elem "item" [] [textElement "key" "PROJ-1"])) _).
  reflexivity.
Defined.

(** The record of an item that has nothing but a key. *)
Example ticket_field_defaults_example :
  buildTicket Refactored "2024-01-01T00:00:00.000Z"
    (Elem "item" [] [textElement "key" "PROJ-1"])
  = Ticket.mk EmptyString "PROJ-1" EmptyString EmptyString "Task" "Unknown"
      "Unassigned" "Medium" "2024-01-01T00:00:00.000Z" "2024-01-01T00:00:00.000Z"
      None EmptyString [] None.
Proof. vm_compute. reflexivity. Qed.

End ParserClaims.

(** ** Reductions that may raise *)

Section ReduceFacts.
Context {A S : Type} (f : S -> A -> outcome S).

(** An invariant of the rounds holds of the result, when there is one. *)
Lemma reduceM_invariant (P : S -> list A -> Prop) l acc0 g :
  P acc0 [] ->
  (forall acc done t acc', P acc done -> f acc t = Done acc' -> P acc' (done ++ [t])) ->
  reduceM f l acc0 = Done g ->
  P g l.
Proof.
  intros H0 Hstep.
  enough (forall done acc, P acc done -> reduceM f l acc = Done g -> P g (done ++ l))
    as H by (apply (H [] acc0 H0)).
  induction l as [|t l IH]; intros done acc HP Hr; simpl in Hr.
  - rewrite app_nil_r. congruence.
  - destruct (f acc t) as [acc'| |] eqn:Hf; simpl in Hr; try discriminate.
    rewrite cons_middle, app_assoc. eapply IH; [|exact Hr]. eauto.
Qed.

(** The reduction returns when every round does. *)
Lemma reduceM_total (I : S -> Prop) (C : A -> Prop) l acc0 :
  (forall acc t, I acc -> C t -> exists acc', f acc t = Done acc' /\ I acc') ->
  I acc0 -> Forall C l ->
  exists g, reduceM f l acc0 = Done g /\ I g.
Proof.
  intros Hstep. revert acc0.
  induction l as [|t l IH]; intros acc0 HI HC; simpl.
  - eauto.
  - apply Forall_cons in HC as [Ht Hl].
    destruct (Hstep acc0 t HI Ht) as (acc' & -> & HI'). simpl. auto.
Qed.

(** The reduction raises as soon as a round does. *)
Lemma reduceM_raises (I : S -> Prop) (C : A -> Prop) l acc0 :
  (forall acc t, I acc -> C t -> f acc t = TypeError) ->
  (forall acc t acc', I acc -> f acc t = Done acc' -> I acc') ->
  (forall acc t, f acc t <> Escapes) ->
  I acc0 -> Exists C l ->
  reduceM f l acc0 = TypeError.
Proof.
  intros Hbad Hkeep Hesc. revert acc0.
  induction l as [|t l IH]; intros acc0 HI HC; [inversion HC|].
  simpl. destruct (f acc0 t) as [acc'| |] eqn:Hf; simpl; try reflexivity.
  - apply Exists_cons in HC as [Ht|Hl]; [rewrite Hbad in Hf by assumption; discriminate|].
    apply IH; eauto.
  - exfalso. eapply Hesc; eauto.
Qed.

End ReduceFacts.

(** ** Dictionaries *)

Section GatherFacts.
Context {V T : Type} (h : V -> list T).
Import Grouper.

Lemma gather_empty : gather h ∅ = [].
Proof. unfold gather. rewrite map_to_list_empty. reflexivity. Qed.

Lemma gather_insert_fresh (g : gmap string V) k b :
  g !! k = None -> gather h (<[k:=b]> g) ≡ₚ h b ++ gather h g.
Proof.
  intros H. unfold gather. rewrite (map_to_list_insert g k b H). reflexivity.
Qed.

Lemma gather_delete (g : gmap string V) k b :
  g !! k = Some b -> gather h g ≡ₚ h b ++ gather h (delete k g).
Proof.
  intros H. unfold gather. rewrite <- (map_to_list_delete g k b H). reflexivity.
Qed.

Lemma gather_insert_update (g : gmap string V) k b0 b :
  g !! k = Some b0 -> gather h (<[k:=b]> g) ≡ₚ h b ++ gather h (delete k g).
Proof.
  intros H. rewrite <- insert_delete_eq.
  apply gather_insert_fresh. apply lookup_delete_eq.
Qed.

(** Replacing a value moves the difference of what it holds. *)
Lemma gather_insert_grow (g : gmap string V) k b0 b extra :
  g !! k = Some b0 -> h b ≡ₚ h b0 ++ extra ->
  gather h (<[k:=b]> g) ≡ₚ gather h g ++ extra.
Proof.
  intros H Hb. rewrite (gather_insert_update g k b0 b H), (gather_delete g k b0 H), Hb.
  rewrite <- !app_assoc. apply Permutation_app_head. apply Permutation_app_comm.
Qed.

Lemma gather_lookup (g : gmap string V) k b x :
  g !! k = Some b -> x ∈ h b -> x ∈ gather h g.
Proof.
  intros H Hx. rewrite (gather_delete g k b H). apply elem_of_app. left. exact Hx.
Qed.

End GatherFacts.

Section GatherDefault.
Context {V T : Type} (h : V -> list T).
Import Grouper.

(** Filing under a key that starts from an empty default value. *)
Lemma gather_insert_default (g : gmap string V) k d b extra :
  h d = [] -> h b ≡ₚ h (default d (g !! k)) ++ extra ->
  gather h (<[k:=b]> g) ≡ₚ gather h g ++ extra.
Proof.
  intros Hd Hb. destruct (g !! k) as [b0|] eqn:Hk; simpl in Hb.
  - eapply gather_insert_grow; eauto.
  - rewrite (gather_insert_fresh h g k b Hk), Hb, Hd. simpl.
    apply Permutation_app_comm.
Qed.

End GatherDefault.

(** ** The grouper *)

Section GrouperFacts.
Import Str Grouper.

Lemma get_not_inherited {V : Type} (o : gmap string V) k :
  Obj.inherited k = false ->
  Obj.get o k = match o !! k with Some x => Obj.Own x | None => Obj.Undefined end.
Proof. intros H. unfold Obj.get. rewrite H. reflexivity. Qed.

(** A round that returns has filed the ticket under its key, in the
    bucket found there or in a new one. *)
Lemma fileByAssignee_spec v acc t acc' :
  fileByAssignee v acc t = Done acc' ->
  acc' = <[assigneeKey v t := push v t (default Bucket.empty (acc !! assigneeKey v t))]> acc.
Proof.
  unfold fileByAssignee, Obj.get.
  destruct (acc !! assigneeKey v t) as [b|]; simpl.
  - congruence.
  - destruct (Obj.inherited (assigneeKey v t)); [discriminate|congruence].
Qed.

Lemma fileByAssignee_returns v acc t :
  Obj.inherited (assigneeKey v t) = false ->
  exists acc', fileByAssignee v acc t = Done acc'.
Proof.
  intros H. unfold fileByAssignee. rewrite (get_not_inherited _ _ H).
  destruct (acc !! assigneeKey v t); eauto.
Qed.

Lemma fileByAssignee_not_Escapes v acc t : fileByAssignee v acc t <> Escapes.
Proof.
  unfold fileByAssignee. destruct (Obj.get acc (assigneeKey v t)); discriminate.
Qed.

Lemma push_userStories v t b :
  Bucket.userStories (push v t b)
  = Bucket.userStories b ++ (if isStory t then [t] else []).
Proof. unfold push. destruct (isStory t); simpl; [reflexivity|apply eq_sym, app_nil_r]. Qed.

Lemma push_tasks v t b :
  Bucket.tasks (push v t b) = Bucket.tasks b ++ (if isStory t then [] else [t]).
Proof. unfold push. destruct (isStory t); simpl; [apply eq_sym, app_nil_r|reflexivity]. Qed.

Lemma push_contents v t b : Bucket.contents (push v t b) ≡ₚ Bucket.contents b ++ [t].
Proof.
  unfold Bucket.contents. rewrite push_userStories, push_tasks.
  destruct (isStory t); rewrite ?app_nil_r.
  - rewrite <- !app_assoc. apply Permutation_app_head, Permutation_app_comm.
  - rewrite app_assoc. reflexivity.
Qed.

(** What a round adds to the tickets gathered by [h]. *)
Lemma fileByAssignee_gather (h : Bucket.t -> list Ticket.t) extra v acc t acc' :
  h Bucket.empty = [] ->
  (forall b, h (push v t b) ≡ₚ h b ++ extra) ->
  fileByAssignee v acc t = Done acc' ->
  gather h acc' ≡ₚ gather h acc ++ extra.
Proof.
  intros He Hp Hf. rewrite (fileByAssignee_spec _ _ _ _ Hf).
  eapply gather_insert_default; eauto.
Qed.

Lemma filter_snoc {A : Type} (P : A -> Prop) `{forall x, Decision (P x)} (l : list A) x :
  filter P (l ++ [x]) = filter P l ++ (if decide (P x) then [x] else []).
Proof. rewrite filter_app. f_equal. Qed.

(** The dictionary of a grouping that returns holds the tickets of the
    list, each one once: the stories in the story lists, the others in
    the task lists. *)
Lemma groupTicketsByAssignee_gathers v tickets g :
  groupTicketsByAssignee v tickets = Done g ->
  filedStories g ≡ₚ filter (fun t => isStory t) tickets
  /\ filedTasks g ≡ₚ filter (fun t => ~ isStory t) tickets
  /\ filed g ≡ₚ tickets.
Proof.
  unfold groupTicketsByAssignee. intros Hg. split; [|split].
  - revert Hg. apply (reduceM_invariant (fileByAssignee v)
      (fun acc done => filedStories acc ≡ₚ filter (fun t => isStory t) done)).
    + unfold filedStories. rewrite gather_empty. reflexivity.
    + intros acc done t acc' HP Hf. rewrite filter_snoc. unfold filedStories in *.
      rewrite (fileByAssignee_gather Bucket.userStories
                 (if isStory t then [t] else []) v acc t acc'); auto.
      * rewrite HP. destruct (isStory t); simpl; reflexivity.
      * intros b. rewrite push_userStories. reflexivity.
  - revert Hg. apply (reduceM_invariant (fileByAssignee v)
      (fun acc done => filedTasks acc ≡ₚ filter (fun t => ~ isStory t) done)).
    + unfold filedTasks. rewrite gather_empty. reflexivity.
    + intros acc done t acc' HP Hf. rewrite filter_snoc. unfold filedTasks in *.
      rewrite (fileByAssignee_gather Bucket.tasks
                 (if isStory t then [] else [t]) v acc t acc'); auto.
      * rewrite HP. destruct (isStory t); simpl; reflexivity.
      * intros b. rewrite push_tasks. reflexivity.
  - revert Hg. apply (reduceM_invariant (fileByAssignee v)
      (fun acc done => filed acc ≡ₚ done)).
    + unfold filed. rewrite gather_empty. reflexivity.
    + intros acc done t acc' HP Hf. unfold filed in *.
      rewrite (fileByAssignee_gather Bucket.contents [t] v acc t acc'); auto.
      * rewrite HP. reflexivity.
      * intros b. apply push_contents.
Qed.

End GrouperFacts.

Section GrouperBuckets.
Import Str Grouper.

Lemma ofAssignee_snoc v k done t :
  ofAssignee v k (done ++ [t])
  = ofAssignee v k done ++ (if decide (assigneeKey v t = k) then [t] else []).
Proof. exact (filter_snoc (fun t' => assigneeKey v t' = k) done t). Qed.

Lemma ofSprint_snoc s done t :
  ofSprint s (done ++ [t])
  = ofSprint s done ++ (if decide (sprintKey t = s) then [t] else []).
Proof. exact (filter_snoc (fun t' => sprintKey t' = s) done t). Qed.

(** Pushing a ticket on the bucket of [mine] gives the bucket of
    [mine ++ [t]]. *)
Lemma bucketOf_snoc v mine t :
  bucketOf v (mine ++ [t])
  = Some (push v t (default Bucket.empty (bucketOf v mine))).
Proof.
  destruct mine as [|x l].
  - simpl. unfold push, Bucket.empty. rewrite !filter_cons, !filter_nil.
    destruct (isStory t) eqn:E; simpl; destruct v; simpl; reflexivity.
  - change ((x :: l) ++ [t]) with (x :: (l ++ [t])). cbn [bucketOf default].
    change (x :: (l ++ [t])) with ((x :: l) ++ [t]).
    f_equal. unfold push. rewrite !filter_snoc.
    destruct (isStory t) eqn:E; cbn [Bucket.userStories Bucket.tasks Bucket.raw];
      destruct v; simpl; rewrite ?app_nil_r; reflexivity.
Qed.

(** The buckets of a grouping that returns are those of the
    specification. *)
Lemma groupTicketsByAssignee_buckets v tickets g :
  groupTicketsByAssignee v tickets = Done g ->
  forall k, g !! k = bucketOf v (ofAssignee v k tickets).
Proof.
  unfold groupTicketsByAssignee.
  apply (reduceM_invariant (fileByAssignee v)
    (fun acc done => forall k, acc !! k = bucketOf v (ofAssignee v k done))).
  - intros k. apply lookup_empty.
  - intros acc done t acc' HP Hf k.
    rewrite (fileByAssignee_spec _ _ _ _ Hf), ofAssignee_snoc.
    destruct (decide (assigneeKey v t = k)) as [->|Hne].
    + rewrite lookup_insert_eq, bucketOf_snoc, HP. reflexivity.
    + rewrite lookup_insert_ne by assumption. rewrite app_nil_r. apply HP.
Qed.

(** Own properties never carry an inherited name. *)
Lemma fileByAssignee_own_names v acc t acc' :
  (forall k, Obj.inherited k = true -> acc !! k = None) ->
  fileByAssignee v acc t = Done acc' ->
  forall k, Obj.inherited k = true -> acc' !! k = None.
Proof.
  intros HI Hf k Hk. pose proof (fileByAssignee_spec _ _ _ _ Hf) as ->.
  destruct (decide (assigneeKey v t = k)) as [<-|Hne].
  - exfalso. unfold fileByAssignee, Obj.get in Hf.
    rewrite (HI _ Hk), Hk in Hf. discriminate.
  - rewrite lookup_insert_ne by assumption. auto.
Qed.

Lemma fileByAssignee_raises v acc t :
  (forall k, Obj.inherited k = true -> acc !! k = None) ->
  Obj.inherited (assigneeKey v t) = true ->
  fileByAssignee v acc t = TypeError.
Proof.
  intros HI Hk. unfold fileByAssignee, Obj.get. rewrite (HI _ Hk), Hk. reflexivity.
Qed.

(** The grouping returns when no ticket is filed under an inherited
    name, and raises when one is. *)
Lemma groupTicketsByAssignee_returns v tickets :
  Forall (fun t => Obj.inherited (assigneeKey v t) = false) tickets ->
  exists g, groupTicketsByAssignee v tickets = Done g.
Proof.
  intros H.
  destruct (reduceM_total (fileByAssignee v) (fun _ => True)
              (fun t => Obj.inherited (assigneeKey v t) = false) tickets ∅)
    as (g & Hg & _); eauto.
  intros acc t _ Ht. destruct (fileByAssignee_returns v acc t Ht) as [acc' Hf]. eauto.
Qed.

Lemma groupTicketsByAssignee_raises v tickets :
  Exists (fun t => Obj.inherited (assigneeKey v t) = true) tickets ->
  groupTicketsByAssignee v tickets = TypeError.
Proof.
  intros H. unfold groupTicketsByAssignee.
  apply (reduceM_raises (fileByAssignee v)
           (fun acc => forall k, Obj.inherited k = true -> acc !! k = None)
           (fun t => Obj.inherited (assigneeKey v t) = true)); auto.
  - intros acc t HI Ht. apply fileByAssignee_raises; assumption.
  - intros acc t acc' HI Hf. eapply fileByAssignee_own_names; eauto.
  - intros acc t. apply fileByAssignee_not_Escapes.
Qed.

End GrouperBuckets.

Section SprintFacts.
Import Str Grouper.

Lemma fileBySprint_spec acc t acc' :
  fileBySprint acc t = Done acc' ->
  exists assignees',
    fileByAssignee Sprint (default ∅ (acc !! sprintKey t)) t = Done assignees'
    /\ acc' = <[sprintKey t := assignees']> acc.
Proof.
  unfold fileBySprint, Obj.get.
  destruct (acc !! sprintKey t) as [a|]; simpl.
  - destruct (fileByAssignee Sprint a t) as [a'| |]; simpl; try discriminate.
    intros [= <-]. eauto.
  - destruct (Obj.inherited (sprintKey t)); simpl; [discriminate|].
    destruct (fileByAssignee Sprint ∅ t) as [a'| |]; simpl; try discriminate.
    intros [= <-]. eauto.
Qed.

Lemma fileBySprint_returns acc t :
  Obj.inherited (sprintKey t) = false ->
  Obj.inherited (assigneeKey Sprint t) = false ->
  exists acc', fileBySprint acc t = Done acc'.
Proof.
  intros Hs Ha. unfold fileBySprint. rewrite (get_not_inherited _ _ Hs).
  destruct (acc !! sprintKey t) as [a|]; simpl.
  - destruct (fileByAssignee_returns Sprint a t Ha) as [a' ->]. simpl. eauto.
  - destruct (fileByAssignee_returns Sprint ∅ t Ha) as [a' ->]. simpl. eauto.
Qed.

(** What a round adds to the tickets gathered from the buckets by [h]. *)
Lemma fileBySprint_gather (h : Bucket.t -> list Ticket.t) extra acc t acc' :
  h Bucket.empty = [] ->
  (forall b, h (push Sprint t b) ≡ₚ h b ++ extra) ->
  fileBySprint acc t = Done acc' ->
  gather (gather h) acc' ≡ₚ gather (gather h) acc ++ extra.
Proof.
  intros He Hp Hf. destruct (fileBySprint_spec _ _ _ Hf) as (a' & Ha & ->).
  eapply (gather_insert_default (gather h) acc (sprintKey t) ∅).
  - apply gather_empty.
  - eapply fileByAssignee_gather; eauto.
Qed.

(** The sprint dictionary of a grouping that returns holds the tickets
    of the list, each one once. *)
Lemma groupTicketsBySprintAndAssignee_gathers tickets g :
  groupTicketsBySprintAndAssignee tickets = Done g ->
  gather filedStories g ≡ₚ filter (fun t => isStory t) tickets
  /\ gather filedTasks g ≡ₚ filter (fun t => ~ isStory t) tickets
  /\ filedInSprints g ≡ₚ tickets.
Proof.
  unfold groupTicketsBySprintAndAssignee. intros Hg. split; [|split].
  - revert Hg. apply (reduceM_invariant fileBySprint
      (fun acc done => gather filedStories acc ≡ₚ filter (fun t => isStory t) done)).
    + rewrite gather_empty. reflexivity.
    + intros acc done t acc' HP Hf. rewrite filter_snoc. unfold filedStories in *.
      rewrite (fileBySprint_gather Bucket.userStories
                 (if isStory t then [t] else []) acc t acc'); auto.
      * rewrite HP. destruct (isStory t); simpl; reflexivity.
      * intros b. rewrite push_userStories. reflexivity.
  - revert Hg. apply (reduceM_invariant fileBySprint
      (fun acc done => gather filedTasks acc ≡ₚ filter (fun t => ~ isStory t) done)).
    + rewrite gather_empty. reflexivity.
    + intros acc done t acc' HP Hf. rewrite filter_snoc. unfold filedTasks in *.
      rewrite (fileBySprint_gather Bucket.tasks
                 (if isStory t then [] else [t]) acc t acc'); auto.
      * rewrite HP. destruct (isStory t); simpl; reflexivity.
      * intros b. rewrite push_tasks. reflexivity.
  - revert Hg. apply (reduceM_invariant fileBySprint
      (fun acc done => filedInSprints acc ≡ₚ done)).
    + unfold filedInSprints. rewrite gather_empty. reflexivity.
    + intros acc done t acc' HP Hf. unfold filedInSprints, filed in *.
      rewrite (fileBySprint_gather Bucket.contents [t] acc t acc'); auto.
      * rewrite HP. reflexivity.
      * intros b. apply push_contents.
Qed.

(** The buckets of a sprint grouping that returns are those of the
    specification: a sprint has a dictionary when it has a ticket, and
    the dictionary files the tickets of the sprint by assignee. *)
Lemma groupTicketsBySprintAndAssignee_buckets tickets g :
  groupTicketsBySprintAndAssignee tickets = Done g ->
  forall s,
    match g !! s with
    | Some assignees =>
        ofSprint s tickets <> []
        /\ forall a, assignees !! a = bucketOf Sprint (ofAssignee Sprint a (ofSprint s tickets))
    | None => ofSprint s tickets = []
    end.
Proof.
  unfold groupTicketsBySprintAndAssignee.
  apply (reduceM_invariant fileBySprint
    (fun acc done => forall s,
       match acc !! s with
       | Some assignees =>
           ofSprint s done <> []
           /\ forall a, assignees !! a = bucketOf Sprint (ofAssignee Sprint a (ofSprint s done))
       | None => ofSprint s done = []
       end)).
  - intros s. rewrite lookup_empty. reflexivity.
  - intros acc done t acc' HP Hf s.
    destruct (fileBySprint_spec _ _ _ Hf) as (a' & Ha & ->).
    rewrite ofSprint_snoc.
    destruct (decide (sprintKey t = s)) as [<-|Hne].
    + rewrite lookup_insert_eq. split.
      { intros H. apply app_eq_nil in H as [_ H]. discriminate. }
      intros a. rewrite (fileByAssignee_spec _ _ _ _ Ha), ofAssignee_snoc.
      assert (Hin : forall a0, default ∅ (acc !! sprintKey t) !! a0
                = bucketOf Sprint (ofAssignee Sprint a0 (ofSprint (sprintKey t) done))).
      { intros a0. specialize (HP (sprintKey t)).
        destruct (acc !! sprintKey t) as [inner|]; simpl.
        - apply HP.
        - rewrite HP, lookup_empty. reflexivity. }
      destruct (decide (assigneeKey Sprint t = a)) as [<-|Hna].
      * rewrite lookup_insert_eq, bucketOf_snoc, Hin. reflexivity.
      * rewrite lookup_insert_ne by assumption. rewrite app_nil_r. apply Hin.
    + rewrite lookup_insert_ne by assumption. rewrite app_nil_r. apply HP.
Qed.

Lemma groupTicketsBySprintAndAssignee_returns tickets :
  Forall (fun t => Obj.inherited (sprintKey t) = false
                   /\ Obj.inherited (assigneeKey Sprint t) = false) tickets ->
  exists g, groupTicketsBySprintAndAssignee tickets = Done g.
Proof.
  intros H.
  destruct (reduceM_total fileBySprint (fun _ => True)
              (fun t => Obj.inherited (sprintKey t) = false
                        /\ Obj.inherited (assigneeKey Sprint t) = false) tickets ∅)
    as (g & Hg & _); eauto.
  intros acc t _ [Hs Ha]. destruct (fileBySprint_returns acc t Hs Ha) as [acc' Hf]. eauto.
Qed.

End SprintFacts.

Section ParentFacts.
Import Str Grouper.

Lemma fileByParent_spec acc t acc' :
  fileByParent acc t = Done acc' ->
  acc' = <[parentOf t := default [] (acc !! parentOf t) ++ [t]]> acc.
Proof.
  unfold fileByParent, Obj.get.
  destruct (acc !! parentOf t) as [l|]; simpl.
  - congruence.
  - destruct (Obj.inherited (parentOf t)); [discriminate|congruence].
Qed.

Lemma fileByParent_returns acc t :
  Obj.inherited (parentOf t) = false -> exists acc', fileByParent acc t = Done acc'.
Proof.
  intros H. unfold fileByParent. rewrite (get_not_inherited _ _ H).
  destruct (acc !! parentOf t); eauto.
Qed.

Lemma listOf_snoc mine t : listOf (mine ++ [t]) = Some (default [] (listOf mine) ++ [t]).
Proof. destruct mine; reflexivity. Qed.

(** The properties of [tasksByParent], when the reduction returns: the
    tasks of each parent name, in list order. *)
Lemma tasksByParent_lists tasks byParent :
  tasksByParent tasks = Done byParent ->
  forall p, byParent !! p = listOf (ofParent p tasks).
Proof.
  unfold tasksByParent.
  apply (reduceM_invariant fileByParent
    (fun acc done => forall p, acc !! p = listOf (ofParent p done))).
  - intros p. apply lookup_empty.
  - intros acc done t acc' HP Hf p.
    rewrite (fileByParent_spec _ _ _ Hf). unfold ofParent.
    rewrite (filter_snoc (fun t' => parentOf t' = p) done t).
    destruct (decide (parentOf t = p)) as [<-|Hne].
    + rewrite lookup_insert_eq, listOf_snoc, HP. reflexivity.
    + rewrite lookup_insert_ne by assumption. rewrite app_nil_r. apply HP.
Qed.

Lemma tasksByParent_returns tasks :
  Forall (fun t => Obj.inherited (parentOf t) = false) tasks ->
  exists byParent, tasksByParent tasks = Done byParent.
Proof.
  intros H.
  destruct (reduceM_total fileByParent (fun _ => True)
              (fun t => Obj.inherited (parentOf t) = false) tasks ∅)
    as (g & Hg & _); eauto.
  intros acc t _ Ht. destruct (fileByParent_returns acc t Ht) as [acc' Hf]. eauto.
Qed.

Lemma listOf_elem_of mine t : t ∈ mine -> exists l, listOf mine = Some l /\ t ∈ l.
Proof. destruct mine; [inversion 1|]. intros H. simpl. eauto. Qed.

Lemma listOf_Some mine l : listOf mine = Some l -> l = mine.
Proof. destruct mine; simpl; congruence. Qed.

End ParentFacts.

Section RenderFacts.
Import Str Grouper Render.

Lemma traverse_total {A B : Type} (f : A -> outcome B) l :
  Forall (fun x => exists y, f x = Done y) l -> exists ys, traverse f l = Done ys.
Proof.
  induction 1 as [|x l [y Hy] _ [ys Hys]]; simpl; [eauto|].
  rewrite Hy. simpl. rewrite Hys. simpl. eauto.
Qed.

Lemma relatedTasks_returns v byParent story :
  Obj.inherited (Ticket.key story) = false ->
  exists r, relatedTasks v byParent story = Done r.
Proof.
  intros H. unfold relatedTasks. rewrite (get_not_inherited _ _ H).
  destruct (byParent !! Ticket.key story); eauto.
Qed.

(** The card of a bucket is built when no task names an inherited
    property as its parent and no story has one as its key. *)
Lemma renderCard_returns v bucket :
  Forall (fun t => Obj.inherited (parentOf t) = false) (Bucket.tasks bucket) ->
  Forall (fun s => Obj.inherited (Ticket.key s) = false) (Bucket.userStories bucket) ->
  exists byParent card,
    tasksByParent (Bucket.tasks bucket) = Done byParent
    /\ renderCard v bucket = Done card
    /\ standalone card = byParent !! "standalone".
Proof.
  intros Ht Hs. destruct (tasksByParent_returns _ Ht) as [byParent Hb].
  destruct (traverse_total (relatedTasks v byParent) (Bucket.userStories bucket))
    as [rel Hrel].
  { eapply Forall_impl; [exact Hs|]. intros s. apply relatedTasks_returns. }
  exists byParent. eexists. split; [exact Hb|].
  unfold renderCard. rewrite Hb. simpl. rewrite Hrel. simpl. split; reflexivity.
Qed.

End RenderFacts.

(** ** The claims on the grouper and on the assignee cards *)

Section GrouperClaims.
Import Str Grouper Render.

(** A task with a parent key that no story of its bucket carries is
    filed under that parent key, and the bucket has no standalone list
    at all: it is not so that every task without a story of its own in
    the bucket is in the standalone list. *)
Lemma standalone_counterexample :
  ~ (forall v tickets grouped assignee bucket byParent t,
        groupTicketsByAssignee v tickets = Done grouped ->
        grouped !! assignee = Some bucket ->
        tasksByParent (Bucket.tasks bucket) = Done byParent ->
        t ∈ Bucket.tasks bucket ->
        (forall story, story ∈ Bucket.userStories bucket ->
                       Ticket.parentKey t <> Some (Ticket.key story)) ->
        exists l, byParent !! "standalone" = Some l /\ t ∈ l).
Proof.
  intros H.
  destruct (H Refactored [Ticket.sample "PROJ-2" "Task" "Alice" (Some "PROJ-9") None]
              {["Alice" := Bucket.mk []
                  [Ticket.sample "PROJ-2" "Task" "Alice" (Some "PROJ-9") None]
                  [Ticket.sample "PROJ-2" "Task" "Alice" (Some "PROJ-9") None]]}
              "Alice"
              (Bucket.mk []
                 [Ticket.sample "PROJ-2" "Task" "Alice" (Some "PROJ-9") None]
                 [Ticket.sample "PROJ-2" "Task" "Alice" (Some "PROJ-9") None])
              {["PROJ-9" := [Ticket.sample "PROJ-2" "Task" "Alice" (Some "PROJ-9") None]]}
              (Ticket.sample "PROJ-2" "Task" "Alice" (Some "PROJ-9") None))
    as (l & Hl & _).
  - vm_compute. reflexivity.
  - vm_compute. reflexivity.
  - vm_compute. reflexivity.
  - vm_compute. constructor.
  - vm_compute. intros story Hs. inversion Hs.
  - vm_compute in Hl. discriminate Hl.
Qed.

(** What the code does instead: for every bucket whose tasks name no
    inherited property as their parent and whose stories have none as
    their key, [tasksByParent] is built and the card is rendered; a task
    is in the ["standalone"] list, which the card shows under Standalone
    Tasks, exactly when its parent key is missing, empty or
    ["standalone"] itself; a task with another parent key is in the list
    of that key, whether or not a story of the bucket carries it. *)
Theorem tasks_without_parent_are_standalone v bucket :
  Forall (fun t => Obj.inherited (parentOf t) = false) (Bucket.tasks bucket) ->
  Forall (fun s => Obj.inherited (Ticket.key s) = false) (Bucket.userStories bucket) ->
  exists byParent card,
    tasksByParent (Bucket.tasks bucket) = Done byParent
    /\ renderCard v bucket = Done card
    /\ standalone card = byParent !! "standalone"
    /\ (forall t, t ∈ Bucket.tasks bucket ->
          or_undefined (Ticket.parentKey t) = None ->
          exists l, standalone card = Some l /\ t ∈ l)
    /\ (forall t p, t ∈ Bucket.tasks bucket ->
          or_undefined (Ticket.parentKey t) = Some p ->
          (exists l, byParent !! p = Some l /\ t ∈ l)
          /\ (p <> "standalone" -> forall l, standalone card = Some l -> t ∉ l)).
Proof.
  intros Ht Hs.
  destruct (renderCard_returns v bucket Ht Hs) as (byParent & card & Hb & Hc & Hst).
  exists byParent, card. repeat split; try assumption.
  - intros t Hin Hp. rewrite Hst, (tasksByParent_lists _ _ Hb).
    apply listOf_elem_of. apply list_elem_of_filter. split; [|exact Hin].
    unfold parentOf. apply or_else_default. exact Hp.
  - rewrite (tasksByParent_lists _ _ Hb).
    apply listOf_elem_of. apply list_elem_of_filter. split; [|assumption].
    unfold parentOf. apply or_else_truthy. assumption.
  - intros Hne l Hl Hin. rewrite Hst, (tasksByParent_lists _ _ Hb) in Hl.
    apply listOf_Some in Hl. subst l.
    apply list_elem_of_filter in Hin as [Hp _].
    unfold parentOf in Hp. rewrite (or_else_truthy _ _ p) in Hp by assumption.
    contradiction.
Qed.

Lemma tasks_without_parent_are_standalone_witness :
  exists byParent card,
    tasksByParent [Ticket.sample "PROJ-2" "Task" "Alice" None None;
                   Ticket.sample "PROJ-3" "Task" "Alice" (Some "PROJ-9") None]
    = Done byParent
    /\ renderCard Refactored
         (Bucket.mk [] [Ticket.sample "PROJ-2" "Task" "Alice" None None;
                        Ticket.sample "PROJ-3" "Task" "Alice" (Some "PROJ-9") None]
                    [])
       = Done card
    /\ standalone card = byParent !! "standalone".
Proof.
  destruct (tasks_without_parent_are_standalone Refactored
              (Bucket.mk [] [Ticket.sample "PROJ-2" "Task" "Alice" None None;
                             Ticket.sample "PROJ-3" "Task" "Alice" (Some "PROJ-9") None]
                         []))
    as (byParent & card & H1 & H2 & H3 & _).
  - repeat constructor.
  - constructor.
  - exists byParent, card. auto.
Defined.

(** C1 fails on the code: a task whose parent key is the key of no story
    of its bucket is not moved to the standalone list.  With a story of
    Bob and a task of Alice that names it as its parent, the card of
    Alice counts one task in its header and lists none: [tasksByParent]
    files the task under the key of the story, which no story of the
    bucket of Alice has, and the bucket has no standalone list.  The same
    holds of a task whose parent key is the key of no ticket at all. *)
Theorem orphan_task_is_counted_and_not_listed :
  groupTicketsByAssignee Refactored
    [Ticket.sample "PROJ-1" "Story" "Bob" None None;
     Ticket.sample "PROJ-2" "Task" "Alice" (Some "PROJ-1") None]
  = Done {[ "Bob" := Bucket.mk [Ticket.sample "PROJ-1" "Story" "Bob" None None] []
                       [Ticket.sample "PROJ-1" "Story" "Bob" None None];
            "Alice" := Bucket.mk []
                         [Ticket.sample "PROJ-2" "Task" "Alice" (Some "PROJ-1") None]
                         [Ticket.sample "PROJ-2" "Task" "Alice" (Some "PROJ-1") None] ]}
  /\ groupTicketsByAssignee Original
       [Ticket.sample "PROJ-1" "Story" "Bob" None None;
        Ticket.sample "PROJ-2" "Task" "Alice" (Some "PROJ-1") None]
     = Done {[ "Bob" := Bucket.mk [Ticket.sample "PROJ-1" "Story" "Bob" None None] [] [];
               "Alice" := Bucket.mk []
                            [Ticket.sample "PROJ-2" "Task" "Alice" (Some "PROJ-1") None]
                            [] ]}
  /\ tasksByParent [Ticket.sample "PROJ-2" "Task" "Alice" (Some "PROJ-1") None]
     = Done {[ "PROJ-1" := [Ticket.sample "PROJ-2" "Task" "Alice" (Some "PROJ-1") None] ]}
  /\ renderCard Refactored
       (Bucket.mk [] [Ticket.sample "PROJ-2" "Task" "Alice" (Some "PROJ-1") None]
                  [Ticket.sample "PROJ-2" "Task" "Alice" (Some "PROJ-1") None])
     = Done (mkCard 0 1 [] [] None)
  /\ renderCard Original
       (Bucket.mk [] [Ticket.sample "PROJ-2" "Task" "Alice" (Some "PROJ-1") None] [])
     = Done (mkCard 0 1 [] [] None)
  /\ taskLists (mkCard 0 1 [] [] None) = []
  /\ renderCard Refactored
       (Bucket.mk [] [Ticket.sample "PROJ-2" "Task" "Alice" (Some "PROJ-9") None]
                  [Ticket.sample "PROJ-2" "Task" "Alice" (Some "PROJ-9") None])
     = Done (mkCard 0 1 [] [] None)
  /\ renderCard Original
       (Bucket.mk [] [Ticket.sample "PROJ-2" "Task" "Alice" (Some "PROJ-9") None] [])
     = Done (mkCard 0 1 [] [] None).
Proof. repeat split; vm_compute; reflexivity. Qed.

End GrouperClaims.

Section GroupingClaims.
Import Str Grouper Render.

Lemma or_else_self s : or_else (Some s) EmptyString = s.
Proof. destruct s; reflexivity. Qed.

(** C2 fails on the code: an assignee (or a sprint) whose name is that of
    a property inherited from [Object.prototype] finds a built-in where
    the bucket should be.  The assignee groupings raise on the push, and
    the ticket is in no bucket; the sprint grouping does the same for
    such an assignee, and for such a sprint it leaves the dictionary it
    returns. *)
Theorem grouper_inherited_name_raises :
  groupTicketsByAssignee Original
    [Ticket.sample "PROJ-1" "Task" "constructor" None None] = TypeError
  /\ groupTicketsByAssignee Refactored
       [Ticket.sample "PROJ-1" "Task" "constructor" None None] = TypeError
  /\ groupTicketsBySprintAndAssignee
       [Ticket.sample "PROJ-1" "Task" "constructor" None (Some "Sprint 1")] = TypeError
  /\ groupTicketsBySprintAndAssignee
       [Ticket.sample "PROJ-1" "Task" "Alice" None (Some "constructor")] = Escapes.
Proof. repeat split; vm_compute; reflexivity. Qed.

(** What holds of the assignee groupings: on a list in which no ticket
    is filed under an inherited name, the grouping returns a dictionary
    that holds every ticket of the list once, each in the bucket of its
    assignee, the stories (type containing "story", whatever the case)
    in [userStories] and the others in [tasks]. *)
Theorem grouper_partitions_by_assignee v tickets :
  Forall (fun t => Obj.inherited (assigneeKey v t) = false) tickets ->
  exists grouped,
    groupTicketsByAssignee v tickets = Done grouped
    /\ filed grouped ≡ₚ tickets
    /\ forall k, grouped !! k = bucketOf v (ofAssignee v k tickets).
Proof.
  intros H. destruct (groupTicketsByAssignee_returns v tickets H) as [g Hg].
  exists g. split; [exact Hg|]. split.
  - apply (groupTicketsByAssignee_gathers v tickets g Hg).
  - apply groupTicketsByAssignee_buckets. exact Hg.
Qed.

(** The same for the sprint grouping, on a list in which neither a
    sprint nor an assignee is an inherited name. *)
Theorem grouper_partitions_by_sprint tickets :
  Forall (fun t => Obj.inherited (sprintKey t) = false
                   /\ Obj.inherited (assigneeKey Sprint t) = false) tickets ->
  exists grouped,
    groupTicketsBySprintAndAssignee tickets = Done grouped
    /\ filedInSprints grouped ≡ₚ tickets
    /\ forall s,
         match grouped !! s with
         | Some assignees =>
             ofSprint s tickets <> []
             /\ forall a, assignees !! a
                          = bucketOf Sprint (ofAssignee Sprint a (ofSprint s tickets))
         | None => ofSprint s tickets = []
         end.
Proof.
  intros H. destruct (groupTicketsBySprintAndAssignee_returns tickets H) as [g Hg].
  exists g. split; [exact Hg|]. split.
  - apply (groupTicketsBySprintAndAssignee_gathers tickets g Hg).
  - apply groupTicketsBySprintAndAssignee_buckets. exact Hg.
Qed.

(** The example of the specification. *)
Example grouper_example :
  groupTicketsByAssignee Refactored
    [Ticket.sample "PROJ-1" "Story" "Alice" None None;
     Ticket.sample "PROJ-2" "Task" "Alice" (Some "PROJ-1") None]
  = Done {["Alice" :=
            Bucket.mk [Ticket.sample "PROJ-1" "Story" "Alice" None None]
                      [Ticket.sample "PROJ-2" "Task" "Alice" (Some "PROJ-1") None]
                      [Ticket.sample "PROJ-1" "Story" "Alice" None None;
                       Ticket.sample "PROJ-2" "Task" "Alice" (Some "PROJ-1") None]]}.
Proof. vm_compute. reflexivity. Qed.

(** C10: the stats are filters over the ticket list, in the function
    [calculateStats] of the original script as in the [stats] literal of
    the other two, and so in every dashboard that is built: the
    [userStories] stat is the number of tickets whose type contains
    "story", the [tasks] stat the number of those whose type contains
    "task", whatever the case of the letters.  Whenever the assignee
    grouping returns, the [userStories] stat is the number of tickets in
    the [userStories] lists of the buckets, and the [tasks] lists hold
    all the other tickets; so for a ticket of type "Bug" the [tasks] stat
    is smaller than the number of tickets in the [tasks] lists, and the
    two stats do not add up to the total. *)
Theorem stats_are_independent_filters :
  (forall tickets grouped,
      groupTicketsByAssignee Original tickets = Done grouped ->
      Stats.userStories (calculateStats tickets) = length (filedStories grouped)
      /\ length (filedStories grouped) + length (filedTasks grouped)
         = Stats.totalTickets (calculateStats tickets))
  /\ (forall tickets grouped,
      groupTicketsByAssignee Refactored tickets = Done grouped ->
      Stats.userStories (statsOf tickets grouped) = length (filedStories grouped)
      /\ length (filedStories grouped) + length (filedTasks grouped)
         = Stats.totalTickets (statsOf tickets grouped))
  /\ (forall tickets,
      Stats.userStories (calculateStats tickets)
      = length (filter (fun t => includes "story" (toLowerCase (Ticket.type t))) tickets)
      /\ Stats.tasks (calculateStats tickets)
         = length (filter (fun t => includes "task" (toLowerCase (Ticket.type t))) tickets))
  /\ (exists tickets grouped,
      groupTicketsByAssignee Refactored tickets = Done grouped
      /\ Stats.tasks (statsOf tickets grouped) < length (filedTasks grouped)
      /\ Stats.userStories (statsOf tickets grouped) + Stats.tasks (statsOf tickets grouped)
         <> Stats.totalTickets (statsOf tickets grouped))
  /\ (exists tickets grouped,
      groupTicketsByAssignee Original tickets = Done grouped
      /\ Stats.tasks (calculateStats tickets) < length (filedTasks grouped)
      /\ Stats.userStories (calculateStats tickets) + Stats.tasks (calculateStats tickets)
         <> Stats.totalTickets (calculateStats tickets))
  /\ (forall (V : Type) tickets (grouped : gmap string V),
      Stats.userStories (statsOf tickets grouped)
      = length (filter (fun t => includes "story" (toLowerCase (Ticket.type t))) tickets)
      /\ Stats.tasks (statsOf tickets grouped)
         = length (filter (fun t => includes "task" (toLowerCase (Ticket.type t))) tickets)
      /\ Stats.totalTickets (statsOf tickets grouped) = length tickets)
  /\ (forall v tickets error view,
      buildView v tickets error = Done view ->
      Stats.userStories (stats view)
      = length (filter (fun t => includes "story" (toLowerCase (Ticket.type t))) tickets)
      /\ Stats.tasks (stats view)
         = length (filter (fun t => includes "task" (toLowerCase (Ticket.type t))) tickets)
      /\ Stats.totalTickets (stats view) = length tickets).
Proof.
  assert (Hcount : forall v tickets grouped,
             groupTicketsByAssignee v tickets = Done grouped ->
             countStories tickets = length (filedStories grouped)
             /\ length (filedStories grouped) + length (filedTasks grouped)
                = length tickets).
  { intros v tickets grouped Hg.
    destruct (groupTicketsByAssignee_gathers v tickets grouped Hg) as (Hs & Ht & _).
    unfold countStories. rewrite Hs, Ht. split; [reflexivity|].
    rewrite <- length_app, filter_app_complement. reflexivity. }
  assert (Hstories : forall tickets,
             countStories tickets
             = length (filter (fun t => includes "story" (toLowerCase (Ticket.type t)))
                         tickets)).
  { intros tickets. unfold countStories. f_equal. apply list_filter_iff. intros t.
    unfold isStory. rewrite or_else_self. reflexivity. }
  assert (Htasks : forall tickets,
             countTasks tickets
             = length (filter (fun t => includes "task" (toLowerCase (Ticket.type t)))
                         tickets)).
  { intros tickets. unfold countTasks. f_equal. apply list_filter_iff. intros t.
    unfold isTask. rewrite or_else_self. reflexivity. }
  split; [|split; [|split; [|split; [|split; [|split]]]]].
  - intros tickets grouped Hg. exact (Hcount _ _ _ Hg).
  - intros tickets grouped Hg. exact (Hcount _ _ _ Hg).
  - intros tickets. split; [apply Hstories|apply Htasks].
  - exists [Ticket.sample "PROJ-1" "Bug" "Alice" None None],
           {["Alice" := Bucket.mk [] [Ticket.sample "PROJ-1" "Bug" "Alice" None None]
                                  [Ticket.sample "PROJ-1" "Bug" "Alice" None None]]}.
    split; [vm_compute; reflexivity|]. split; vm_compute; [lia|discriminate].
  - exists [Ticket.sample "PROJ-1" "Bug" "Alice" None None],
           {["Alice" := Bucket.mk [] [Ticket.sample "PROJ-1" "Bug" "Alice" None None] []]}.
    split; [vm_compute; reflexivity|]. split; vm_compute; [lia|discriminate].
  - intros V tickets grouped. split; [apply Hstories|]. split; [apply Htasks|reflexivity].
  - intros v tickets error view Hv.
    assert (Hs : stats view = calculateStats tickets
                 \/ exists (V : Type) (g : gmap string V), stats view = statsOf tickets g).
    { unfold buildView in Hv. destruct v.
      - destruct (groupTicketsByAssignee Original tickets) as [g| |]; simpl in Hv;
          try discriminate.
        destruct (renderCards Original g); simpl in Hv; try discriminate.
        injection Hv as <-. left. reflexivity.
      - destruct (groupTicketsByAssignee Refactored tickets) as [g| |]; simpl in Hv;
          try discriminate.
        destruct (renderCards Refactored g); simpl in Hv; try discriminate.
        injection Hv as <-. right. eauto.
      - destruct (groupTicketsBySprintAndAssignee tickets) as [g| |]; simpl in Hv;
          try discriminate.
        injection Hv as <-. right. eauto. }
    destruct Hs as [->|(V & g & ->)];
      (split; [apply Hstories|]; split; [apply Htasks|reflexivity]).
Qed.

Lemma stats_are_independent_filters_witness :
  Stats.userStories
    (statsOf [Ticket.sample "PROJ-1" "User Story" "Alice" None None;
              Ticket.sample "PROJ-2" "Bug" "Alice" None None]
       ({["Alice" := Bucket.mk [Ticket.sample "PROJ-1" "User Story" "Alice" None None]
                               [Ticket.sample "PROJ-2" "Bug" "Alice" None None]
                               [Ticket.sample "PROJ-1" "User Story" "Alice" None None;
                                Ticket.sample "PROJ-2" "Bug" "Alice" None None]]}
        : gmap string Bucket.t))
  = length (filedStories
       {["Alice" := Bucket.mk [Ticket.sample "PROJ-1" "User Story" "Alice" None None]
                              [Ticket.sample "PROJ-2" "Bug" "Alice" None None]
                              [Ticket.sample "PROJ-1" "User Story" "Alice" None None;
                               Ticket.sample "PROJ-2" "Bug" "Alice" None None]]}).
Proof.
  refine (proj1 (proj1 (proj2 stats_are_independent_filters) _ _ _)).
  vm_compute. reflexivity.
Defined.

(** The stats of a list with a story, a task and a bug, in the three
    scripts: one story, one task, three tickets. *)
Example stats_example :
  calculateStats
    [Ticket.sample "PROJ-1" "User Story" "Alice" None None;
     Ticket.sample "PROJ-2" "Sub-task" "Alice" None None;
     Ticket.sample "PROJ-3" "Bug" "Bob" None None]
  = Stats.mk 3 1 1 2
  /\ statsOf
       [Ticket.sample "PROJ-1" "User Story" "Alice" None None;
        Ticket.sample "PROJ-2" "Sub-task" "Alice" None None;
        Ticket.sample "PROJ-3" "Bug" "Bob" None None]
       ({[ "Alice" := Bucket.empty; "Bob" := Bucket.empty ]} : gmap string Bucket.t)
     = Stats.mk 3 1 1 2.
Proof. split; vm_compute; reflexivity. Qed.

End GroupingClaims.

(** ** The overlay *)

Section PageFacts.
Import Page.

Lemma countId_app id l1 l2 : countId id (l1 ++ l2) = countId id l1 + countId id l2.
Proof. unfold countId. rewrite List.filter_app, length_app. reflexivity. Qed.

Lemma countId_removeFirst id l : countId id (removeFirst id l) = pred (countId id l).
Proof.
  unfold countId. induction l as [|e l IH]; simpl; [reflexivity|].
  destruct (hasId id e) eqn:E; simpl; [reflexivity|].
  rewrite E. exact IH.
Qed.

Lemma countId_addClickListener id id' l :
  countId id (addClickListener id' l) = countId id l.
Proof.
  unfold countId. induction l as [|e l IH]; simpl; [reflexivity|].
  destruct (hasId id' e) eqn:E; simpl.
  - unfold hasId. simpl. destruct (String.eqb (elemId e) id); reflexivity.
  - destruct (hasId id e); simpl; congruence.
Qed.

Lemma hasId_popup c n : hasId popupId (mkElement popupId c n) = true.
Proof. reflexivity. Qed.

(** Removing the first overlay and appending one leaves as many overlays
    as there were, and one when there was none. *)
Lemma countId_replace c l :
  countId popupId
    (addClickListener popupId
       (insertBeforeEnd (mkElement popupId c 0) (removeFirst popupId l)))
  = Nat.max 1 (countId popupId l).
Proof.
  unfold insertBeforeEnd.
  rewrite countId_addClickListener, countId_app, countId_removeFirst.
  change (countId popupId [mkElement popupId c 0]) with 1. lia.
Qed.

(** Without an overlay in the page, the listener goes to the one that
    was appended. *)
Lemma addClickListener_fresh e l :
  countId popupId l = 0 -> hasId popupId e = true ->
  addClickListener popupId (l ++ [e])
  = l ++ [mkElement (elemId e) (shows e) (S (listeners e))].
Proof.
  intros Hl He. induction l as [|x l IH]; simpl.
  - rewrite He. reflexivity.
  - unfold countId in Hl. simpl in Hl. destruct (hasId popupId x); [discriminate|].
    f_equal. apply IH. exact Hl.
Qed.

(** The appended overlay is the last element of the page, whatever
    element the listener went to. *)
Lemma last_addClickListener e l :
  hasId popupId e = true ->
  exists n, last (addClickListener popupId (l ++ [e]))
            = Some (mkElement (elemId e) (shows e) n).
Proof.
  intros He. induction l as [|x l [n IH]]; simpl.
  - rewrite He. eauto.
  - destruct (hasId popupId x).
    + exists (listeners e). rewrite last_cons, last_snoc. destruct e; reflexivity.
    + exists n. rewrite last_cons, IH. reflexivity.
Qed.

End PageFacts.

Section ViewFacts.
Import Str Grouper Render.

Lemma plainNames_assignee v t :
  plainNames v t = true -> Obj.inherited (assigneeKey v t) = false.
Proof.
  unfold plainNames. intros H. apply andb_true_iff in H as [H _].
  apply negb_true_iff in H. exact H.
Qed.

Lemma plainNames_card v t :
  v <> Sprint -> plainNames v t = true ->
  Obj.inherited (parentOf t) = false /\ Obj.inherited (Ticket.key t) = false.
Proof.
  unfold plainNames. intros Hv H. apply andb_true_iff in H as [_ H].
  destruct v; try contradiction;
    apply andb_true_iff in H as [H1 H2];
    apply negb_true_iff in H1; apply negb_true_iff in H2; auto.
Qed.

Lemma plainNames_sprint t :
  plainNames Sprint t = true ->
  Obj.inherited (sprintKey t) = false /\ Obj.inherited (assigneeKey Sprint t) = false.
Proof.
  unfold plainNames. intros H. apply andb_true_iff in H as [H1 H2].
  apply negb_true_iff in H1. apply negb_true_iff in H2. auto.
Qed.

(** The tickets of a bucket of the specification are tickets of the
    list. *)
Lemma bucketOf_subseteq v k tickets b :
  bucketOf v (ofAssignee v k tickets) = Some b ->
  Bucket.userStories b ⊆ tickets /\ Bucket.tasks b ⊆ tickets.
Proof.
  unfold bucketOf. destruct (ofAssignee v k tickets) as [|x l] eqn:E; [discriminate|].
  intros [= <-]. cbn [Bucket.userStories Bucket.tasks]. rewrite <- E.
  split; intros t Ht; apply list_elem_of_filter in Ht as [_ Ht];
    apply list_elem_of_filter in Ht as [_ Ht]; exact Ht.
Qed.

(** The cards of a grouping are built when the tickets have plain
    names. *)
Lemma renderCards_returns v tickets grouped :
  v <> Sprint ->
  Forall (fun t => plainNames v t) tickets ->
  groupTicketsByAssignee v tickets = Done grouped ->
  exists cards, renderCards v grouped = Done cards.
Proof.
  intros Hv Hplain Hg. unfold renderCards. apply traverse_total.
  apply Forall_forall. intros [k b] Hkb. apply elem_of_map_to_list in Hkb.
  rewrite (groupTicketsByAssignee_buckets v tickets grouped Hg k) in Hkb.
  apply bucketOf_subseteq in Hkb as [Hs Ht]. rewrite Forall_forall in Hplain.
  destruct (renderCard_returns v b) as (byParent & card & _ & Hc & _).
  - apply Forall_forall. intros t Hin.
    apply (plainNames_card v t Hv). apply Is_true_true. auto.
  - apply Forall_forall. intros t Hin.
    apply (plainNames_card v t Hv). apply Is_true_true. auto.
  - simpl. rewrite Hc. simpl. eauto.
Qed.

(** The markup is built for every list of tickets with plain names. *)
Lemma buildView_returns v tickets error :
  Forall (fun t => plainNames v t) tickets ->
  exists view, buildView v tickets error = Done view /\ Render.tickets view = tickets.
Proof.
  intros Hplain.
  assert (Ha : Forall (fun t => Obj.inherited (assigneeKey v t) = false) tickets).
  { eapply Forall_impl; [exact Hplain|]. intros t Ht.
    apply plainNames_assignee. apply Is_true_true. exact Ht. }
  destruct v; unfold buildView.
  - destruct (groupTicketsByAssignee_returns Original tickets Ha) as [g Hg].
    destruct (renderCards_returns Original tickets g ltac:(discriminate) Hplain Hg)
      as [cards Hc].
    rewrite Hg. simpl. rewrite Hc. simpl. eauto.
  - destruct (groupTicketsByAssignee_returns Refactored tickets Ha) as [g Hg].
    destruct (renderCards_returns Refactored tickets g ltac:(discriminate) Hplain Hg)
      as [cards Hc].
    rewrite Hg. simpl. rewrite Hc. simpl. eauto.
  - destruct (groupTicketsBySprintAndAssignee_returns tickets) as [g Hg].
    { eapply Forall_impl; [exact Hplain|]. intros t Ht.
      apply plainNames_sprint. apply Is_true_true. exact Ht. }
    rewrite Hg. simpl. eauto.
Qed.

(** The markup for an empty list: zero stats and no card. *)
Lemma buildView_nil v error :
  exists notice body,
    buildView v [] error = Done (mkView [] (Stats.mk 0 0 0 0) notice body)
    /\ (body = AssigneeCards [] \/ body = SprintCards []).
Proof.
  destruct v; do 2 eexists; (split; [reflexivity|]); auto.
Qed.

End ViewFacts.

(** ** The claims on the overlay and on failed requests *)

Section PageClaims.
Import Str Render Page.

(** A call that returns has replaced the first overlay by the new one;
    a call returns on tickets with plain names. *)
Lemma renderDashboard_spec v tickets error w w' :
  renderDashboard v tickets error w = Done w' ->
  exists view,
    buildView v tickets error = Done view
    /\ w' = mkWorld
              (addClickListener popupId
                 (insertBeforeEnd (mkElement popupId (Dashboard view) 0)
                    (removeFirst popupId (page w))))
              (console w) (fetchCalls w) tickets.
Proof.
  unfold renderDashboard.
  destruct (buildView v tickets error) as [view| |]; simpl; try discriminate.
  intros [= <-]. eauto.
Qed.

Lemma renderDashboard_returns v tickets error w :
  Forall (fun t => plainNames v t) tickets ->
  exists w', renderDashboard v tickets error w = Done w'.
Proof.
  intros H. destruct (buildView_returns v tickets error H) as (view & Hv & _).
  unfold renderDashboard. rewrite Hv. simpl. eauto.
Qed.

Lemma renderDashboard_count v tickets error w w' :
  renderDashboard v tickets error w = Done w' ->
  countId popupId (page w') = Nat.max 1 (countId popupId (page w)).
Proof.
  intros H. apply renderDashboard_spec in H as (view & _ & ->).
  apply countId_replace.
Qed.

Lemma getElementById_fresh l e :
  countId popupId l = 0 -> hasId popupId e = true ->
  getElementById popupId (l ++ [e]) = Some e.
Proof.
  intros Hl He. unfold getElementById, countId in *.
  induction l as [|x l IH]; simpl in *.
  - rewrite He. reflexivity.
  - destruct (hasId popupId x); [discriminate|]. auto.
Qed.





End PageClaims.

(** ** The replacements *)

Section ReplaceFacts.
Import Str.

Lemma append_assoc (a b c : string) : (a +:+ b) +:+ c = a +:+ b +:+ c.
Proof.
  induction a as [|x a IH]; [reflexivity|].
  change (String x ((a +:+ b) +:+ c) = String x (a +:+ b +:+ c)). f_equal. exact IH.
Qed.

Lemma startsWith_extend p s t : startsWith p s = true -> startsWith p (s +:+ t) = true.
Proof.
  revert s. induction p as [|a p IH]; intros s H; [destruct s; reflexivity|].
  destruct s as [|x s]; [discriminate|].
  change (Ascii.eqb a x && startsWith p (s +:+ t) = true).
  simpl in H. apply andb_true_iff in H as [-> H]. simpl. auto.
Qed.

Lemma startsWith_length p s :
  startsWith p s = true -> String.length p <= String.length s.
Proof.
  revert s. induction p as [|a p IH]; intros s H; simpl; [lia|].
  destruct s as [|x s]; [discriminate|]. simpl in *.
  apply andb_true_iff in H as [_ H]. apply IH in H. lia.
Qed.

(** A character that the pattern does not have stops every match. *)
Lemma startsWith_blocked c p s t :
  occurs c p = false -> startsWith p (s +:+ String c t) = startsWith p s.
Proof.
  revert p. induction s as [|x s IH]; intros p Hc.
  - destruct p as [|a p]; [reflexivity|].
    simpl in Hc. apply orb_false_iff in Hc as [Hc _].
    change (Ascii.eqb a c && startsWith p t = false). rewrite Hc. reflexivity.
  - destruct p as [|a p]; [reflexivity|].
    simpl in Hc. apply orb_false_iff in Hc as [_ Hc].
    change (Ascii.eqb a x && startsWith p (s +:+ String c t)
            = Ascii.eqb a x && startsWith p s).
    rewrite IH by assumption. reflexivity.
Qed.

(** No match starts before a character that occurs in the pattern at
    its head only, and ends after it. *)
Lemma startsWith_straddle c p0 p' x s t :
  occurs c p' = false ->
  startsWith (String p0 p') (String x s +:+ String c t)
  = startsWith (String p0 p') (String x s).
Proof.
  intros Hc.
  change (Ascii.eqb p0 x && startsWith p' (s +:+ String c t)
          = Ascii.eqb p0 x && startsWith p' s).
  rewrite startsWith_blocked by assumption. reflexivity.
Qed.

Lemma replaceFrom_app c p0 p' r a k t :
  occurs c p' = false ->
  k <= String.length a ->
  replaceFrom (String p0 p') r k (a +:+ String c t)
  = replaceFrom (String p0 p') r k a +:+ replaceFrom (String p0 p') r 0 (String c t).
Proof.
  intros Hc. revert k. induction a as [|x a IH]; intros k Hk.
  - simpl in Hk. assert (k = 0) as -> by lia. reflexivity.
  - change (String x a +:+ String c t) with (String x (a +:+ String c t)).
    destruct k as [|k].
    + cbn [replaceFrom].
      change (String x (a +:+ String c t)) with (String x a +:+ String c t).
      rewrite startsWith_straddle by assumption.
      destruct (startsWith (String p0 p') (String x a)) eqn:E.
      * apply startsWith_length in E. simpl in E.
        rewrite IH by (simpl; lia). rewrite append_assoc. reflexivity.
      * rewrite IH by lia. reflexivity.
    + cbn [replaceFrom]. apply IH. simpl in Hk. lia.
Qed.

(** The replacement works on both sides of such a character apart. *)
Lemma replaceAll_middle p0 p' r c m a b :
  occurs c p' = false ->
  replaceAll (String p0 p') r (a +:+ String c m +:+ b)
  = replaceAll (String p0 p') r a +:+ replaceAll (String p0 p') r (String c m +:+ b).
Proof.
  intros Hc. unfold replaceAll.
  change (String c m +:+ b) with (String c (m +:+ b)).
  apply replaceFrom_app; [assumption|lia].
Qed.

(** A replacement does not make a text start with [q] when neither the
    head of the pattern nor the replacing character occurs in [q]. *)
Lemma startsWith_replaceAll q p0 p' rc b :
  occurs p0 q = false -> occurs rc q = false ->
  startsWith q (replaceAll (String p0 p') (String rc EmptyString) b) = startsWith q b.
Proof.
  unfold replaceAll. revert b. induction q as [|y q IH]; intros b Hp Hr.
  - destruct b; [reflexivity|]. cbn [replaceFrom].
    destruct (startsWith (String p0 p') (String a b)); reflexivity.
  - simpl in Hp, Hr. apply orb_false_iff in Hp as [Hp Hp'].
    apply orb_false_iff in Hr as [Hr Hr'].
    destruct b as [|x b]; [reflexivity|]. cbn [replaceFrom].
    destruct (startsWith (String p0 p') (String x b)) eqn:E.
    + simpl in E. apply andb_true_iff in E as [E _].
      apply Ascii.eqb_eq in E. subst x.
      change (Ascii.eqb y rc && startsWith q (replaceFrom (String p0 p')
                (String rc EmptyString) (String.length (String p0 p') - 1) b)
              = Ascii.eqb y p0 && startsWith q b).
      rewrite Hp, Hr. reflexivity.
    + change (Ascii.eqb y x && startsWith q (replaceFrom (String p0 p')
                (String rc EmptyString) 0 b)
              = Ascii.eqb y x && startsWith q b).
      rewrite IH by assumption. reflexivity.
Qed.

End ReplaceFacts.

(** ** The claim on the entities *)

Section EntityClaims.
Import Str Dom Parser.

(** The description and the comment bodies are the trimmed decoding of
    the text of their elements. *)
Lemma parseDescription_decodes item el :
  querySelector "description" item = Some el ->
  parseDescription item = trim (decodeEntities (textContent el)).
Proof.
  intros H. unfold parseDescription. rewrite H. cbn beta iota.
  rewrite or_else_self. reflexivity.
Qed.

Lemma parseComment_decodes v c :
  Comment.body (parseComment v c) = trim (decodeEntities (textContent c)).
Proof. unfold parseComment. rewrite or_else_self. destruct v; reflexivity. Qed.

(** What holds of the chain of replacements: wherever they occur in a
    text, [&lt;], [&gt;] and [&quot;] are decoded, and the text on both
    sides is decoded on its own; so is [&amp;], unless the text that
    follows it starts with [quot;]; then the ampersand that it decodes to
    is read again, as the head of a [&quot;]. *)
Theorem decodeEntities_in_context a b :
  decodeEntities (a +:+ "&lt;" +:+ b) = decodeEntities a +:+ "<" +:+ decodeEntities b
  /\ decodeEntities (a +:+ "&gt;" +:+ b) = decodeEntities a +:+ ">" +:+ decodeEntities b
  /\ decodeEntities (a +:+ "&quot;" +:+ b)
     = decodeEntities a +:+ dquote +:+ decodeEntities b
  /\ (startsWith "quot;" b = false ->
      decodeEntities (a +:+ "&amp;" +:+ b) = decodeEntities a +:+ "&" +:+ decodeEntities b)
  /\ decodeEntities (a +:+ "&amp;quot;" +:+ b)
     = decodeEntities a +:+ dquote +:+ decodeEntities b.
Proof.
  unfold decodeEntities, dquote.
  split; [|split; [|split; [|split]]].
  - rewrite (replaceAll_middle "&" "lt;" "<" "&" "lt;" a b eq_refl).
    change (replaceAll "&lt;" "<" ("&lt;" +:+ b)) with ("<" +:+ replaceAll "&lt;" "<" b).
    set (a1 := replaceAll "&lt;" "<" a). set (b1 := replaceAll "&lt;" "<" b).
    rewrite (replaceAll_middle "&" "gt;" ">" "<" EmptyString a1 b1 eq_refl).
    change (replaceAll "&gt;" ">" ("<" +:+ b1)) with ("<" +:+ replaceAll "&gt;" ">" b1).
    set (a2 := replaceAll "&gt;" ">" a1). set (b2 := replaceAll "&gt;" ">" b1).
    rewrite (replaceAll_middle "&" "amp;" "&" "<" EmptyString a2 b2 eq_refl).
    change (replaceAll "&amp;" "&" ("<" +:+ b2)) with ("<" +:+ replaceAll "&amp;" "&" b2).
    set (a3 := replaceAll "&amp;" "&" a2). set (b3 := replaceAll "&amp;" "&" b2).
    rewrite (replaceAll_middle "&" "quot;" _ "<" EmptyString a3 b3 eq_refl).
    reflexivity.
  - rewrite (replaceAll_middle "&" "lt;" "<" "&" "gt;" a b eq_refl).
    change (replaceAll "&lt;" "<" ("&gt;" +:+ b)) with ("&gt;" +:+ replaceAll "&lt;" "<" b).
    set (a1 := replaceAll "&lt;" "<" a). set (b1 := replaceAll "&lt;" "<" b).
    rewrite (replaceAll_middle "&" "gt;" ">" "&" "gt;" a1 b1 eq_refl).
    change (replaceAll "&gt;" ">" ("&gt;" +:+ b1)) with (">" +:+ replaceAll "&gt;" ">" b1).
    set (a2 := replaceAll "&gt;" ">" a1). set (b2 := replaceAll "&gt;" ">" b1).
    rewrite (replaceAll_middle "&" "amp;" "&" ">" EmptyString a2 b2 eq_refl).
    change (replaceAll "&amp;" "&" (">" +:+ b2)) with (">" +:+ replaceAll "&amp;" "&" b2).
    set (a3 := replaceAll "&amp;" "&" a2). set (b3 := replaceAll "&amp;" "&" b2).
    rewrite (replaceAll_middle "&" "quot;" _ ">" EmptyString a3 b3 eq_refl).
    reflexivity.
  - rewrite (replaceAll_middle "&" "lt;" "<" "&" "quot;" a b eq_refl).
    change (replaceAll "&lt;" "<" ("&quot;" +:+ b))
      with ("&quot;" +:+ replaceAll "&lt;" "<" b).
    set (a1 := replaceAll "&lt;" "<" a). set (b1 := replaceAll "&lt;" "<" b).
    rewrite (replaceAll_middle "&" "gt;" ">" "&" "quot;" a1 b1 eq_refl).
    change (replaceAll "&gt;" ">" ("&quot;" +:+ b1))
      with ("&quot;" +:+ replaceAll "&gt;" ">" b1).
    set (a2 := replaceAll "&gt;" ">" a1). set (b2 := replaceAll "&gt;" ">" b1).
    rewrite (replaceAll_middle "&" "amp;" "&" "&" "quot;" a2 b2 eq_refl).
    change (replaceAll "&amp;" "&" ("&quot;" +:+ b2))
      with ("&quot;" +:+ replaceAll "&amp;" "&" b2).
    set (a3 := replaceAll "&amp;" "&" a2). set (b3 := replaceAll "&amp;" "&" b2).
    rewrite (replaceAll_middle "&" "quot;" _ "&" "quot;" a3 b3 eq_refl).
    reflexivity.
  - intros Hq.
    rewrite (replaceAll_middle "&" "lt;" "<" "&" "amp;" a b eq_refl).
    change (replaceAll "&lt;" "<" ("&amp;" +:+ b))
      with ("&amp;" +:+ replaceAll "&lt;" "<" b).
    rewrite <- (startsWith_replaceAll "quot;" "&" "lt;" "<" b eq_refl eq_refl) in Hq.
    set (a1 := replaceAll "&lt;" "<" a). set (b1 := replaceAll "&lt;" "<" b) in *.
    rewrite (replaceAll_middle "&" "gt;" ">" "&" "amp;" a1 b1 eq_refl).
    change (replaceAll "&gt;" ">" ("&amp;" +:+ b1))
      with ("&amp;" +:+ replaceAll "&gt;" ">" b1).
    rewrite <- (startsWith_replaceAll "quot;" "&" "gt;" ">" b1 eq_refl eq_refl) in Hq.
    set (a2 := replaceAll "&gt;" ">" a1). set (b2 := replaceAll "&gt;" ">" b1) in *.
    rewrite (replaceAll_middle "&" "amp;" "&" "&" "amp;" a2 b2 eq_refl).
    change (replaceAll "&amp;" "&" ("&amp;" +:+ b2))
      with ("&" +:+ replaceAll "&amp;" "&" b2).
    rewrite <- (startsWith_replaceAll "quot;" "&" "amp;" "&" b2 eq_refl eq_refl) in Hq.
    set (a3 := replaceAll "&amp;" "&" a2). set (b3 := replaceAll "&amp;" "&" b2) in *.
    rewrite (replaceAll_middle "&" "quot;" _ "&" EmptyString a3 b3 eq_refl).
    change (replaceAll "&quot;" (String (ascii_of_nat 34) EmptyString) ("&" +:+ b3))
      with (if startsWith "quot;" b3
            then String (ascii_of_nat 34) EmptyString
                 +:+ replaceFrom "&quot;" (String (ascii_of_nat 34) EmptyString) 5 b3
            else String "&" (replaceFrom "&quot;" (String (ascii_of_nat 34) EmptyString) 0 b3)).
    rewrite Hq. reflexivity.
  - rewrite (replaceAll_middle "&" "lt;" "<" "&" "amp;quot;" a b eq_refl).
    change (replaceAll "&lt;" "<" ("&amp;quot;" +:+ b))
      with ("&amp;quot;" +:+ replaceAll "&lt;" "<" b).
    set (a1 := replaceAll "&lt;" "<" a). set (b1 := replaceAll "&lt;" "<" b).
    rewrite (replaceAll_middle "&" "gt;" ">" "&" "amp;quot;" a1 b1 eq_refl).
    change (replaceAll "&gt;" ">" ("&amp;quot;" +:+ b1))
      with ("&amp;quot;" +:+ replaceAll "&gt;" ">" b1).
    set (a2 := replaceAll "&gt;" ">" a1). set (b2 := replaceAll "&gt;" ">" b1).
    rewrite (replaceAll_middle "&" "amp;" "&" "&" "amp;quot;" a2 b2 eq_refl).
    change (replaceAll "&amp;" "&" ("&amp;quot;" +:+ b2))
      with ("&quot;" +:+ replaceAll "&amp;" "&" b2).
    set (a3 := replaceAll "&amp;" "&" a2). set (b3 := replaceAll "&amp;" "&" b2).
    rewrite (replaceAll_middle "&" "quot;" _ "&" "quot;" a3 b3 eq_refl).
    reflexivity.
Qed.

Lemma decodeEntities_in_context_witness :
  decodeEntities ("Tom " +:+ "&amp;" +:+ " Jerry")
  = decodeEntities "Tom " +:+ "&" +:+ decodeEntities " Jerry".
Proof.
  refine (proj1 (proj2 (proj2 (proj2 (decodeEntities_in_context "Tom " " Jerry")))) _).
  reflexivity.
Defined.

(** C5 fails on the code: [&amp;] is replaced before [&quot;], so in the
    text [&amp;quot;], where the only entity is [&amp;], the description
    and the comment body are a double quote, not [&quot;]. *)
Theorem decode_double_unescape v now :
  decodeEntities "&amp;quot;" = dquote
  /\ Ticket.description
       (buildTicket v now
          (Elem "item" [] [textElement "key" "PROJ-1";
                           textElement "description" "&amp;quot;"]))
     = dquote
  /\ Comment.body <$>
       Ticket.comments
         (buildTicket v now
            (Elem "item" []
               [textElement "key" "PROJ-1";
                Elem "comments" [] [textElement "comment" "&amp;quot;"]]))
     = [dquote]
  /\ dquote <> "&quot;".
Proof.
  split; [vm_compute; reflexivity|].
  split; [vm_compute; reflexivity|].
  split; [destruct v; vm_compute; reflexivity|].
  vm_compute. discriminate.
Qed.

(** The entities of a description, decoded. *)
Example decode_example :
  decodeEntities "&lt;b&gt;Tom &amp; Jerry&lt;/b&gt; said &quot;hi&quot;"
  = "<b>Tom & Jerry</b> said " +:+ dquote +:+ "hi" +:+ dquote.
Proof. vm_compute. reflexivity. Qed.

End EntityClaims.

Section RunExamples.
Import Str Dom Render Page.


(** In the original script the dashboard of a failed request leaves out
    the "No tickets found" block as soon as the error has a message. *)
Lemma original_failure_hides_notice message :
  buildView Original [] (Some message)
  = Done (mkView [] (Stats.mk 0 0 0 0) (negb (truthy message)) (AssigneeCards [])).
Proof. destruct message; reflexivity. Qed.

(** A run of the refactored script on a failed request, from an empty
    page: one overlay, the empty dashboard, and one console line. *)
Example failed_run_example :
  run Refactored "2024-01-01T00:00:00.000Z" (NetworkError "Failed to fetch") initial
  = Done (mkWorld
            [mkElement popupId
               (Dashboard (mkView [] (Stats.mk 0 0 0 0) false (AssigneeCards []))) 1]
            [mkEntry Error EmptyString (Some "Failed to fetch")]
            1 []).
Proof. vm_compute. reflexivity. Qed.

(** A feed whose only ticket is assigned to ["constructor"]: the request
    succeeds, the grouping raises in the [then] handler, and the run ends
    like a failed one, with the dashboard of no ticket. *)
Example inherited_assignee_run_example :
  run Refactored "2024-01-01T00:00:00.000Z"
    (Http 200 "OK"
       (feedOf [Elem "item" [] [textElement "key" "PROJ-1";
                                textElement "assignee" "constructor"]]))
    initial
  = Done (mkWorld
            [mkElement popupId
               (Dashboard (mkView [] (Stats.mk 0 0 0 0) false (AssigneeCards []))) 1]
            [mkEntry Error EmptyString (Some typeErrorMessage)]
            1 []).
Proof. vm_compute. reflexivity. Qed.

End RunExamples.

(** * Further properties of the code *)

(** ** What the parser hands on *)

Section ParserOutput.
Import Str Dom Parser.

Lemma or_else_nonempty a d : d <> EmptyString -> or_else a d <> EmptyString.
Proof.
  intros Hd. destruct a as [s|]; simpl; [|exact Hd].
  destruct (truthy s) eqn:E; [|exact Hd]. apply truthy_nonempty. exact E.
Qed.

Lemma or_else_Some s d : s <> EmptyString -> or_else (Some s) d = s.
Proof. destruct s; [contradiction|reflexivity]. Qed.

Lemma or_undefined_nonempty a : or_undefined a <> Some EmptyString.
Proof.
  destruct a as [s|]; simpl; [|discriminate].
  destruct s; simpl; discriminate.
Qed.

Lemma sprintStep_nonempty sprint cf :
  sprint <> EmptyString -> sprintStep sprint cf <> EmptyString.
Proof.
  intros H. unfold sprintStep.
  destruct (String.eqb _ "Sprint"); [|exact H].
  destruct (or_undefined (text "customfieldvalue" cf)) as [val|] eqn:E; [|exact H].
  apply or_undefined_truthy in E. apply truthy_nonempty. exact E.
Qed.

Lemma parseSprint_nonempty item : parseSprint item <> EmptyString.
Proof.
  unfold parseSprint.
  assert (H : "No Sprint" <> EmptyString) by discriminate.
  revert H. generalize "No Sprint".
  induction (querySelectorAll "customfield" item) as [|cf l IH]; intros s Hs; simpl.
  - exact Hs.
  - apply IH. apply sprintStep_nonempty. exact Hs.
Qed.

Lemma elem_of_parseJiraXML v now xmlDoc t :
  t ∈ parseJiraXML v now xmlDoc <->
  exists item, item ∈ querySelectorAll "item" xmlDoc
               /\ itemKey v item <> EmptyString
               /\ t = buildTicket v now item.
Proof.
  unfold parseJiraXML. rewrite omap_parseItem, list_elem_of_fmap.
  split.
  - intros (item & -> & Hin). apply list_elem_of_filter in Hin as [Hk Hin]. eauto.
  - intros (item & Hin & Hk & ->). exists item. split; [reflexivity|].
    apply list_elem_of_filter. auto.
Qed.

(** Every record that the parser returns has a key, a type, a status, an
    assignee and a priority that are not empty, and a parent key that is
    missing rather than empty; in the sprint script it has a sprint that
    is not empty, in the other two it has none.  So the fallbacks of the
    groupers ([t.assignee || 'Unassigned'], [t.sprint || 'No Sprint'],
    [t.type || '']) never apply to a parsed ticket. *)
Theorem parsed_tickets_have_text v now xmlDoc t :
  t ∈ parseJiraXML v now xmlDoc ->
  Ticket.key t <> EmptyString
  /\ Ticket.type t <> EmptyString
  /\ Ticket.status t <> EmptyString
  /\ Ticket.assignee t <> EmptyString
  /\ Ticket.priority t <> EmptyString
  /\ Ticket.parentKey t <> Some EmptyString
  /\ match v with
     | Sprint => exists s, Ticket.sprint t = Some s /\ s <> EmptyString
                           /\ Grouper.sprintKey t = s
     | Original | Refactored => Ticket.sprint t = None
     end
  /\ Grouper.assigneeKey v t = Ticket.assignee t.
Proof.
  intros Hin. apply elem_of_parseJiraXML in Hin as (item & _ & Hk & ->).
  assert (Ha : Ticket.assignee (buildTicket v now item) <> EmptyString).
  { apply or_else_nonempty. discriminate. }
  split; [exact Hk|]. split; [apply or_else_nonempty; discriminate|].
  split; [apply or_else_nonempty; discriminate|]. split; [exact Ha|].
  split; [apply or_else_nonempty; discriminate|].
  split; [apply or_undefined_nonempty|]. split.
  - destruct v; try reflexivity.
    exists (parseSprint item). split; [reflexivity|].
    pose proof (parseSprint_nonempty item) as Hs. split; [exact Hs|].
    unfold Grouper.sprintKey. cbn [Ticket.sprint buildTicket].
    apply or_else_Some. exact Hs.
  - unfold Grouper.assigneeKey. destruct v; try reflexivity;
      apply or_else_Some; exact Ha.
Qed.

Lemma parsed_tickets_have_text_witness :
  Grouper.assigneeKey Sprint
    (buildTicket Sprint "2024-01-01T00:00:00.000Z"
       (Elem "item" [] [textElement "key" "PROJ-1"; textElement "assignee" EmptyString]))
  = Ticket.assignee
      (buildTicket Sprint "2024-01-01T00:00:00.000Z"
         (Elem "item" [] [textElement "key" "PROJ-1"; textElement "assignee" EmptyString])).
Proof.
  refine (proj2 (proj2 (proj2 (proj2 (proj2 (proj2 (proj2
    (parsed_tickets_have_text Sprint "2024-01-01T00:00:00.000Z"
       (feedOf [Elem "item" []
                  [textElement "key" "PROJ-1"; textElement "assignee" EmptyString]])
       _ _)))))))).
  vm_compute. constructor.
Defined.

End ParserOutput.

(** ** White space *)

Section SpaceFacts.
Import Str.

Lemma trimStart_unfold s :
  trimStart s
  = match spaceLen s with
    | 0 => s
    | 1 => match s with String _ s1 => trimStart s1 | _ => s end
    | 2 => match s with String _ (String _ s2) => trimStart s2 | _ => s end
    | _ => match s with String _ (String _ (String _ s3)) => trimStart s3 | _ => s end
    end.
Proof.
  destruct s as [|c1 [|c2 [|c3 s3]]]; cbn [trimStart spaceLen]; try reflexivity.
  - destruct (isSpace c1); reflexivity.
  - destruct (isSpace c1); [reflexivity|]. destruct (isSpace2 c1 c2); reflexivity.
  - destruct (isSpace c1); [reflexivity|]. destruct (isSpace2 c1 c2); [reflexivity|].
    destruct (isSpace3 c1 c2 c3); reflexivity.
Qed.

(** Induction along the characters that [trimStart] drops. *)
Lemma trimStart_ind (P : string -> Prop) :
  (forall s, spaceLen s = 0 -> P s) ->
  (forall c1 s1, isSpace c1 = true -> P s1 -> P (String c1 s1)) ->
  (forall c1 c2 s2, isSpace c1 = false -> isSpace2 c1 c2 = true ->
                    P s2 -> P (String c1 (String c2 s2))) ->
  (forall c1 c2 c3 s3, isSpace c1 = false -> isSpace2 c1 c2 = false ->
                       isSpace3 c1 c2 c3 = true ->
                       P s3 -> P (String c1 (String c2 (String c3 s3)))) ->
  forall s, P s.
Proof.
  intros H0 H1 H2 H3.
  assert (H : forall n s, String.length s <= n -> P s).
  { induction n as [|n IH]; intros s Hn.
    - destruct s; [|simpl in Hn; lia]. apply H0. reflexivity.
    - destruct s as [|c1 s1]; [apply H0; reflexivity|]. simpl in Hn.
      destruct (isSpace c1) eqn:E1; [apply H1; [exact E1|apply IH; lia]|].
      destruct s1 as [|c2 s2]; [apply H0; cbn; rewrite E1; reflexivity|]. simpl in Hn.
      destruct (isSpace2 c1 c2) eqn:E2; [apply H2; [exact E1|exact E2|apply IH; lia]|].
      destruct s2 as [|c3 s3]; [apply H0; cbn; rewrite E1, E2; reflexivity|]. simpl in Hn.
      destruct (isSpace3 c1 c2 c3) eqn:E3;
        [apply H3; [exact E1|exact E2|exact E3|apply IH; lia]|].
      apply H0. cbn. rewrite E1, E2, E3. reflexivity. }
  intros s. apply (H (String.length s)). lia.
Qed.

Lemma trimStart_fixed s : spaceLen s = 0 -> trimStart s = s.
Proof. intros H. rewrite trimStart_unfold, H. reflexivity. Qed.

Lemma trimStart_space1 c1 s1 :
  isSpace c1 = true -> trimStart (String c1 s1) = trimStart s1.
Proof. intros H. cbn [trimStart]. rewrite H. reflexivity. Qed.

Lemma trimStart_space2 c1 c2 s2 :
  isSpace c1 = false -> isSpace2 c1 c2 = true ->
  trimStart (String c1 (String c2 s2)) = trimStart s2.
Proof. intros H1 H2. cbn [trimStart]. rewrite H1, H2. reflexivity. Qed.

Lemma trimStart_space3 c1 c2 c3 s3 :
  isSpace c1 = false -> isSpace2 c1 c2 = false -> isSpace3 c1 c2 c3 = true ->
  trimStart (String c1 (String c2 (String c3 s3))) = trimStart s3.
Proof. intros H1 H2 H3. cbn [trimStart]. rewrite H1, H2, H3. reflexivity. Qed.

Lemma trimStart_length s : String.length (trimStart s) <= String.length s.
Proof.
  induction s as [s H|c1 s1 H IH|c1 c2 s2 H1 H2 IH|c1 c2 c3 s3 H1 H2 H3 IH]
    using trimStart_ind.
  - rewrite trimStart_fixed by exact H. lia.
  - rewrite trimStart_space1 by exact H. simpl. lia.
  - rewrite trimStart_space2 by assumption. simpl. lia.
  - rewrite trimStart_space3 by assumption. simpl. lia.
Qed.

(** What [trimStart] returns starts with no white space. *)
Lemma trimStart_head s : spaceLen (trimStart s) = 0.
Proof.
  induction s as [s H|c1 s1 H IH|c1 c2 s2 H1 H2 IH|c1 c2 c3 s3 H1 H2 H3 IH]
    using trimStart_ind.
  - rewrite trimStart_fixed by exact H. exact H.
  - rewrite trimStart_space1 by exact H. exact IH.
  - rewrite trimStart_space2 by assumption. exact IH.
  - rewrite trimStart_space3 by assumption. exact IH.
Qed.

Lemma trimStart_idempotent s : trimStart (trimStart s) = trimStart s.
Proof. apply trimStart_fixed, trimStart_head. Qed.

(** A text that [trimStart] keeps starts with no white space, and
    conversely. *)
Lemma trimStart_keeps s : trimStart s = s <-> spaceLen s = 0.
Proof.
  split; [|apply trimStart_fixed].
  intros H. rewrite <- H. apply trimStart_head.
Qed.

(** White space in front of a text goes, and nothing else. *)
Lemma trimStart_app ws rest :
  trimStart ws = EmptyString -> trimStart (ws +:+ rest) = trimStart rest.
Proof.
  induction ws as [s H|c1 s1 H IH|c1 c2 s2 H1 H2 IH|c1 c2 c3 s3 H1 H2 H3 IH]
    using trimStart_ind; intros Hws.
  - rewrite trimStart_fixed in Hws by exact H. subst s. reflexivity.
  - rewrite trimStart_space1 in Hws by exact H.
    change (String c1 s1 +:+ rest) with (String c1 (s1 +:+ rest)).
    rewrite trimStart_space1 by exact H. auto.
  - rewrite trimStart_space2 in Hws by assumption.
    change (String c1 (String c2 s2) +:+ rest) with (String c1 (String c2 (s2 +:+ rest))).
    rewrite trimStart_space2 by assumption. auto.
  - rewrite trimStart_space3 in Hws by assumption.
    change (String c1 (String c2 (String c3 s3)) +:+ rest)
      with (String c1 (String c2 (String c3 (s3 +:+ rest)))).
    rewrite trimStart_space3 by assumption. auto.
Qed.

(** The start of a text that starts with no white space starts with
    none. *)
Lemma spaceLen_prefix p b : spaceLen (p +:+ b) = 0 -> p <> EmptyString -> spaceLen p = 0.
Proof.
  intros H Hp. destruct p as [|c1 [|c2 [|c3 p3]]]; [contradiction| | |].
  - change (String c1 EmptyString +:+ b) with (String c1 b) in H.
    cbn [spaceLen] in *. destruct (isSpace c1); [discriminate|reflexivity].
  - change (String c1 (String c2 EmptyString) +:+ b) with (String c1 (String c2 b)) in H.
    cbn [spaceLen] in *. destruct (isSpace c1); [discriminate|].
    destruct (isSpace2 c1 c2); [discriminate|reflexivity].
  - change (String c1 (String c2 (String c3 p3)) +:+ b)
      with (String c1 (String c2 (String c3 (p3 +:+ b)))) in H.
    exact H.
Qed.

Lemma blank_true s : blank s = true <-> trimStart s = EmptyString.
Proof. unfold blank. destruct (trimStart s); split; congruence. Qed.

Lemma blank_app a b : blank a = true -> blank b = true -> blank (a +:+ b) = true.
Proof.
  rewrite !blank_true. intros Ha Hb. rewrite (trimStart_app a b Ha). exact Hb.
Qed.

(** [trimEnd] cuts white space off, and nothing else. *)
Lemma trimEnd_suffix s : exists b, s = trimEnd s +:+ b /\ blank b = true.
Proof.
  induction s as [|c s (b & Hs & Hb)]; [exists EmptyString; split; reflexivity|].
  cbn [trimEnd]. destruct (blank (String c s)) eqn:E.
  - exists (String c s). split; [reflexivity|exact E].
  - exists b. split; [|exact Hb].
    change (String c s = String c (trimEnd s +:+ b)). f_equal. exact Hs.
Qed.

Lemma trimEnd_idempotent s : trimEnd (trimEnd s) = trimEnd s.
Proof.
  induction s as [|c s IH]; [reflexivity|]. cbn [trimEnd].
  destruct (blank (String c s)) eqn:E; [reflexivity|].
  cbn [trimEnd]. rewrite IH.
  destruct (blank (String c (trimEnd s))) eqn:E'; [|reflexivity].
  destruct (trimEnd_suffix s) as (b & Hs & Hb).
  pose proof (blank_app _ _ E' Hb) as Habs.
  change (String c (trimEnd s) +:+ b) with (String c (trimEnd s +:+ b)) in Habs.
  rewrite <- Hs in Habs. congruence.
Qed.

(** A trimmed text has no white space at its start. *)
Lemma trimStart_trim s : trimStart (trim s) = trim s.
Proof.
  unfold trim. apply trimStart_keeps.
  destruct (trimEnd_suffix (trimStart s)) as (b & Hs & Hb).
  destruct (trimEnd (trimStart s)) as [|c t] eqn:E; [reflexivity|].
  apply (spaceLen_prefix _ b); [|discriminate].
  rewrite <- Hs. apply trimStart_head.
Qed.

Lemma trimEnd_trim s : trimEnd (trim s) = trim s.
Proof. unfold trim. apply trimEnd_idempotent. Qed.

(** The white space outside of ASCII goes as well: a no-break space,
    a byte order mark, an em space. *)
Example trim_example :
  trim (String (ascii_of_nat 194) (String (ascii_of_nat 160)
         (" a " +:+
          String (ascii_of_nat 239) (String (ascii_of_nat 187) (String (ascii_of_nat 191)
          (String (ascii_of_nat 226) (String (ascii_of_nat 128) (String (ascii_of_nat 131)
           EmptyString))))))))
  = "a".
Proof. vm_compute. reflexivity. Qed.

End SpaceFacts.

Section ParserFields.
Import Str Dom Parser.

Lemma beforeColon_app k x :
  occurs ":" k = false -> beforeColon (k +:+ String ":" x) = k.
Proof.
  induction k as [|c k IH]; intros H; [reflexivity|].
  simpl in H. apply orb_false_iff in H as [Hc Hk].
  change (beforeColon (String c (k +:+ String ":" x)) = String c k).
  cbn [beforeColon]. rewrite Hc. f_equal. auto.
Qed.

Lemma afterColon_app k x :
  occurs ":" k = false -> afterColon (k +:+ String ":" x) = Some x.
Proof.
  induction k as [|c k IH]; intros H; [reflexivity|].
  simpl in H. apply orb_false_iff in H as [Hc Hk].
  change (afterColon (String c (k +:+ String ":" x)) = Some x).
  cbn [afterColon]. rewrite Hc. auto.
Qed.

(** A title of the shape [KEY: summary] gives both fields: for an item
    without a [key] and without a [summary] element, whose title is a
    non-empty text without colon, a colon, white space, and a text that
    does not start with white space, the key is the first text and the
    summary is the last one. *)
Theorem title_splits_into_key_and_summary v now item k ws rest :
  absent "key" item ->
  absent "summary" item ->
  text "title" item = Some (k +:+ ":" +:+ ws +:+ rest) ->
  k <> EmptyString ->
  occurs ":" k = false ->
  trimStart ws = EmptyString ->
  trimStart rest = rest ->
  parseItem v now item = Some (buildTicket v now item)
  /\ Ticket.key (buildTicket v now item) = k
  /\ Ticket.summary (buildTicket v now item) = rest.
Proof.
  intros Hkey Hsum Ht Hk Hc Hws Hrest.
  change (k +:+ ":" +:+ ws +:+ rest) with (k +:+ String ":" (ws +:+ rest)) in Ht.
  assert (Hbefore : beforeColon (k +:+ String ":" (ws +:+ rest)) = k)
    by (apply (beforeColon_app k (ws +:+ rest) Hc)).
  assert (Hik : itemKey v item = k).
  { rewrite (itemKey_titled v item Hkey), Ht.
    rewrite or_else_self. exact Hbefore. }
  split; [apply parseItem_Some; congruence|]. split; [exact Hik|].
  cbn [Ticket.summary buildTicket]. unfold or_opt. unfold absent in Hsum.
  rewrite Hsum, Ht. cbn [fmap option_fmap option_map]. unfold stripKeyPrefix.
  rewrite (afterColon_app k (ws +:+ rest) Hc), (trimStart_app ws rest Hws), Hrest.
  apply or_else_self.
Qed.

Lemma title_splits_into_key_and_summary_witness :
  parseItem Original "2024-01-01T00:00:00.000Z"
    (Elem "item" [] [textElement "title" "PROJ-7:  fix the feed"])
  = Some (buildTicket Original "2024-01-01T00:00:00.000Z"
            (Elem "item" [] [textElement "title" "PROJ-7:  fix the feed"]))
  /\ Ticket.key (buildTicket Original "2024-01-01T00:00:00.000Z"
                   (Elem "item" [] [textElement "title" "PROJ-7:  fix the feed"]))
     = "PROJ-7"
  /\ Ticket.summary (buildTicket Original "2024-01-01T00:00:00.000Z"
                       (Elem "item" [] [textElement "title" "PROJ-7:  fix the feed"]))
     = "fix the feed".
Proof.
  apply (title_splits_into_key_and_summary Original "2024-01-01T00:00:00.000Z"
           (Elem "item" [] [textElement "title" "PROJ-7:  fix the feed"])
           "PROJ-7" "  " "fix the feed"); try reflexivity.
  discriminate.
Defined.

(** The three scripts build the same record for an item, up to the
    attributes of its comments and to the sprint, which only the sprint
    script reads; they keep and drop the same items, and read the same
    comment bodies. *)
Theorem parser_variants_agree v now item :
  buildTicket v now item
  = Ticket.mk (Ticket.id (buildTicket Original now item))
              (Ticket.key (buildTicket Original now item))
              (Ticket.summary (buildTicket Original now item))
              (Ticket.description (buildTicket Original now item))
              (Ticket.type (buildTicket Original now item))
              (Ticket.status (buildTicket Original now item))
              (Ticket.assignee (buildTicket Original now item))
              (Ticket.priority (buildTicket Original now item))
              (Ticket.updated (buildTicket Original now item))
              (Ticket.created (buildTicket Original now item))
              (Ticket.parentKey (buildTicket Original now item))
              (Ticket.link (buildTicket Original now item))
              (parseComments v item)
              match v with
              | Sprint => Some (parseSprint item)
              | Original | Refactored => None
              end
  /\ (parseItem v now item = None <-> parseItem Original now item = None)
  /\ Comment.body <$> parseComments v item
     = Comment.body <$> parseComments Original item.
Proof.
  assert (Hk : itemKey v item = itemKey Original item).
  { destruct (or_undefined (text "key" item)) as [k|] eqn:E.
    - rewrite !(itemKey_keyed _ item k E). reflexivity.
    - rewrite !(itemKey_titled _ item E). reflexivity. }
  split; [|split].
  - unfold buildTicket at 1. cbn [Ticket.id Ticket.key Ticket.summary
      Ticket.description Ticket.type Ticket.status Ticket.assignee Ticket.priority
      Ticket.updated Ticket.created Ticket.parentKey Ticket.link buildTicket].
    rewrite Hk. reflexivity.
  - unfold parseItem. rewrite !buildTicket_key, Hk.
    destruct (truthy (itemKey Original item)); split; congruence.
  - unfold parseComments. destruct (querySelector "comments" item) as [el|]; [|reflexivity].
    rewrite <- !list_fmap_compose. apply list_fmap_ext. intros i c _.
    cbn [compose]. rewrite !parseComment_decodes. reflexivity.
Qed.


(** The sprint of an item is the first value of the last [customfield]
    element that is named [Sprint] and has a value, and "No Sprint"
    when there is no such element. *)
Theorem sprint_is_last_sprint_field item :
  parseSprint item
  = match last (filter (fun cf => or_else (text "customfieldname" cf) EmptyString = "Sprint"
                                  /\ is_Some (or_undefined (text "customfieldvalue" cf)))
                  (querySelectorAll "customfield" item)) with
    | Some cf => or_else (text "customfieldvalue" cf) EmptyString
    | None => "No Sprint"
    end.
Proof.
  unfold parseSprint. generalize "No Sprint".
  induction (querySelectorAll "customfield" item) as [|cf l IH]; intros init.
  - reflexivity.
  - cbn [fold_left]. rewrite IH, filter_cons.
    destruct (decide (or_else (text "customfieldname" cf) EmptyString = "Sprint"
                      /\ is_Some (or_undefined (text "customfieldvalue" cf))))
      as [[Hn [val Hv]]|Hno].
    + assert (Hstep : sprintStep init cf = val).
      { unfold sprintStep. rewrite Hn, Hv. reflexivity. }
      rewrite Hstep, last_cons.
      destruct (last (filter _ l)) as [y|]; [reflexivity|].
      symmetry. apply or_else_truthy. exact Hv.
    + assert (Hstep : sprintStep init cf = init).
      { unfold sprintStep.
        destruct (String.eqb (or_else (text "customfieldname" cf) EmptyString) "Sprint")
          eqn:En; [|reflexivity].
        destruct (or_undefined (text "customfieldvalue" cf)) as [val|] eqn:Ev;
          [|reflexivity].
        exfalso. apply Hno. apply String.eqb_eq in En. split; [exact En|eauto]. }
      rewrite Hstep. reflexivity.
Qed.

End ParserFields.

(** ** Free text *)

Section FreeText.
Import Str Dom Parser.

Lemma replaceAll_absent p0 p' r s :
  occurs p0 s = false -> replaceAll (String p0 p') r s = s.
Proof.
  unfold replaceAll. induction s as [|c s IH]; intros H; [reflexivity|].
  simpl in H. apply orb_false_iff in H as [Hc Hs].
  cbn [replaceFrom startsWith]. rewrite Ascii.eqb_sym, Hc. cbn [andb].
  f_equal. auto.
Qed.

(** A text without ampersand goes through the decoding unchanged. *)
Theorem decodeEntities_plain_text s :
  occurs "&" s = false -> decodeEntities s = s.
Proof.
  intros H. unfold decodeEntities.
  rewrite (replaceAll_absent "&" "lt;" "<" s H).
  rewrite (replaceAll_absent "&" "gt;" ">" s H).
  rewrite (replaceAll_absent "&" "amp;" "&" s H).
  apply replaceAll_absent. exact H.
Qed.

Lemma decodeEntities_plain_text_witness :
  decodeEntities "As a user, I want <b>bold</b> text" = "As a user, I want <b>bold</b> text".
Proof. apply decodeEntities_plain_text. reflexivity. Defined.

(** A text that starts with [q] after a replacement by a character that
    [q] does not have started with [q] before. *)
Lemma startsWith_replaceFrom_inv q p0 p' rc s :
  occurs rc q = false ->
  startsWith q (replaceFrom (String p0 p') (String rc EmptyString) 0 s) = true ->
  startsWith q s = true.
Proof.
  revert s. induction q as [|y q IH]; intros s Hr H; [destruct s; reflexivity|].
  simpl in Hr. apply orb_false_iff in Hr as [Hy Hq].
  destruct s as [|x s]; [discriminate|]. cbn [replaceFrom] in H.
  destruct (startsWith (String p0 p') (String x s)).
  - change (Ascii.eqb y rc && startsWith q (replaceFrom (String p0 p')
              (String rc EmptyString) (String.length (String p0 p') - 1) s) = true) in H.
    rewrite Hy in H. discriminate.
  - cbn [startsWith] in *. apply andb_true_iff in H as [-> H]. cbn [andb]. auto.
Qed.

(** After all its occurrences were replaced by a character that it does
    not have, a pattern does not occur. *)
Lemma includes_replaceFrom p0 p' rc k s :
  occurs rc (String p0 p') = false ->
  includes (String p0 p') (replaceFrom (String p0 p') (String rc EmptyString) k s) = false.
Proof.
  intros Hr. revert k. induction s as [|c s IH]; intros k; [reflexivity|].
  destruct k as [|k]; [|cbn [replaceFrom]; apply IH].
  cbn [replaceFrom].
  destruct (startsWith (String p0 p') (String c s)) eqn:E.
  - change (includes (String p0 p')
              (String rc (replaceFrom (String p0 p') (String rc EmptyString)
                            (String.length (String p0 p') - 1) s)) = false).
    cbn [includes startsWith]. rewrite IH.
    simpl in Hr. apply orb_false_iff in Hr as [-> _]. reflexivity.
  - cbn [includes]. rewrite IH, orb_false_r.
    destruct (startsWith (String p0 p')
                (String c (replaceFrom (String p0 p') (String rc EmptyString) 0 s)))
      eqn:E'; [|reflexivity].
    assert (Hin : startsWith (String p0 p')
                    (replaceFrom (String p0 p') (String rc EmptyString) 0 (String c s))
                  = true).
    { cbn [replaceFrom]. rewrite E. exact E'. }
    apply startsWith_replaceFrom_inv in Hin; [congruence|exact Hr].
Qed.

(** No [&quot;] is left in a decoded text. *)
Theorem decodeEntities_leaves_no_quot s :
  includes "&quot;" (decodeEntities s) = false.
Proof. unfold decodeEntities, replaceAll, dquote. apply includes_replaceFrom. reflexivity. Qed.

(** The description of a ticket and the body of each of its comments
    have no white space at either end, whatever the item holds: [trim]
    is the last step of both. *)
Theorem free_text_is_trimmed v now item :
  (trimStart (Ticket.description (buildTicket v now item))
   = Ticket.description (buildTicket v now item)
   /\ trimEnd (Ticket.description (buildTicket v now item))
      = Ticket.description (buildTicket v now item))
  /\ (forall c, c ∈ Ticket.comments (buildTicket v now item) ->
        trimStart (Comment.body c) = Comment.body c
        /\ trimEnd (Comment.body c) = Comment.body c).
Proof.
  cbn [Ticket.description Ticket.comments buildTicket] in *. split.
  - assert (Hd : exists s, parseDescription item = trim s).
    { unfold parseDescription. destruct (querySelector "description" item); eauto.
      exists EmptyString. reflexivity. }
    destruct Hd as [s ->]. split; [apply trimStart_trim|apply trimEnd_trim].
  - intros c Hc.
    assert (Hb : exists s', Comment.body c = trim s').
    { unfold parseComments in Hc. destruct (querySelector "comments" item); [|inversion Hc].
      apply list_elem_of_In, in_map_iff in Hc as (x & <- & _).
      rewrite parseComment_decodes. eauto. }
    destruct Hb as [s' ->]. split; [apply trimStart_trim|apply trimEnd_trim].
Qed.

Lemma free_text_is_trimmed_witness :
  trimEnd (Ticket.description
             (buildTicket Refactored "2024-01-01T00:00:00.000Z"
                (Elem "item" [] [textElement "description" "  two  words  "])))
  = Ticket.description
      (buildTicket Refactored "2024-01-01T00:00:00.000Z"
         (Elem "item" [] [textElement "description" "  two  words  "]))
  /\ trimStart (Comment.body (Comment.mk None (Some "Unknown") None "ok"))
     = Comment.body (Comment.mk None (Some "Unknown") None "ok").
Proof.
  split.
  - exact (proj2 (proj1 (free_text_is_trimmed Refactored "2024-01-01T00:00:00.000Z"
      (Elem "item" [] [textElement "description" "  two  words  "])))).
  - refine (proj1 (proj2 (free_text_is_trimmed Refactored "2024-01-01T00:00:00.000Z"
      (Elem "item" []
         [textElement "description" "  two  words  ";
          Elem "comments" [] [textElement "comment" " ok "]]))
      (Comment.mk None (Some "Unknown") None "ok") _)).
    vm_compute. constructor.
Defined.

End FreeText.

(** ** Groupings *)

Section GroupingFacts.
Import Str Grouper Render.

Lemma grouper_partitions_by_assignee_witness :
  exists grouped,
    groupTicketsByAssignee Refactored
      [Ticket.sample "PROJ-1" "Story" "Alice" None None;
       Ticket.sample "PROJ-2" "Bug" "Bob" None None;
       Ticket.sample "PROJ-3" "Task" "Alice" (Some "PROJ-1") None] = Done grouped
    /\ filed grouped
       ≡ₚ [Ticket.sample "PROJ-1" "Story" "Alice" None None;
           Ticket.sample "PROJ-2" "Bug" "Bob" None None;
           Ticket.sample "PROJ-3" "Task" "Alice" (Some "PROJ-1") None]
    /\ forall k, grouped !! k
                 = bucketOf Refactored
                     (ofAssignee Refactored k
                        [Ticket.sample "PROJ-1" "Story" "Alice" None None;
                         Ticket.sample "PROJ-2" "Bug" "Bob" None None;
                         Ticket.sample "PROJ-3" "Task" "Alice" (Some "PROJ-1") None]).
Proof.
  apply (grouper_partitions_by_assignee Refactored
           [Ticket.sample "PROJ-1" "Story" "Alice" None None;
            Ticket.sample "PROJ-2" "Bug" "Bob" None None;
            Ticket.sample "PROJ-3" "Task" "Alice" (Some "PROJ-1") None]).
  repeat constructor.
Defined.

Lemma grouper_partitions_by_sprint_witness :
  exists grouped,
    groupTicketsBySprintAndAssignee
      [Ticket.sample "PROJ-1" "Story" "Alice" None (Some "Sprint 1");
       Ticket.sample "PROJ-2" "Story" "Alice" None (Some "Sprint 2")] = Done grouped
    /\ filedInSprints grouped
       ≡ₚ [Ticket.sample "PROJ-1" "Story" "Alice" None (Some "Sprint 1");
           Ticket.sample "PROJ-2" "Story" "Alice" None (Some "Sprint 2")]
    /\ forall s,
         match grouped !! s with
         | Some assignees =>
             ofSprint s [Ticket.sample "PROJ-1" "Story" "Alice" None (Some "Sprint 1");
                         Ticket.sample "PROJ-2" "Story" "Alice" None (Some "Sprint 2")]
             <> []
             /\ forall a, assignees !! a
                          = bucketOf Sprint
                              (ofAssignee Sprint a
                                 (ofSprint s
                                    [Ticket.sample "PROJ-1" "Story" "Alice" None
                                       (Some "Sprint 1");
                                     Ticket.sample "PROJ-2" "Story" "Alice" None
                                       (Some "Sprint 2")]))
         | None =>
             ofSprint s [Ticket.sample "PROJ-1" "Story" "Alice" None (Some "Sprint 1");
                         Ticket.sample "PROJ-2" "Story" "Alice" None (Some "Sprint 2")]
             = []
         end.
Proof.
  apply (grouper_partitions_by_sprint
           [Ticket.sample "PROJ-1" "Story" "Alice" None (Some "Sprint 1");
            Ticket.sample "PROJ-2" "Story" "Alice" None (Some "Sprint 2")]).
  repeat constructor.
Defined.

(** The assignee groupings raise exactly on the lists in which a ticket
    is filed under a name inherited from [Object.prototype]; on every
    other list they return. *)
Theorem grouping_raises_on_inherited_names_only v tickets :
  (groupTicketsByAssignee v tickets = TypeError
   <-> Exists (fun t => Obj.inherited (assigneeKey v t) = true) tickets)
  /\ (groupTicketsByAssignee v tickets <> TypeError
      -> exists grouped, groupTicketsByAssignee v tickets = Done grouped).
Proof.
  assert (Hno : ~ Exists (fun t => Obj.inherited (assigneeKey v t) = true) tickets ->
                exists grouped, groupTicketsByAssignee v tickets = Done grouped).
  { intros Hne. apply groupTicketsByAssignee_returns.
    apply not_Exists_Forall in Hne; [|intros t; apply _].
    eapply Forall_impl; [exact Hne|]. intros t Ht. cbn in Ht.
    destruct (Obj.inherited (assigneeKey v t)); [exfalso; auto|reflexivity]. }
  split; [split|].
  - intros Hr. destruct (decide (Exists (fun t => Obj.inherited (assigneeKey v t) = true)
                                   tickets)) as [H|H]; [exact H|].
    destruct (Hno H) as [g Hg]. congruence.
  - apply groupTicketsByAssignee_raises.
  - intros Hr. apply Hno. intros H. apply Hr.
    apply groupTicketsByAssignee_raises. exact H.
Qed.

(** The buckets of a grouping: none is empty; in the refactored and the
    sprint script [raw] holds the tickets of its stories and tasks, as
    many as these together, in the order of the list. *)
Theorem buckets_are_inhabited v tickets grouped k b :
  groupTicketsByAssignee v tickets = Done grouped ->
  grouped !! k = Some b ->
  Bucket.contents b <> []
  /\ Bucket.contents b ≡ₚ ofAssignee v k tickets
  /\ match v with
     | Original => Bucket.raw b = []
     | Refactored | Sprint =>
         Bucket.raw b = ofAssignee v k tickets
         /\ length (Bucket.raw b)
            = length (Bucket.userStories b) + length (Bucket.tasks b)
     end.
Proof.
  intros Hg Hk. rewrite (groupTicketsByAssignee_buckets v tickets grouped Hg k) in Hk.
  unfold bucketOf in Hk. destruct (ofAssignee v k tickets) as [|x mine] eqn:E;
    [discriminate|]. injection Hk as <-. unfold Bucket.contents.
  cbn [Bucket.userStories Bucket.tasks Bucket.raw].
  assert (Hp : filter (fun t => isStory t) (x :: mine)
               ++ filter (fun t => ~ isStory t) (x :: mine) ≡ₚ x :: mine)
    by apply filter_app_complement.
  split; [|split; [exact Hp|]].
  - intros Hnil. rewrite Hnil in Hp. apply Permutation_nil_cons in Hp. exact Hp.
  - destruct v; [reflexivity| |]; (split; [reflexivity|]);
      rewrite <- length_app, Hp; reflexivity.
Qed.

Lemma buckets_are_inhabited_witness :
  Bucket.contents
    (Bucket.mk [Ticket.sample "PROJ-1" "Story" "Alice" None None] []
               [Ticket.sample "PROJ-1" "Story" "Alice" None None])
  ≡ₚ ofAssignee Refactored "Alice" [Ticket.sample "PROJ-1" "Story" "Alice" None None].
Proof.
  refine (proj1 (proj2 (buckets_are_inhabited Refactored
    [Ticket.sample "PROJ-1" "Story" "Alice" None None]
    {["Alice" := Bucket.mk [Ticket.sample "PROJ-1" "Story" "Alice" None None] []
                           [Ticket.sample "PROJ-1" "Story" "Alice" None None]]}
    "Alice" _ _ _))); vm_compute; reflexivity.
Defined.

End GroupingFacts.

(** ** Cards *)

Section CardFacts.
Import Str Grouper Render.

Lemma traverse_Forall2 {A B : Type} (f : A -> outcome B) l ys :
  traverse f l = Done ys -> Forall2 (fun x y => f x = Done y) l ys.
Proof.
  revert ys. induction l as [|x l IH]; intros ys H; simpl in H.
  - injection H as <-. constructor.
  - destruct (f x) as [y| |] eqn:E; simpl in H; try discriminate.
    destruct (traverse f l) as [ys'| |]; simpl in H; try discriminate.
    injection H as <-. constructor; auto.
Qed.

Lemma renderCard_spec v bucket card :
  renderCard v bucket = Done card ->
  exists byParent,
    tasksByParent (Bucket.tasks bucket) = Done byParent
    /\ stories card = Bucket.userStories bucket
    /\ standalone card = byParent !! "standalone"
    /\ Forall2 (fun story r => relatedTasks v byParent story = Done r)
         (Bucket.userStories bucket) (related card)
    /\ storyCount card = length (Bucket.userStories bucket)
    /\ taskCount card = length (Bucket.tasks bucket).
Proof.
  unfold renderCard.
  destruct (tasksByParent (Bucket.tasks bucket)) as [byParent| |]; simpl; try discriminate.
  destruct (traverse (relatedTasks v byParent) (Bucket.userStories bucket))
    as [rel| |] eqn:E; simpl; try discriminate.
  intros [= <-]. exists byParent. repeat split. apply traverse_Forall2. exact E.
Qed.

Lemma relatedTasks_spec v byParent story r :
  relatedTasks v byParent story = Done r ->
  r = blocksOf v (byParent !! Ticket.key story).
Proof.
  unfold relatedTasks, Obj.get. destruct (byParent !! Ticket.key story).
  - congruence.
  - destruct (Obj.inherited (Ticket.key story)); [discriminate|congruence].
Qed.

Lemma blocksOf_listOf v mine :
  blocksOf v (listOf mine)
  = match mine with
    | [] => []
    | _ :: _ => replicate (copies v) mine
    end.
Proof. destruct mine; reflexivity. Qed.

(** What a card that is built shows: in its header the numbers of the
    stories and of the tasks of the bucket; the stories of the bucket in
    their order; under each story whose key is the parent key of a task
    of the bucket, the Related Tasks block with exactly those tasks in
    their order, once in the refactored script and twice in the original
    one, and no block under the other stories; under Standalone Tasks the
    tasks filed under "standalone", and no such section without one. *)
Theorem card_lists_tasks_under_their_story v bucket card :
  renderCard v bucket = Done card ->
  stories card = Bucket.userStories bucket
  /\ Forall2 (fun story blocks =>
                blocks = match ofParent (Ticket.key story) (Bucket.tasks bucket) with
                         | [] => []
                         | _ :: _ =>
                             replicate (match v with Original => 2 | _ => 1 end)
                               (ofParent (Ticket.key story) (Bucket.tasks bucket))
                         end)
       (Bucket.userStories bucket) (related card)
  /\ standalone card = listOf (ofParent "standalone" (Bucket.tasks bucket))
  /\ storyCount card = length (Bucket.userStories bucket)
  /\ taskCount card = length (Bucket.tasks bucket).
Proof.
  intros H. destruct (renderCard_spec _ _ _ H) as (byParent & Hb & Hs & Hst & Hrel & Hn & Hm).
  split; [exact Hs|]. split; [|split; [|split; assumption]].
  - eapply Forall2_impl; [exact Hrel|]. intros story r Hr.
    rewrite (relatedTasks_spec _ _ _ _ Hr), (tasksByParent_lists _ _ Hb), blocksOf_listOf.
    destruct v; reflexivity.
  - rewrite Hst. apply tasksByParent_lists. exact Hb.
Qed.

Lemma card_lists_tasks_under_their_story_witness :
  stories (mkCard 1 2 [Ticket.sample "PROJ-1" "Story" "Alice" None None]
                  [[[Ticket.sample "PROJ-2" "Task" "Alice" (Some "PROJ-1") None];
                    [Ticket.sample "PROJ-2" "Task" "Alice" (Some "PROJ-1") None]]]
                  (Some [Ticket.sample "PROJ-3" "Task" "Alice" None None]))
  = [Ticket.sample "PROJ-1" "Story" "Alice" None None]
  /\ Forall2 (fun story blocks =>
                blocks = match ofParent (Ticket.key story)
                                 [Ticket.sample "PROJ-2" "Task" "Alice" (Some "PROJ-1") None;
                                  Ticket.sample "PROJ-3" "Task" "Alice" None None] with
                         | [] => []
                         | _ :: _ =>
                             replicate 2
                               (ofParent (Ticket.key story)
                                  [Ticket.sample "PROJ-2" "Task" "Alice" (Some "PROJ-1") None;
                                   Ticket.sample "PROJ-3" "Task" "Alice" None None])
                         end)
       [Ticket.sample "PROJ-1" "Story" "Alice" None None]
       [[[Ticket.sample "PROJ-2" "Task" "Alice" (Some "PROJ-1") None];
         [Ticket.sample "PROJ-2" "Task" "Alice" (Some "PROJ-1") None]]]
  /\ Some [Ticket.sample "PROJ-3" "Task" "Alice" None None]
     = listOf (ofParent "standalone"
                 [Ticket.sample "PROJ-2" "Task" "Alice" (Some "PROJ-1") None;
                  Ticket.sample "PROJ-3" "Task" "Alice" None None])
  /\ 1 = 1
  /\ 2 = 2.
Proof.
  apply (card_lists_tasks_under_their_story Original
           (Bucket.mk [Ticket.sample "PROJ-1" "Story" "Alice" None None]
                      [Ticket.sample "PROJ-2" "Task" "Alice" (Some "PROJ-1") None;
                       Ticket.sample "PROJ-3" "Task" "Alice" None None] [])
           (mkCard 1 2 [Ticket.sample "PROJ-1" "Story" "Alice" None None]
                   [[[Ticket.sample "PROJ-2" "Task" "Alice" (Some "PROJ-1") None];
                     [Ticket.sample "PROJ-2" "Task" "Alice" (Some "PROJ-1") None]]]
                   (Some [Ticket.sample "PROJ-3" "Task" "Alice" None None]))).
  vm_compute. reflexivity.
Defined.

(** A card counts every task of its bucket in its header, and lists
    tasks of its bucket only; a task whose parent key is neither missing
    nor "standalone" nor the key of a story of the bucket is counted and
    is in none of the lists that the card prints. *)
Theorem orphan_tasks_are_not_rendered v bucket card :
  renderCard v bucket = Done card ->
  taskCount card = length (Bucket.tasks bucket)
  /\ (forall l, l ∈ taskLists card -> l ⊆ Bucket.tasks bucket)
  /\ (forall t p,
        t ∈ Bucket.tasks bucket ->
        Ticket.parentKey t = Some p -> p <> EmptyString -> p <> "standalone" ->
        (forall story, story ∈ Bucket.userStories bucket -> Ticket.key story <> p) ->
        forall l, l ∈ taskLists card -> t ∉ l).
Proof.
  intros H. destruct (renderCard_spec _ _ _ H) as (byParent & Hb & _ & Hst0 & Hrel0 & _ & Hm).
  split; [exact Hm|].
  assert (Hrel : Forall2 (fun story r =>
                   r = blocksOf v (listOf (ofParent (Ticket.key story) (Bucket.tasks bucket))))
                   (Bucket.userStories bucket) (related card)).
  { eapply Forall2_impl; [exact Hrel0|]. intros story r Hr.
    rewrite (relatedTasks_spec _ _ _ _ Hr), (tasksByParent_lists _ _ Hb). reflexivity. }
  assert (Hst : standalone card = listOf (ofParent "standalone" (Bucket.tasks bucket))).
  { rewrite Hst0. apply tasksByParent_lists. exact Hb. }
  clear byParent Hb Hst0 Hrel0.
  assert (Hshape : forall l, l ∈ taskLists card ->
            exists q, l = ofParent q (Bucket.tasks bucket)
                      /\ (q = "standalone"
                          \/ exists story, story ∈ Bucket.userStories bucket
                                           /\ Ticket.key story = q)).
  { intros l Hl. unfold taskLists in Hl. apply elem_of_app in Hl as [Hl|Hl].
    - exists "standalone". split; [|left; reflexivity].
      rewrite Hst in Hl. destruct (listOf _) as [l'|] eqn:E; [|inversion Hl].
      cbn in Hl. apply list_elem_of_singleton in Hl. subst l'.
      apply listOf_Some in E. exact E.
    - apply list_elem_of_In, in_concat in Hl as (blocks & Hblocks & Hl).
      apply list_elem_of_In in Hblocks, Hl.
      apply list_elem_of_lookup in Hblocks as [i Hi].
      destruct (Forall2_lookup_r _ _ _ _ _ Hrel Hi) as (story & Hs & Hr).
      exists (Ticket.key story). split.
      + subst blocks. rewrite blocksOf_listOf in Hl.
        destruct (ofParent (Ticket.key story) (Bucket.tasks bucket)) eqn:E; [inversion Hl|].
        apply elem_of_replicate in Hl as [Hl _]. exact Hl.
      + right. exists story. split; [|reflexivity].
        apply list_elem_of_lookup. eauto. }
  split.
  - intros l Hl. destruct (Hshape l Hl) as (q & -> & _).
    intros t Ht. apply list_elem_of_filter in Ht as [_ Ht]. exact Ht.
  - intros t p Ht Hp Hne Hns Horphan l Hl Hin.
    destruct (Hshape l Hl) as (q & -> & Hq).
    apply list_elem_of_filter in Hin as [Hpar _].
    unfold parentOf in Hpar. rewrite Hp, (or_else_Some p _ Hne) in Hpar. subst q.
    destruct Hq as [Hq|(story & Hs & Hk)]; [contradiction|].
    exact (Horphan story Hs Hk).
Qed.

Lemma orphan_tasks_are_not_rendered_witness :
  taskCount (mkCard 1 2 [Ticket.sample "PROJ-1" "Story" "Alice" None None]
               [[[Ticket.sample "PROJ-2" "Task" "Alice" (Some "PROJ-1") None]]] None)
  = 2
  /\ Ticket.sample "PROJ-3" "Task" "Alice" (Some "PROJ-9") None
     ∉ [Ticket.sample "PROJ-2" "Task" "Alice" (Some "PROJ-1") None].
Proof.
  pose proof (orphan_tasks_are_not_rendered Refactored
    (Bucket.mk [Ticket.sample "PROJ-1" "Story" "Alice" None None]
       [Ticket.sample "PROJ-2" "Task" "Alice" (Some "PROJ-1") None;
        Ticket.sample "PROJ-3" "Task" "Alice" (Some "PROJ-9") None] [])
    (mkCard 1 2 [Ticket.sample "PROJ-1" "Story" "Alice" None None]
       [[[Ticket.sample "PROJ-2" "Task" "Alice" (Some "PROJ-1") None]]] None)
    ltac:(vm_compute; reflexivity)) as (Hcount & _ & Horphan).
  split; [exact Hcount|].
  apply (Horphan (Ticket.sample "PROJ-3" "Task" "Alice" (Some "PROJ-9") None) "PROJ-9").
  - vm_compute. apply list_elem_of_further, list_elem_of_here.
  - reflexivity.
  - discriminate.
  - discriminate.
  - intros story Hs. vm_compute in Hs. apply list_elem_of_singleton in Hs. subst story.
    discriminate.
  - vm_compute. apply list_elem_of_here.
Defined.

End CardFacts.

(** ** Stats and views *)

Section ViewProperties.
Import Str Grouper Render.

Lemma ofAssignee_nil_iff v k tickets :
  ofAssignee v k tickets = [] <-> k ∉ assigneeKey v <$> tickets.
Proof.
  unfold ofAssignee. split.
  - intros H Hin. apply list_elem_of_fmap in Hin as (t & -> & Ht).
    apply (filter_nil_not_elem_of _ _ t H); auto.
  - intros H. induction tickets as [|t l IH]; [reflexivity|].
    rewrite filter_cons. destruct (decide (assigneeKey v t = k)) as [<-|Hne].
    + exfalso. apply H. rewrite fmap_cons. apply list_elem_of_here.
    + apply IH. intros Hin. apply H. rewrite fmap_cons. apply list_elem_of_further.
      exact Hin.
Qed.

(** The names of the buckets are the assignee names of the tickets. *)
Lemma groupTicketsByAssignee_dom v tickets grouped :
  groupTicketsByAssignee v tickets = Done grouped ->
  dom grouped = list_to_set (assigneeKey v <$> tickets).
Proof.
  intros Hg. apply set_eq. intros k.
  rewrite elem_of_dom, elem_of_list_to_set,
    (groupTicketsByAssignee_buckets v tickets grouped Hg k).
  pose proof (ofAssignee_nil_iff v k tickets) as Hnil.
  unfold bucketOf. destruct (ofAssignee v k tickets) as [|x l].
  - split; [intros [b Hb]; discriminate|].
    intros Hin. exfalso. apply Hnil; auto.
  - split; [|eauto]. intros _.
    destruct (decide (k ∈ assigneeKey v <$> tickets)) as [H|H]; [exact H|].
    apply Hnil in H. discriminate.
Qed.

Lemma traverse_length {A B : Type} (f : A -> outcome B) l ys :
  traverse f l = Done ys -> length ys = length l.
Proof.
  intros H. apply traverse_Forall2 in H. symmetry. eapply Forall2_length. exact H.
Qed.

(** The last stat (Assignees, or Sprints in the sprint script) is the
    number of cards of the dashboard, in each of the three scripts; in
    the original one, which counts the distinct assignees of the list,
    as in the others, which count the buckets. *)
Theorem groups_stat_counts_cards v tickets error view :
  buildView v tickets error = Done view ->
  Stats.totalTickets (stats view) = length tickets
  /\ match body view with
     | AssigneeCards cards => length cards = Stats.groups (stats view)
     | SprintCards cards => length cards = Stats.groups (stats view)
     end.
Proof.
  unfold buildView. destruct v.
  - destruct (groupTicketsByAssignee Original tickets) as [g| |] eqn:Hg; simpl;
      try discriminate.
    destruct (renderCards Original g) as [cards| |] eqn:Hc; simpl; try discriminate.
    intros [= <-]. split; [reflexivity|]. cbn [body stats Stats.groups calculateStats].
    apply traverse_length in Hc. rewrite Hc, length_map_to_list.
    change (Ticket.assignee <$> tickets) with (assigneeKey Original <$> tickets).
    rewrite <- (groupTicketsByAssignee_dom Original tickets g Hg).
    symmetry. apply size_dom.
  - destruct (groupTicketsByAssignee Refactored tickets) as [g| |] eqn:Hg; simpl;
      try discriminate.
    destruct (renderCards Refactored g) as [cards| |] eqn:Hc; simpl; try discriminate.
    intros [= <-]. split; [reflexivity|]. cbn [body stats Stats.groups statsOf].
    apply traverse_length in Hc. rewrite Hc. apply length_map_to_list.
  - destruct (groupTicketsBySprintAndAssignee tickets) as [g| |] eqn:Hg; simpl;
      try discriminate.
    intros [= <-]. split; [reflexivity|]. cbn [body stats Stats.groups statsOf].
    unfold sprintCards. rewrite length_fmap. apply length_map_to_list.
Qed.

Lemma groups_stat_counts_cards_witness :
  exists view,
    buildView Original
      [Ticket.sample "PROJ-1" "Story" "Alice" None None;
       Ticket.sample "PROJ-2" "Task" "Bob" (Some "PROJ-1") None;
       Ticket.sample "PROJ-3" "Bug" "Alice" None None] None = Done view
    /\ Stats.groups (stats view) = 2
    /\ Stats.totalTickets (stats view) = 3
    /\ match body view with
       | AssigneeCards cards => length cards = Stats.groups (stats view)
       | SprintCards cards => length cards = Stats.groups (stats view)
       end.
Proof.
  destruct (buildView Original
              [Ticket.sample "PROJ-1" "Story" "Alice" None None;
               Ticket.sample "PROJ-2" "Task" "Bob" (Some "PROJ-1") None;
               Ticket.sample "PROJ-3" "Bug" "Alice" None None] None)
    as [view| |] eqn:E; [|vm_compute in E; discriminate E..].
  exists view. split; [reflexivity|].
  pose proof (groups_stat_counts_cards _ _ _ _ E) as [H1 H2].
  split; [|split; [exact H1|exact H2]].
  vm_compute in E. injection E as <-. reflexivity.
Defined.



End ViewProperties.

(** ** Runs *)

Section RunFacts.
Import Str Grouper Render Page.

Lemma hasId_true id e : hasId id e = true <-> elemId e = id.
Proof. unfold hasId. apply String.eqb_eq. Qed.

Lemma others_removeFirst l :
  filter (fun e => elemId e <> popupId) (removeFirst popupId l)
  = filter (fun e => elemId e <> popupId) l.
Proof.
  induction l as [|e l IH]; [reflexivity|]. cbn [removeFirst].
  destruct (hasId popupId e) eqn:E.
  - apply hasId_true in E. rewrite filter_cons_False; [reflexivity|]. intros H. auto.
  - rewrite !filter_cons, IH. reflexivity.
Qed.

Lemma others_addClickListener l :
  filter (fun e => elemId e <> popupId) (addClickListener popupId l)
  = filter (fun e => elemId e <> popupId) l.
Proof.
  induction l as [|e l IH]; [reflexivity|]. cbn [addClickListener].
  destruct (hasId popupId e) eqn:E.
  - apply hasId_true in E. rewrite !filter_cons_False; auto.
  - rewrite !filter_cons, IH. reflexivity.
Qed.

(** A rendering writes nothing to the console and sends no request. *)
Lemma renderDashboard_frame v tickets error w w' :
  renderDashboard v tickets error w = Done w' ->
  console w' = console w /\ fetchCalls w' = fetchCalls w.
Proof.
  intros H. apply renderDashboard_spec in H as (view & _ & ->). split; reflexivity.
Qed.



(** A rendering that returns ends the page with its dashboard. *)
Lemma renderDashboard_last v tickets error w w' :
  renderDashboard v tickets error w = Done w' ->
  exists view n,
    buildView v tickets error = Done view
    /\ last (page w') = Some (mkElement popupId (Dashboard view) n)
    /\ currentData w' = tickets.
Proof.
  intros H. apply renderDashboard_spec in H as (view & Hv & ->). cbn [page currentData].
  destruct (last_addClickListener (mkElement popupId (Dashboard view) 0)
              (removeFirst popupId (page w)) eq_refl) as [n Hn].
  exists view, n. auto.
Qed.

Lemma page_logTo e w : page (logTo e w) = page w.
Proof. reflexivity. Qed.

(** Every run that returns has shown the loading overlay, made one
    request and ended with one rendering, of the tickets of the feed or
    of no ticket. *)
Lemma run_spec v now r w w' :
  run v now r w = Done w' ->
  exists tickets error w1 w2,
    page w1 = page (showLoading v w)
    /\ fetchCalls w1 = S (fetchCalls w)
    /\ renderDashboard v tickets error w1 = Done w2
    /\ page w' = page w2
    /\ fetchCalls w' = fetchCalls w2
    /\ currentData w' = currentData w2
    /\ (tickets = [] \/ settle v now r = inr tickets).
Proof.
  unfold run, fetchJiraData.
  destruct (settle v now r) as [message|tickets] eqn:Hs.
  - destruct v; cbn [onRejected mbind outcome_bind]; intros H.
    + do 4 eexists. split; [|split; [|split; [exact H|]]]; [reflexivity..|]. auto 10.
    + destruct (renderDashboard Refactored [] None _) as [w2| |] eqn:E;
        cbn [mbind outcome_bind] in H; try discriminate. injection H as <-.
      do 4 eexists. split; [|split; [|split; [exact E|]]]; [reflexivity..|]. auto 10.
    + destruct (renderDashboard Sprint [] None _) as [w2| |] eqn:E;
        cbn [mbind outcome_bind] in H; try discriminate. injection H as <-.
      do 4 eexists. split; [|split; [|split; [exact E|]]]; [reflexivity..|]. auto 10.
  - destruct v; cbn [onFulfilled onRejected mbind outcome_bind].
    + destruct (renderDashboard Original tickets None _) as [w2| |] eqn:E;
        try discriminate; intros H.
      * injection H as <-.
        do 4 eexists. split; [|split; [|split; [exact E|]]]; [reflexivity..|]. auto 10.
      * do 4 eexists. split; [|split; [|split; [exact H|]]]; [reflexivity..|]. auto 10.
    + destruct (renderDashboard Refactored tickets None _) as [w2| |] eqn:E;
        try discriminate; intros H.
      * injection H as <-.
        do 4 eexists. split; [|split; [|split; [exact E|]]]; [reflexivity..|]. auto 10.
      * destruct (renderDashboard Refactored [] None _) as [w3| |] eqn:E';
          cbn [mbind outcome_bind] in H; try discriminate. injection H as <-.
        do 4 eexists. split; [|split; [|split; [exact E'|]]]; [reflexivity..|]. auto 10.
    + destruct (renderDashboard Sprint tickets None _) as [w2| |] eqn:E;
        cbn [mbind outcome_bind]; try discriminate; intros H.
      * injection H as <-.
        do 4 eexists. split; [|split; [|split; [exact E|]]]; [reflexivity..|]. auto 10.
      * destruct (renderDashboard Sprint [] None _) as [w3| |] eqn:E';
          cbn [mbind outcome_bind] in H; try discriminate. injection H as <-.
        do 4 eexists. split; [|split; [|split; [exact E'|]]]; [reflexivity..|]. auto 10.
Qed.

End RunFacts.

Section RunClaims.
Import Str Grouper Render Page.

Lemma reduceM_not_Escapes {A S : Type} (f : S -> A -> outcome S) l acc :
  (forall acc t, f acc t <> Escapes) -> reduceM f l acc <> Escapes.
Proof.
  intros Hf. revert acc. induction l as [|t l IH]; intros acc; simpl; [discriminate|].
  destruct (f acc t) as [acc'| |] eqn:E; simpl; [apply IH|discriminate|].
  exfalso. exact (Hf _ _ E).
Qed.

Lemma traverse_not_Escapes {A B : Type} (f : A -> outcome B) l :
  (forall x, f x <> Escapes) -> traverse f l <> Escapes.
Proof.
  intros Hf. induction l as [|x l IH]; simpl; [discriminate|].
  destruct (f x) as [y| |] eqn:E; simpl; [|discriminate|exfalso; exact (Hf _ E)].
  destruct (traverse f l); simpl; [discriminate|discriminate|contradiction].
Qed.

Lemma renderCard_not_Escapes v bucket : renderCard v bucket <> Escapes.
Proof.
  unfold renderCard.
  destruct (tasksByParent (Bucket.tasks bucket)) as [byParent| |] eqn:E; simpl.
  - destruct (traverse (relatedTasks v byParent) (Bucket.userStories bucket)) eqn:E';
      simpl; try discriminate.
    exfalso. revert E'. apply traverse_not_Escapes. intros story.
    unfold relatedTasks. destruct (Obj.get byParent (Ticket.key story)); discriminate.
  - discriminate.
  - exfalso. revert E. apply reduceM_not_Escapes. intros acc t.
    unfold fileByParent. destruct (Obj.get acc (parentOf t)); discriminate.
Qed.

(** The renderings of the two assignee scripts return or raise. *)
Lemma renderDashboard_not_Escapes v tickets error w :
  v <> Sprint -> renderDashboard v tickets error w <> Escapes.
Proof.
  intros Hv. unfold renderDashboard.
  assert (Hb : buildView v tickets error <> Escapes).
  { assert (Hg : forall v', groupTicketsByAssignee v' tickets <> Escapes)
      by (intros v'; apply reduceM_not_Escapes; intros; apply fileByAssignee_not_Escapes).
    assert (Hc : forall v' g, renderCards v' g <> Escapes).
    { intros v' g. apply traverse_not_Escapes. intros [k b]. cbn [fst snd].
      pose proof (renderCard_not_Escapes v' b) as Hr.
      destruct (renderCard v' b); simpl; congruence. }
    destruct v; try contradiction; unfold buildView.
    - pose proof (Hg Original) as H1.
      destruct (groupTicketsByAssignee Original tickets) as [g| |]; simpl; try congruence.
      pose proof (Hc Original g) as H2. destruct (renderCards Original g); simpl; congruence.
    - pose proof (Hg Refactored) as H1.
      destruct (groupTicketsByAssignee Refactored tickets) as [g| |]; simpl; try congruence.
      pose proof (Hc Refactored g) as H2.
      destruct (renderCards Refactored g); simpl; congruence. }
  destruct (buildView v tickets error); simpl; congruence.
Qed.

Lemma buildView_tickets v tickets error view :
  buildView v tickets error = Done view -> Render.tickets view = tickets.
Proof.
  unfold buildView. destruct v.
  - destruct (groupTicketsByAssignee Original tickets) as [g| |]; simpl; try discriminate.
    destruct (renderCards Original g); simpl; try discriminate. intros [= <-]. reflexivity.
  - destruct (groupTicketsByAssignee Refactored tickets) as [g| |]; simpl; try discriminate.
    destruct (renderCards Refactored g); simpl; try discriminate. intros [= <-]. reflexivity.
  - destruct (groupTicketsBySprintAndAssignee tickets) as [g| |]; simpl; try discriminate.
    intros [= <-]. reflexivity.
Qed.

Lemma onRejected_returns v message w :
  exists w' view n,
    onRejected v message w = Done w'
    /\ last (page w') = Some (mkElement popupId (Dashboard view) n)
    /\ Render.tickets view = []
    /\ currentData w' = []
    /\ fetchCalls w' = fetchCalls w.
Proof.
  destruct v.
  - destruct (renderDashboard_returns Original [] (Some message)
                (logTo (mkEntry Error "Error:" (Some message)) w)) as [w' Hw];
      [constructor|].
    destruct (renderDashboard_last _ _ _ _ _ Hw) as (view & n & Hv & Hl & Hc).
    destruct (buildView_returns Original [] (Some message)) as (view' & Hv' & Ht);
      [constructor|].
    destruct (renderDashboard_frame _ _ _ _ _ Hw) as (_ & Hf).
    exists w', view, n. cbn [onRejected]. repeat split; try assumption; congruence.
  - destruct (renderDashboard_returns Refactored [] None w) as [w' Hw]; [constructor|].
    destruct (renderDashboard_last _ _ _ _ _ Hw) as (view & n & Hv & Hl & Hc).
    destruct (buildView_returns Refactored [] None) as (view' & Hv' & Ht); [constructor|].
    destruct (renderDashboard_frame _ _ _ _ _ Hw) as (_ & Hf).
    eexists _, view, n. cbn [onRejected]. rewrite Hw. cbn [mbind outcome_bind].
    repeat split; try assumption; congruence.
  - destruct (renderDashboard_returns Sprint [] None w) as [w' Hw]; [constructor|].
    destruct (renderDashboard_last _ _ _ _ _ Hw) as (view & n & Hv & Hl & Hc).
    destruct (buildView_returns Sprint [] None) as (view' & Hv' & Ht); [constructor|].
    destruct (renderDashboard_frame _ _ _ _ _ Hw) as (_ & Hf).
    eexists _, view, n. cbn [onRejected]. rewrite Hw. cbn [mbind outcome_bind].
    repeat split; try assumption; congruence.
Qed.

(** The promise chain of one of the two assignee scripts always
    settles: after one request it leaves a dashboard as the last child
    of [body], that of the parsed tickets, or that of no ticket when the
    request failed or the rendering of the tickets raised. *)
Lemma run_ends_with_a_dashboard v now r w :
  v <> Sprint ->
  exists w' view n,
    run v now r w = Done w'
    /\ last (page w') = Some (mkElement popupId (Dashboard view) n)
    /\ fetchCalls w' = S (fetchCalls w)
    /\ (Render.tickets view = [] \/ settle v now r = inr (Render.tickets view))
    /\ currentData w' = Render.tickets view.
Proof.
  intros Hv. unfold run, fetchJiraData.
  destruct (settle v now r) as [message|tickets] eqn:Hs.
  - destruct v; try contradiction.
    + destruct (onRejected_returns Original message
                  (logTo (mkEntry Error "Fetch error:" (Some message))
                     (mkWorld (page (showLoading Original w))
                        (console (showLoading Original w))
                        (S (fetchCalls (showLoading Original w)))
                        (currentData (showLoading Original w)))))
        as (w' & view & n & H & Hl & Ht & Hc & Hf).
      exists w', view, n. split; [exact H|]. split; [exact Hl|].
      split; [rewrite Hf; reflexivity|]. split; [left; exact Ht|]. congruence.
    + destruct (onRejected_returns Refactored message
                  (mkWorld (page (showLoading Refactored w))
                     (console (showLoading Refactored w))
                     (S (fetchCalls (showLoading Refactored w)))
                     (currentData (showLoading Refactored w))))
        as (w' & view & n & H & Hl & Ht & Hc & Hf).
      exists w', view, n. split; [exact H|]. split; [exact Hl|].
      split; [rewrite Hf; reflexivity|]. split; [left; exact Ht|]. congruence.
  - assert (Hcase : forall w1,
              fetchCalls w1 = S (fetchCalls w) ->
              exists w' view n,
                match onFulfilled v tickets w1 with
                | Done w2 => Done w2
                | TypeError =>
                    onRejected v typeErrorMessage
                      match v with
                      | Original => logTo (mkEntry Log "Parsed tickets:" None) w1
                      | Refactored | Sprint => w1
                      end
                | Escapes => Escapes
                end = Done w'
                /\ last (page w') = Some (mkElement popupId (Dashboard view) n)
                /\ fetchCalls w' = S (fetchCalls w)
                /\ (Render.tickets view = [] \/ tickets = Render.tickets view)
                /\ currentData w' = Render.tickets view).
    { intros w1 Hw1.
      assert (Hful : exists w0, fetchCalls w0 = fetchCalls w1
                /\ onFulfilled v tickets w1 = renderDashboard v tickets None w0).
      { destruct v; try contradiction; cbn [onFulfilled]; eexists;
          (split; [|reflexivity]); reflexivity. }
      destruct Hful as (w0 & Hw0 & ->).
      destruct (renderDashboard v tickets None w0) as [w2| |] eqn:E.
      - destruct (renderDashboard_last _ _ _ _ _ E) as (view & n & Hb & Hl & Hc).
        destruct (buildView_tickets _ _ _ _ Hb).
        destruct (renderDashboard_frame _ _ _ _ _ E) as (_ & Hf).
        exists w2, view, n. split; [reflexivity|]. split; [exact Hl|].
        split; [congruence|]. split; [right; congruence|]. congruence.
      - destruct (onRejected_returns v typeErrorMessage
                    match v with
                    | Original => logTo (mkEntry Log "Parsed tickets:" None) w1
                    | Refactored | Sprint => w1
                    end) as (w' & view & n & H & Hl & Ht & Hc & Hf).
        exists w', view, n. split; [exact H|]. split; [exact Hl|].
        split; [rewrite Hf; destruct v; exact Hw1|]. split; [left; exact Ht|]. congruence.
      - exfalso. revert E. apply renderDashboard_not_Escapes. exact Hv. }
    destruct v; try contradiction.
    + destruct (Hcase (mkWorld (page (showLoading Original w))
                         (console (showLoading Original w))
                         (S (fetchCalls (showLoading Original w)))
                         (currentData (showLoading Original w))) eq_refl)
        as (w' & view & n & H & Hl & Hf & Ht & Hc).
      exists w', view, n. split; [exact H|]. split; [exact Hl|]. split; [exact Hf|].
      split; [|exact Hc]. destruct Ht as [Ht| ->]; auto.
    + destruct (Hcase (mkWorld (page (showLoading Refactored w))
                         (console (showLoading Refactored w))
                         (S (fetchCalls (showLoading Refactored w)))
                         (currentData (showLoading Refactored w))) eq_refl)
        as (w' & view & n & H & Hl & Hf & Ht & Hc).
      exists w', view, n. split; [exact H|]. split; [exact Hl|]. split; [exact Hf|].
      split; [|exact Hc]. destruct Ht as [Ht| ->]; auto.
Qed.

End RunClaims.

Section RunOutcomes.
Import Str Grouper Render Page.



Lemma countId_showLoading v w :
  countId popupId (page (showLoading v w))
  = match v with
    | Original => S (countId popupId (page w))
    | Refactored | Sprint => Nat.max 1 (countId popupId (page w))
    end.
Proof.
  unfold showLoading, insertBeforeEnd. cbn [page].
  destruct v; rewrite countId_app; rewrite ?countId_removeFirst;
    change (countId popupId [mkElement popupId Loading 0]) with 1; lia.
Qed.

Lemma run_counts_overlays v now r w w' :
  run v now r w = Done w' ->
  countId popupId (page w')
  = match v with
    | Original => S (countId popupId (page w))
    | Refactored | Sprint => Nat.max 1 (countId popupId (page w))
    end.
Proof.
  intros H. apply run_spec in H
    as (tickets & error & w1 & w2 & Hp & _ & Hr & Hp' & _).
  rewrite Hp', (renderDashboard_count _ _ _ _ _ Hr), Hp, countId_showLoading.
  destruct v; lia.
Qed.



Lemma run_shows_the_feed v now status statusText xmlDoc w :
  200 <= status <= 299 ->
  Forall (fun t => plainNames v t) (Parser.parseJiraXML v now xmlDoc) ->
  exists w' view n,
    run v now (Http status statusText xmlDoc) w = Done w'
    /\ buildView v (Parser.parseJiraXML v now xmlDoc) None = Done view
    /\ Render.tickets view = Parser.parseJiraXML v now xmlDoc
    /\ last (page w') = Some (mkElement popupId (Dashboard view) n)
    /\ currentData w' = Parser.parseJiraXML v now xmlDoc
    /\ fetchCalls w' = S (fetchCalls w)
    /\ forall e, e ∈ console w' -> e ∈ console w \/ entryLevel e = Log.
Proof.
  intros Hst Hplain.
  assert (Hs : settle v now (Http status statusText xmlDoc)
               = inr (Parser.parseJiraXML v now xmlDoc)).
  { unfold settle, ok.
    destruct (Nat.leb_spec 200 status); [|lia].
    destruct (Nat.leb_spec status 299); [|lia]. reflexivity. }
  assert (Hrender : forall w0, exists w2 view n,
            renderDashboard v (Parser.parseJiraXML v now xmlDoc) None w0 = Done w2
            /\ buildView v (Parser.parseJiraXML v now xmlDoc) None = Done view
            /\ Render.tickets view = Parser.parseJiraXML v now xmlDoc
            /\ last (page w2) = Some (mkElement popupId (Dashboard view) n)
            /\ currentData w2 = Parser.parseJiraXML v now xmlDoc
            /\ fetchCalls w2 = fetchCalls w0
            /\ console w2 = console w0).
  { intros w0. destruct (renderDashboard_returns v _ None w0 Hplain) as [w2 Hw2].
    destruct (renderDashboard_last _ _ _ _ _ Hw2) as (view & n & Hb & Hl & Hc).
    destruct (renderDashboard_frame _ _ _ _ _ Hw2) as (Hcon & Hf).
    exists w2, view, n. split; [exact Hw2|]. split; [exact Hb|].
    split; [exact (buildView_tickets _ _ _ _ Hb)|]. auto. }
  unfold run, fetchJiraData. rewrite Hs.
  destruct v; cbn [onFulfilled].
  - destruct (Hrender (logTo (mkEntry Log "Parsed tickets:" None)
                         (mkWorld (page (showLoading Original w))
                            (console (showLoading Original w))
                            (S (fetchCalls (showLoading Original w)))
                            (currentData (showLoading Original w)))))
      as (w2 & view & n & Hw2 & Hb & Ht & Hl & Hc & Hf & Hcon).
    exists w2, view, n. rewrite Hw2. split; [reflexivity|]. split; [exact Hb|].
    split; [exact Ht|]. split; [exact Hl|]. split; [exact Hc|]. split; [exact Hf|].
    intros e He. rewrite Hcon in He. cbn [console logTo showLoading] in He.
    apply elem_of_app in He as [He|He]; [left; exact He|].
    apply list_elem_of_singleton in He. subst e. right. reflexivity.
  - destruct (Hrender (mkWorld (page (showLoading Refactored w))
                         (console (showLoading Refactored w))
                         (S (fetchCalls (showLoading Refactored w)))
                         (currentData (showLoading Refactored w))))
      as (w2 & view & n & Hw2 & Hb & Ht & Hl & Hc & Hf & Hcon).
    exists w2, view, n. rewrite Hw2. split; [reflexivity|]. split; [exact Hb|].
    split; [exact Ht|]. split; [exact Hl|]. split; [exact Hc|]. split; [exact Hf|].
    intros e He. rewrite Hcon in He. left. exact He.
  - destruct (Hrender (mkWorld (page (showLoading Sprint w))
                         (console (showLoading Sprint w))
                         (S (fetchCalls (showLoading Sprint w)))
                         (currentData (showLoading Sprint w))))
      as (w2 & view & n & Hw2 & Hb & Ht & Hl & Hc & Hf & Hcon).
    eexists _, view, n. rewrite Hw2. cbn [mbind outcome_bind].
    split; [reflexivity|]. split; [exact Hb|].
    split; [exact Ht|]. split; [exact Hl|]. split; [exact Hc|]. split; [exact Hf|].
    intros e He. cbn [console logTo] in He. rewrite Hcon in He.
    apply elem_of_app in He as [He|He]; [left; exact He|].
    apply list_elem_of_singleton in He. subst e. right. reflexivity.
Qed.



End RunOutcomes.

(** ** Colours and initials *)

Section HelperFacts.
Import Str Helpers.

Lemma startsWith_app_l p q s : startsWith (p +:+ q) s = true -> startsWith p s = true.
Proof.
  revert s. induction p as [|a p IH]; intros s H; [destruct s; reflexivity|].
  destruct s as [|x s]; [discriminate|].
  change (Ascii.eqb a x && startsWith (p +:+ q) s = true) in H.
  apply andb_true_iff in H as [Ha H]. cbn [startsWith]. rewrite Ha. cbn [andb]. auto.
Qed.

(** A text that includes a word includes the heads of the word. *)
Lemma includes_app_l p q s : includes (p +:+ q) s = true -> includes p s = true.
Proof.
  induction s as [|x s IH]; cbn [includes]; intros H.
  - rewrite orb_false_r in *. apply startsWith_app_l in H. exact H.
  - apply orb_true_iff in H as [H|H].
    + apply startsWith_app_l in H. rewrite H. reflexivity.
    + rewrite (IH H). apply orb_true_r.
Qed.

(** The test for "lowest" of the original script comes after the test
    for "low" and never decides: its colour is the colour of no
    priority, and the three scripts give every priority the same
    colour. *)
Theorem lowest_priority_has_no_colour v p :
  getPriorityColor v p <> "#0891b2"
  /\ getPriorityColor v p = getPriorityColor Refactored p.
Proof.
  unfold getPriorityColor.
  destruct (includes "highest" (toLowerCase p) || includes "critical" (toLowerCase p));
    [split; [discriminate|reflexivity]|].
  destruct (includes "high" (toLowerCase p)); [split; [discriminate|reflexivity]|].
  destruct (includes "medium" (toLowerCase p)); [split; [discriminate|reflexivity]|].
  destruct (includes "low" (toLowerCase p)) eqn:Elow; [split; [discriminate|reflexivity]|].
  destruct v; try (split; [discriminate|reflexivity]).
  destruct (includes "lowest" (toLowerCase p)) eqn:E; [|split; [discriminate|reflexivity]].
  apply (includes_app_l "low" "est") in E. congruence.
Qed.

Lemma lower_upper c : lower (upper c) = lower c.
Proof. destruct c as [[] [] [] [] [] [] [] []]; reflexivity. Qed.

Lemma lower_lower c : lower (lower c) = lower c.
Proof. destruct c as [[] [] [] [] [] [] [] []]; reflexivity. Qed.

Lemma upper_upper c : upper (upper c) = upper c.
Proof. destruct c as [[] [] [] [] [] [] [] []]; reflexivity. Qed.

Lemma isDottedI_true c1 c2 :
  isDottedI c1 c2 = true <-> c1 = ascii_of_nat 196 /\ c2 = ascii_of_nat 176.
Proof.
  unfold isDottedI. rewrite andb_true_iff, !Nat.eqb_eq. split.
  - intros [H1 H2]. apply (f_equal ascii_of_nat) in H1, H2.
    rewrite ascii_nat_embedding in H1, H2. auto.
  - intros [-> ->]. split; reflexivity.
Qed.

Lemma isKelvin_true c1 c2 c3 :
  isKelvin c1 c2 c3 = true
  <-> c1 = ascii_of_nat 226 /\ c2 = ascii_of_nat 132 /\ c3 = ascii_of_nat 170.
Proof.
  unfold isKelvin. rewrite !andb_true_iff, !Nat.eqb_eq. split.
  - intros [[H1 H2] H3]. apply (f_equal ascii_of_nat) in H1, H2, H3.
    rewrite ascii_nat_embedding in H1, H2, H3. auto.
  - intros (-> & -> & ->). repeat split; reflexivity.
Qed.

Lemma toLowerCase_dotted s2 :
  toLowerCase (String (ascii_of_nat 196) (String (ascii_of_nat 176) s2))
  = String "i" (combiningDot +:+ toLowerCase s2).
Proof. reflexivity. Qed.

Lemma toLowerCase_kelvin s3 :
  toLowerCase (String (ascii_of_nat 226) (String (ascii_of_nat 132)
                 (String (ascii_of_nat 170) s3)))
  = String "k" (toLowerCase s3).
Proof. reflexivity. Qed.

Lemma toLowerCase_plain c1 s1 :
  dottedHead (String c1 s1) = false -> kelvinHead (String c1 s1) = false ->
  toLowerCase (String c1 s1) = String (lower c1) (toLowerCase s1).
Proof.
  intros Hd Hk. destruct s1 as [|c2 [|c3 s3]]; cbn [dottedHead kelvinHead] in *.
  - reflexivity.
  - cbn [toLowerCase]. rewrite Hd. reflexivity.
  - cbn [toLowerCase] in *. rewrite Hd, Hk. reflexivity.
Qed.

(** Induction along the characters that [toLowerCase] reads. *)
Lemma toLowerCase_ind (P : string -> Prop) :
  P EmptyString ->
  (forall s2, P s2 -> P (String (ascii_of_nat 196) (String (ascii_of_nat 176) s2))) ->
  (forall s3, P s3 ->
     P (String (ascii_of_nat 226) (String (ascii_of_nat 132) (String (ascii_of_nat 170) s3)))) ->
  (forall c1 s1, dottedHead (String c1 s1) = false -> kelvinHead (String c1 s1) = false ->
                 P s1 -> P (String c1 s1)) ->
  forall s, P s.
Proof.
  intros H0 Hd Hk Hp.
  assert (H : forall n s, String.length s <= n -> P s).
  { induction n as [|n IH]; intros s Hn.
    - destruct s; [exact H0|simpl in Hn; lia].
    - destruct s as [|c1 s1]; [exact H0|]. simpl in Hn.
      destruct (dottedHead (String c1 s1)) eqn:E1.
      { destruct s1 as [|c2 s2]; [discriminate|]. cbn [dottedHead] in E1.
        apply isDottedI_true in E1 as [-> ->]. apply Hd, IH. simpl in Hn. lia. }
      destruct (kelvinHead (String c1 s1)) eqn:E2.
      { destruct s1 as [|c2 [|c3 s3]]; try discriminate. cbn [kelvinHead] in E2.
        apply isKelvin_true in E2 as (-> & -> & ->). apply Hk, IH. simpl in Hn. lia. }
      apply Hp; [exact E1|exact E2|apply IH; lia]. }
  intros s. apply (H (String.length s)). lia.
Qed.

Lemma isDottedI_upper c1 c2 : isDottedI (upper c1) (upper c2) = isDottedI c1 c2.
Proof.
  destruct c1 as [[] [] [] [] [] [] [] []]; try reflexivity;
    destruct c2 as [[] [] [] [] [] [] [] []]; reflexivity.
Qed.

Lemma isKelvin_upper c1 c2 c3 :
  isKelvin (upper c1) (upper c2) (upper c3) = isKelvin c1 c2 c3.
Proof.
  destruct c1 as [[] [] [] [] [] [] [] []]; try reflexivity;
    destruct c2 as [[] [] [] [] [] [] [] []]; try reflexivity;
    destruct c3 as [[] [] [] [] [] [] [] []]; reflexivity.
Qed.

Lemma dottedHead_toUpperCase s : dottedHead (toUpperCase s) = dottedHead s.
Proof. destruct s as [|c1 [|c2 s2]]; try reflexivity. apply isDottedI_upper. Qed.

Lemma kelvinHead_toUpperCase s : kelvinHead (toUpperCase s) = kelvinHead s.
Proof. destruct s as [|c1 [|c2 [|c3 s3]]]; try reflexivity. apply isKelvin_upper. Qed.

(** Upper-casing the ASCII letters of a text first does not change its
    lower case. *)
Lemma toLowerCase_toUpperCase s : toLowerCase (toUpperCase s) = toLowerCase s.
Proof.
  induction s as [|s2 IH|s3 IH|c1 s1 Hd Hk IH] using toLowerCase_ind.
  - reflexivity.
  - change (toUpperCase (String (ascii_of_nat 196) (String (ascii_of_nat 176) s2)))
      with (String (ascii_of_nat 196) (String (ascii_of_nat 176) (toUpperCase s2))).
    rewrite !toLowerCase_dotted, IH. reflexivity.
  - change (toUpperCase (String (ascii_of_nat 226) (String (ascii_of_nat 132)
                           (String (ascii_of_nat 170) s3))))
      with (String (ascii_of_nat 226) (String (ascii_of_nat 132)
              (String (ascii_of_nat 170) (toUpperCase s3)))).
    rewrite !toLowerCase_kelvin, IH. reflexivity.
  - rewrite (toLowerCase_plain c1 s1 Hd Hk).
    pose proof (dottedHead_toUpperCase (String c1 s1)) as Hd'.
    pose proof (kelvinHead_toUpperCase (String c1 s1)) as Hk'.
    rewrite Hd in Hd'. rewrite Hk in Hk'.
    change (toUpperCase (String c1 s1)) with (String (upper c1) (toUpperCase s1)) in *.
    rewrite (toLowerCase_plain _ _ Hd' Hk'), lower_upper, IH. reflexivity.
Qed.

Lemma lower_high c : 128 <= nat_of_ascii (lower c) -> lower c = c.
Proof.
  destruct c as [[] [] [] [] [] [] [] []]; intros H; try reflexivity;
    vm_compute in H; lia.
Qed.

(** A byte outside of ASCII at the head of a lower-cased text was at the
    head of the text. *)
Lemma toLowerCase_head x t s :
  128 <= nat_of_ascii x -> toLowerCase s = String x t ->
  exists t', s = String x t' /\ (dottedHead s = false -> kelvinHead s = false ->
                                 t = toLowerCase t').
Proof.
  intros Hx H. destruct s as [|c1 s1]; [discriminate|].
  destruct (dottedHead (String c1 s1)) eqn:E1.
  { destruct s1 as [|c2 s2]; [discriminate|]. cbn [dottedHead] in E1.
    apply isDottedI_true in E1 as [-> ->]. rewrite toLowerCase_dotted in H.
    injection H as <- _. vm_compute in Hx. lia. }
  destruct (kelvinHead (String c1 s1)) eqn:E2.
  { destruct s1 as [|c2 [|c3 s3]]; try discriminate. cbn [kelvinHead] in E2.
    apply isKelvin_true in E2 as (-> & -> & ->). rewrite toLowerCase_kelvin in H.
    injection H as <- _. vm_compute in Hx. lia. }
  rewrite (toLowerCase_plain c1 s1 E1 E2) in H. injection H as Hc Ht.
  subst x. rewrite (lower_high c1 Hx). exists s1. split; [reflexivity|]. auto.
Qed.

Lemma dottedHead_lowered c1 s1 :
  dottedHead (String c1 s1) = false ->
  dottedHead (String (lower c1) (toLowerCase s1)) = false.
Proof.
  intros Hd. destruct (dottedHead (String (lower c1) (toLowerCase s1))) eqn:E; [|reflexivity].
  destruct (toLowerCase s1) as [|x t] eqn:Es; [discriminate|]. cbn [dottedHead] in E.
  apply isDottedI_true in E as [E1 ->].
  assert (H176 : 128 <= nat_of_ascii (ascii_of_nat 176)) by (vm_compute; lia).
  destruct (toLowerCase_head _ _ _ H176 Es) as (t' & -> & _).
  assert (Hc : lower c1 = c1) by (apply lower_high; rewrite E1; vm_compute; lia).
  rewrite Hc in E1. subst c1. discriminate Hd.
Qed.

Lemma other_head c1 s1 :
  nat_of_ascii c1 <> 196 -> nat_of_ascii c1 <> 226 ->
  dottedHead (String c1 s1) = false /\ kelvinHead (String c1 s1) = false.
Proof.
  intros H1 H2. split.
  - destruct (dottedHead (String c1 s1)) eqn:E; [|reflexivity].
    destruct s1 as [|c2 s2]; [discriminate|]. cbn [dottedHead] in E.
    apply isDottedI_true in E as [-> _]. vm_compute in H1. congruence.
  - destruct (kelvinHead (String c1 s1)) eqn:E; [|reflexivity].
    destruct s1 as [|c2 [|c3 s3]]; try discriminate. cbn [kelvinHead] in E.
    apply isKelvin_true in E as (-> & _). vm_compute in H2. congruence.
Qed.

Lemma kelvinHead_lowered c1 s1 :
  dottedHead (String c1 s1) = false -> kelvinHead (String c1 s1) = false ->
  kelvinHead (String (lower c1) (toLowerCase s1)) = false.
Proof.
  intros Hd Hk.
  destruct (kelvinHead (String (lower c1) (toLowerCase s1))) eqn:E; [|reflexivity].
  destruct (toLowerCase s1) as [|x [|y t]] eqn:Es; try discriminate. cbn [kelvinHead] in E.
  apply isKelvin_true in E as (E1 & -> & ->).
  assert (H132 : 128 <= nat_of_ascii (ascii_of_nat 132)) by (vm_compute; lia).
  assert (H170 : 128 <= nat_of_ascii (ascii_of_nat 170)) by (vm_compute; lia).
  destruct (toLowerCase_head _ _ _ H132 Es) as (t' & -> & Ht).
  destruct (other_head (ascii_of_nat 132) t') as [Hd' Hk']; [vm_compute; lia..|].
  specialize (Ht Hd' Hk'). symmetry in Ht.
  destruct (toLowerCase_head _ _ _ H170 Ht) as (t'' & -> & _).
  assert (Hc : lower c1 = c1) by (apply lower_high; rewrite E1; vm_compute; lia).
  rewrite Hc in E1. subst c1. discriminate Hk.
Qed.

(** Lower-casing twice is lower-casing once. *)
Lemma toLowerCase_idempotent s : toLowerCase (toLowerCase s) = toLowerCase s.
Proof.
  induction s as [|s2 IH|s3 IH|c1 s1 Hd Hk IH] using toLowerCase_ind.
  - reflexivity.
  - rewrite toLowerCase_dotted. unfold combiningDot.
    change (String "i" (String (ascii_of_nat 204) (String (ascii_of_nat 135) EmptyString)
                        +:+ toLowerCase s2))
      with (String "i" (String (ascii_of_nat 204) (String (ascii_of_nat 135)
                          (toLowerCase s2)))).
    destruct (other_head "i" (String (ascii_of_nat 204) (String (ascii_of_nat 135)
                (toLowerCase s2)))) as [H1 H2]; [vm_compute; lia..|].
    rewrite (toLowerCase_plain _ _ H1 H2).
    destruct (other_head (ascii_of_nat 204) (String (ascii_of_nat 135) (toLowerCase s2)))
      as [H3 H4]; [vm_compute; lia..|].
    rewrite (toLowerCase_plain _ _ H3 H4).
    destruct (other_head (ascii_of_nat 135) (toLowerCase s2))
      as [H5 H6]; [vm_compute; lia..|].
    rewrite (toLowerCase_plain _ _ H5 H6), IH. reflexivity.
  - rewrite toLowerCase_kelvin.
    destruct (other_head "k" (toLowerCase s3)) as [H1 H2]; [vm_compute; lia..|].
    rewrite (toLowerCase_plain _ _ H1 H2), IH. reflexivity.
  - rewrite (toLowerCase_plain c1 s1 Hd Hk).
    rewrite (toLowerCase_plain _ _ (dottedHead_lowered c1 s1 Hd)
               (kelvinHead_lowered c1 s1 Hd Hk)).
    rewrite lower_lower, IH. reflexivity.
Qed.

(** The Kelvin sign is a [k] for the tests of the scripts: a type that
    spells "task" with it counts as a task. *)
Example toLowerCase_example :
  toLowerCase ("TAS" +:+ String (ascii_of_nat 226) (String (ascii_of_nat 132)
                 (String (ascii_of_nat 170) EmptyString))) = "task".
Proof. vm_compute. reflexivity. Qed.

Lemma toUpperCase_idempotent s : toUpperCase (toUpperCase s) = toUpperCase s.
Proof. induction s as [|c s IH]; simpl; [reflexivity|]. rewrite upper_upper, IH. reflexivity. Qed.

(** The colours do not depend on the case of the letters of the status
    or of the priority; nor does the sorting of a ticket among the
    stories. *)
Theorem colours_ignore_case v s (t : Ticket.t) :
  getStatusColor (toUpperCase s) = getStatusColor s
  /\ getStatusColor (toLowerCase s) = getStatusColor s
  /\ getPriorityColor v (toUpperCase s) = getPriorityColor v s
  /\ getPriorityColor v (toLowerCase s) = getPriorityColor v s
  /\ includes "story" (toLowerCase (toUpperCase (Ticket.type t))) = Grouper.isStory t.
Proof.
  unfold getStatusColor, getPriorityColor, Grouper.isStory.
  rewrite !toLowerCase_toUpperCase, !toLowerCase_idempotent, or_else_self. auto.
Qed.

Lemma slice2_toUpperCase s : slice2 (toUpperCase s) = toUpperCase (slice2 s).
Proof. destruct s as [|a [|b s]]; reflexivity. Qed.

Lemma slice2_length s : String.length (slice2 s) <= 2.
Proof. destruct s as [|a [|b s]]; simpl; lia. Qed.

(** The initials of an ASCII name in the original and in the refactored
    script are the same text, of two characters at most, without
    lower-case letters: upper-casing ASCII letters and cutting commute. *)
Theorem initials_agree name :
  isAscii name = true ->
  exists initials,
    getAssigneeInitials name = Done initials
    /\ assigneeInitials name = Done initials
    /\ String.length initials <= 2
    /\ toUpperCase initials = initials.
Proof.
  intros H. unfold getAssigneeInitials, assigneeInitials. rewrite H.
  eexists. split; [reflexivity|]. split; [rewrite slice2_toUpperCase; reflexivity|].
  split; [apply slice2_length|].
  rewrite slice2_toUpperCase. apply toUpperCase_idempotent.
Qed.

Lemma initials_agree_witness :
  exists initials,
    getAssigneeInitials "mary-ann  o'neil" = Done initials
    /\ assigneeInitials "mary-ann  o'neil" = Done initials
    /\ String.length initials <= 2
    /\ toUpperCase initials = initials.
Proof. apply (initials_agree "mary-ann  o'neil"). reflexivity. Defined.

Lemma split_word w rest :
  occurs " " w = false -> split " " (w +:+ String " " rest) = w :: split " " rest.
Proof.
  induction w as [|c w IH]; intros H; [reflexivity|].
  simpl in H. apply orb_false_iff in H as [Hc Hw].
  change (String c w +:+ String " " rest) with (String c (w +:+ String " " rest)).
  cbn [split]. rewrite Hc, (IH Hw). reflexivity.
Qed.

Lemma split_head b w :
  Ascii.eqb b " " = false ->
  exists word words, split " " (String b w) = String b word :: words.
Proof.
  intros H. cbn [split]. rewrite H. destruct (split " " w); eauto.
Qed.

Lemma isAscii_app a b : isAscii (a +:+ b) = isAscii a && isAscii b.
Proof.
  induction a as [|c a IH]; [reflexivity|].
  change (isAscii (String c (a +:+ b)) = isAscii (String c a) && isAscii b).
  cbn [isAscii]. rewrite IH. apply andb_assoc.
Qed.

(** The initials of an ASCII name of two words or more are the first
    letters of its first two words, in upper case; those of a name of
    one word are its first letter. *)
Theorem initials_of_a_name a w1 b w2 :
  isAscii (String a w1) = true ->
  isAscii (String b w2) = true ->
  occurs " " (String a w1) = false ->
  Ascii.eqb b " " = false ->
  getAssigneeInitials (String a w1 +:+ " " +:+ String b w2)
  = Done (String (upper a) (String (upper b) EmptyString))
  /\ getAssigneeInitials (String a w1) = Done (String (upper a) EmptyString).
Proof.
  intros H1 H2 Ha Hb. unfold getAssigneeInitials. split.
  - change (String a w1 +:+ " " +:+ String b w2)
      with (String a w1 +:+ String " " (String b w2)).
    rewrite isAscii_app, H1.
    change (isAscii (String " " (String b w2))) with (true && isAscii (String b w2)).
    rewrite H2. cbn [andb].
    rewrite (split_word (String a w1) (String b w2) Ha).
    destruct (split_head b w2 Hb) as (word & words & ->). reflexivity.
  - assert (Hs : forall w, occurs " " w = false -> split " " w = [w]).
    { clear. induction w as [|c w IH]; intros H; [reflexivity|].
      simpl in H. apply orb_false_iff in H as [Hc Hw].
      cbn [split]. rewrite Hc, (IH Hw). reflexivity. }
    rewrite H1, (Hs _ Ha).
    reflexivity.
Qed.

Lemma initials_of_a_name_witness :
  getAssigneeInitials ("alice" +:+ " " +:+ "van der Berg") = Done "AV"
  /\ getAssigneeInitials "alice" = Done "A".
Proof.
  apply (initials_of_a_name "a" "lice" "v" "an der Berg"); reflexivity.
Defined.

End HelperFacts.

(** ** Folding a section *)

Section ToggleFacts.
Import Str Toggle.

(** Looking for the first element with a property that an update keeps,
    in a sequence updated at one place. *)
Lemma list_find_alter {A} (P : A -> Prop) `{!forall x, Decision (P x)}
  (f : A -> A) (k : nat) (l : list A) :
  (forall x, P (f x) <-> P x) ->
  list_find P (alter f k l)
  = (fun nx => (nx.1, if decide (nx.1 = k) then f nx.2 else nx.2)) <$> list_find P l.
Proof.
  intros Hf. revert k. induction l as [|x l IH]; intros k; [reflexivity|].
  destruct k as [|k]; cbn [alter list_alter list_find].
  - destruct (decide (P x)) as [Hx|Hx].
    + rewrite decide_True by (apply Hf; exact Hx). reflexivity.
    + rewrite decide_False by (rewrite Hf; exact Hx).
      destruct (list_find P l) as [[n y]|]; reflexivity.
  - destruct (decide (P x)) as [Hx|Hx]; [reflexivity|].
    change (list_alter f k l) with (alter f k l). rewrite IH.
    destruct (list_find P l) as [[n y]|]; [|reflexivity].
    cbn. destruct (decide (n = k)) as [->|Hn].
    + rewrite decide_True by reflexivity. reflexivity.
    + rewrite decide_False by congruence. reflexivity.
Qed.

Lemma getElementById_alter f k sectionId doc :
  (forall e, id (f e) = id e) ->
  getElementById sectionId (alter f k doc)
  = (fun nx => (nx.1, if decide (nx.1 = k) then f nx.2 else nx.2))
      <$> getElementById sectionId doc.
Proof.
  intros Hf. unfold getElementById. destruct (truthy sectionId); [|reflexivity].
  apply (list_find_alter (fun e => id e = Some sectionId)).
  intros e. rewrite Hf. reflexivity.
Qed.

Lemma queryToggle_alter f k sectionId doc :
  (forall e, attrs (f e) = attrs e) ->
  queryToggle sectionId (alter f k doc)
  = (fun nx => (nx.1, if decide (nx.1 = k) then f nx.2 else nx.2))
      <$> queryToggle sectionId doc.
Proof.
  intros Hf. unfold queryToggle.
  apply (list_find_alter (fun e => getAttribute "data-toggle" e = Some sectionId)).
  intros e. unfold getAttribute. rewrite Hf. reflexivity.
Qed.

Lemma buttonText_attrs v b b' w : attrs b' = attrs b -> buttonText v b' w = buttonText v b w.
Proof. intros H. unfold buttonText, getAttribute. rewrite H. reflexivity. Qed.

Lemma toggle_found v sectionId doc i c j b :
  plain sectionId = true ->
  getElementById sectionId doc = Some (i, c) ->
  queryToggle sectionId doc = Some (j, b) ->
  toggleJiraSection v sectionId doc
  = Done (alter (setText (buttonText v b (isExpanded c))) j
            (alter (setDisplay (if isExpanded c then "none" else "block")) i doc)).
Proof. intros Hp Hc Hb. unfold toggleJiraSection. rewrite Hp, Hc, Hb. reflexivity. Qed.

Lemma found_after X T sectionId doc i c j b :
  getElementById sectionId doc = Some (i, c) ->
  queryToggle sectionId doc = Some (j, b) ->
  exists c' b',
    getElementById sectionId (alter (setText T) j (alter (setDisplay X) i doc)) = Some (i, c')
    /\ queryToggle sectionId (alter (setText T) j (alter (setDisplay X) i doc)) = Some (j, b')
    /\ display c' = X /\ attrs b' = attrs b.
Proof.
  intros Hc Hb.
  rewrite !getElementById_alter, !queryToggle_alter by reflexivity.
  rewrite Hc, Hb. cbn. rewrite !(decide_True (P := i = i)), !(decide_True (P := j = j)) by reflexivity.
  eexists. eexists. split; [reflexivity|]. split; [reflexivity|].
  split; repeat case_decide; reflexivity.
Qed.

Lemma lookup_toggled X T i j k (doc : list element) :
  alter (setText T) j (alter (setDisplay X) i doc) !! k
  = (fun e => (if decide (j = k) then setText T else fun e => e)
                ((if decide (i = k) then setDisplay X else fun e => e) e)) <$> doc !! k.
Proof.
  rewrite list_lookup_alter. destruct (decide (j = k)) as [->|Hj];
    rewrite list_lookup_alter; destruct (decide (i = k)) as [->|Hi];
    destruct (doc !! k); reflexivity.
Qed.

Lemma alter_twice X T X' T' i j (doc : list element) :
  alter (setText T') j (alter (setDisplay X') i
    (alter (setText T) j (alter (setDisplay X) i doc)))
  = alter (setText T') j (alter (setDisplay X') i doc).
Proof.
  apply list_eq. intros k. rewrite !lookup_toggled.
  destruct (doc !! k) as [e|]; [|reflexivity]. cbn.
  repeat case_decide; destruct e; reflexivity.
Qed.



(** On a plain id, without an element of that id, or without an element
    whose [data-toggle] is that id, the call changes nothing; so it
    does with the empty id, which is the id of no element. *)
Theorem toggle_without_target_is_idle v sectionId doc :
  plain sectionId = true ->
  sectionId = EmptyString
  \/ Forall (fun e => id e <> Some sectionId) doc
  \/ Forall (fun e => getAttribute "data-toggle" e <> Some sectionId) doc ->
  toggleJiraSection v sectionId doc = Done doc.
Proof.
  intros Hp H. unfold toggleJiraSection. rewrite Hp.
  destruct H as [->|[H|H]].
  - reflexivity.
  - assert (Hn : getElementById sectionId doc = None).
    { unfold getElementById. destruct (truthy sectionId); [|reflexivity].
      apply list_find_None. exact H. }
    rewrite Hn. reflexivity.
  - assert (Hn : queryToggle sectionId doc = None).
    { apply list_find_None. exact H. }
    rewrite Hn. destruct (getElementById sectionId doc) as [[]|]; reflexivity.
Qed.

Lemma toggle_without_target_is_idle_witness :
  toggleJiraSection Original "s2"
    [mk None EmptyString [("data-toggle", "s1")] "-"; mk (Some "s2") "none" [] "tasks"]
  = Done [mk None EmptyString [("data-toggle", "s1")] "-"; mk (Some "s2") "none" [] "tasks"].
Proof.
  apply (toggle_without_target_is_idle Original "s2"); [reflexivity|].
  right. right. repeat constructor; discriminate.
Defined.

(** Calling [toggleJiraSection] again and again on a plain id always
    returns; the page alternates between two states from the first
    call on, and after two calls every element is shown or hidden as
    it was before the first call. *)
Theorem toggle_alternates v sectionId doc :
  plain sectionId = true ->
  exists d1 d2,
    toggleJiraSection v sectionId doc = Done d1
    /\ toggleJiraSection v sectionId d1 = Done d2
    /\ toggleJiraSection v sectionId d2 = Done d1
    /\ isExpanded <$> d2 = isExpanded <$> doc.
Proof.
  intros Hp.
  destruct (getElementById sectionId doc) as [[i c]|] eqn:Hc; cycle 1.
  { exists doc, doc. unfold toggleJiraSection. rewrite Hp, Hc. auto. }
  destruct (queryToggle sectionId doc) as [[j b]|] eqn:Hb; cycle 1.
  { exists doc, doc. unfold toggleJiraSection. rewrite Hp, Hc, Hb. auto. }
  assert (Hi : doc !! i = Some c).
  { unfold getElementById in Hc. destruct (truthy sectionId); [|discriminate].
    apply list_find_Some in Hc. tauto. }
  assert (Hstep : forall X T,
    toggleJiraSection v sectionId (alter (setText T) j (alter (setDisplay X) i doc))
    = Done (alter (setText (buttonText v b (negb (String.eqb X "none")))) j
              (alter (setDisplay (if negb (String.eqb X "none") then "none" else "block")) i doc))).
  { intros X T. destruct (found_after X T _ _ _ _ _ _ Hc Hb) as (c' & b' & Hc' & Hb' & HX & Hat).
    rewrite (toggle_found v _ _ _ _ _ _ Hp Hc' Hb'), alter_twice.
    unfold isExpanded. rewrite HX, (buttonText_attrs v b b' _ Hat). reflexivity. }
  eexists. eexists.
  split; [exact (toggle_found v _ _ _ _ _ _ Hp Hc Hb)|].
  split; [apply Hstep|].
  split.
  { rewrite Hstep. unfold isExpanded. destruct (String.eqb (display c) "none"); reflexivity. }
  apply list_eq. intros k. rewrite !list_lookup_fmap, lookup_toggled.
  destruct (decide (i = k)) as [<-|Hk].
  - rewrite Hi. cbn. f_equal.
    assert (He : forall e, isExpanded (setDisplay
                   (if negb (String.eqb (if isExpanded c then "none" else "block") "none")
                    then "none" else "block") e) = isExpanded c).
    { intros e. unfold isExpanded. cbn. destruct (String.eqb (display c) "none"); reflexivity. }
    case_decide; [unfold setText at 1; unfold isExpanded at 1; cbn; fold (isExpanded c)|];
      try apply He.
    unfold isExpanded. cbn. destruct (String.eqb (display c) "none"); reflexivity.
  - destruct (doc !! k) as [e|]; [|reflexivity]. cbn.
    case_decide; destruct e; reflexivity.
Qed.

Lemma toggle_alternates_witness :
  exists d1 d2,
    toggleJiraSection Original "s1"
      [mk None EmptyString [("data-toggle", "s1")] "-"; mk (Some "s1") EmptyString [] "stories"]
    = Done d1
    /\ toggleJiraSection Original "s1" d1 = Done d2
    /\ toggleJiraSection Original "s1" d2 = Done d1
    /\ isExpanded <$> d2 = [true; true].
Proof.
  apply (toggle_alternates Original "s1"
           [mk None EmptyString [("data-toggle", "s1")] "-";
            mk (Some "s1") EmptyString [] "stories"]).
  reflexivity.
Defined.

End ToggleFacts.
